(* ===== verification/_CoqProject ===== *)
-Q . S2P
Prelude.v
JsString.v
Base64.v
Base64Ref.v
Json.v
JsonFuel.v
JsonNumber.v
NumberToString.v
Ether.v
Wagmi.v
Runtime.v
Page.v
Traces.v
PageSafety.v
PageInvariant.v
Refinement.v
TokenURI.v
Styles.v
ModalText.v
Account.v
