(* ===== verification/Prelude.v ===== *)
(** * A verification library for the NFT-Minter page

    The program is one Next.js page, [src/my-app/pages/index.js]: the
    component [Home] (lines 10-181) and inline style objects (lines
    183-262).  [Home] keeps four [useState] cells (lines 15-18), reads the
    wallet status ([useAccount], line 13), the contract's [totalSupply]
    and [tokenURI] ([useContractRead], lines 30-48), and writes [mint]
    ([useContractWrite], lines 20-28).  Two effects react to the reads:
    lines 50-56 mirror [isConnected]; lines 58-66 decode the token URI
    with [indexOf], [substring], [window.atob] and [JSON.parse] into
    [latestNFTMinted].  The async handler [mintToken] (lines 68-84) sets
    the modal flags, converts the button's price with
    [ethers.utils.parseEther], awaits [mint(...)] and [wait()], logs,
    re-reads the supply and clears [isMinting]; every error is caught and
    logged.  The JSX (lines 86-180) shows a connect prompt or three tier
    cards, and a modal ("Minting..." or "Mint Successful" with the
    metadata and two links) that reads [latestNFTMinted.name],
    [latestNFTMinted.image] and [mintData.hash].

    ** Files, in dependency order
    - [Prelude] (this file): JavaScript strings as lists of UTF-16 code
      units ([jstring], literals [js "..."]), bytes, the [nft] hint
      databases, the tactics and the shared lemmas on lists and division.
    - [JsString] (Module [JsString]): [String.prototype.indexOf] and
      [substring], JavaScript truthiness and the decimal rendering of a
      [BigNumber] in a template literal (line 158).
    - [Base64] (Module [Base64]): [window.atob] as the WHATWG
      forgiving-base64 decode ([forgiving_base64_decode], [decode_loop]),
      and a reference encoder [b64_encode] with the round trip
      [decode_after_encode].
    - [Base64Ref] (Module [Base64Ref]): a bit-level reference for the
      decoder (six bits per character, concatenated, read back eight at a
      time: [decode_ref], [atob_ref]), proved equal to the 24-bit buffer
      loop on every input ([decode_loop_ref], [atob_eq_ref]), with the
      bounds of its output ([decode_ref_bounds]).
    - [Json] (Module [Json]): [JSON.parse] as a recursive-descent parser
      over code units ([parse_value], [parse_elements], [parse_members],
      with fuel) and property access [v.key] ([get_prop]), which throws
      on [null].
    - [JsonFuel] (Module [JsonFuel]): every lexer step consumes input and
      the fuel [2 * length text + 1] of [json_parse] is enough: more fuel
      changes no result.
    - [JsonNumber] (Module [JsonNumber]): the double [JSON.parse] makes of
      a number literal ([to_double], ECMA-262 rounding to nearest, ties to
      even, on Stdlib's binary64 [SpecFloat]); integers below [2^53] are
      exact ([to_double_safe]).
    - [NumberToString] (Module [NumberToString]): ECMA-262
      Number::toString, the text React prints for a number: the shortest
      decimal that rounds back ([shortest]) and its layout ([layout]);
      integers below [10^15] print as their digits ([to_string_int]).
    - [Ether] (Module [Ether]): [parseEther] as ethers v5's [parseFixed]
      with 18 decimals, its error cases as the sum type [ether_error].
    - [Wagmi] (Modules [ContractWrite], [ContractRead]): the observer of
      [useContractWrite] ([data], [isLoading]) as react-query's mutation
      observer: a new mutation resets [data]; results of a superseded
      mutation are ignored.  The [tokenURI] read observer receives only
      the result of the read for its current [args] ([delivers]).
      [ContractWrite.wf]: the observer shows one of react-query's four
      mutation statuses, and each operation keeps it so.
    - [Runtime]: the class [Runtime] of the three library calls the page
      makes ([atob], [JSON.parse], [parseEther]), its instance [browser]
      built from the three models above, and the class [RuntimeLaws] of
      what the decoding theorems need ([atob] inverts base64), discharged
      by [browser_laws].
    - [Page] (Module [Page]): the page as a state machine.  [state] holds
      the [useState] cells ([ui]), the hook results ([isConnected],
      [write], [tokenData], [tokenURI]), the calls the page made
      ([refetches], [submitted] payments), the suspended [mintToken]
      calls ([tasks], each with the [mintData] its closure captured) and
      the console.  [step] takes one [event] (a wallet or read update, a
      click, the resolution or rejection of an awaited promise) and runs
      the matching handler: [connection_effect] (lines 50-56),
      [token_effect] with [decode_token_uri] (58-66), [mintToken_start]
      (68-76), [mintToken_minted] (72), [mintToken_mint_failed] (81-83),
      [mintToken_confirmed] (77-80), [mintToken_wait_failed],
      [close_modal] (167).  A new [totalSupply] result also resets
      [tokenURI] to [undefined] ([supply_read]): it is the [args] of the
      [tokenURI] read, whose query key changes with it; a [tokenURI]
      result is delivered only for that key.  An event is
      accepted only if the current
      render does not throw ([render], [render_modal], lines 86-180) and,
      for a click, only if the button is shown and enabled (line 110:
      [disabled={isMintLoading}]).  Effects run when their dependencies
      change, as React runs them after the render.
    - [Traces] (Module [Traces]): the fold [run] of [step] over an event
      list and the relation [reachable] describe the same states
      ([reachable_iff_run]); two runtimes that agree pointwise give the
      same [step] and [run] ([step_ext], [run_ext]), and
      [reference_runtime] is the browser with [Base64Ref.atob_ref].
    - [PageSafety] (Module [PageSafety]): when the render throws.
    - [PageInvariant] (Module [PageInvariant]): the invariant of every
      reachable state, for any [Runtime].
    - [Refinement] (Module [Refinement]): the specification's state
      machine ({disconnected}, {idle}, {minting}, {minted}) and [abs], the
      phase the render shows, read off the [useState] cells; [abs] is an
      abstraction of the render, not a translation of code.
    - [TokenURI] (Module [TokenURI]): the token URIs the contract returns
      ([data:application/json;base64,] followed by the encoded metadata,
      its strings as UTF-8 bytes) and what the page decodes from them.
    - [Styles] (Module [Styles]): the nine style objects of lines
      183-262 as property lists, the CSS 2.1 rules the modal's overlay
      relies on (a fixed box with zero offsets covers the viewport and
      paints above unpositioned boxes), and the chain of styles around a
      Mint button.
    - [ModalText] (Module [ModalText]): the text React renders for the
      name in the success modal's [<h3>] (line 153, [child_text]).
    - [Account] (Module [Account]): the wallet account that RainbowKit's
      [ConnectButton] and the wallet change, as wagmi's statuses
      ([account_step]), and [account_run], which feeds the page the
      [isConnected] of line 13 after each change.

    ** What is proved
    The claims about the page are stated for every state that satisfies
    their hypotheses (a connected page with the buttons enabled, a
    suspended call, a shown modal), not for one run; each has a witness
    that applies it to a concrete state.
    - Safety ([PageSafety], [PageInvariant]): under sequential use every
      reachable state renders ([no_render_crash_sequential]); under any
      interleaving the render throws only when the modal cannot show the
      metadata ([null], or a [name] React cannot render) or the latest
      write call has no result ([render_crash_causes]), and both happen:
      from any connected page, two overlapping mints crash it
      ([concurrent_mint_crash]), and metadata decoded for the current
      supply crashes the next success modal exactly when it is [null] or
      its [name] is not renderable ([mint_metadata_crash_iff]); a mint
      rejected in the wallet leaves the modal in "Minting..." under every
      sequence of events without a click ([failed_mint_stuck]); the log of
      line 78 prints the stale [mintData] of the clicked render
      ([mint_log_is_click_data]); a mint runs to the success modal with
      the link of its transaction ([mint_shows_success]), but a new supply
      moves the OpenSea link while the metadata stays the previous
      token's ([stale_metadata_with_new_link]); the frame between a hook
      update and its effect renders as the frame before
      ([effect_frames_render]).
    - Handlers ([Page]): a click submits exactly the tier's price in wei
      ([click_submits_tier_price]) and, for any decimal button value with
      at most 18 decimals, exactly its value ([mintToken_start_decimal]);
      [refetchTokenData] runs once per confirmed mint and never otherwise
      ([step_refetches]); only a confirmation clears [isMinting]
      ([minting_ends_only_on_confirmation]); a token URI that fails to
      decode changes nothing but the console ([token_uri_failure_keeps_ui]);
      a comma-free URI is decoded whole ([no_comma_uri_decoded_whole]);
      Close is accepted exactly under the success modal and returns to the
      cards ([close_modal_to_idle]).
    - Invariants ([PageInvariant]): [page_inv] holds in every reachable
      state, concurrent mints included ([reachable_page_inv]), by rule
      induction on [reachable]; hence the connect prompt shows exactly when
      the wallet is not connected ([connect_prompt_iff_disconnected]);
      every payment submitted is a tier's price
      ([payments_are_tier_prices]).
    - Refinement ([Refinement]): every step of the page keeps the
      specification's phase, takes one of its transitions, or is one of
      two named deviations ([step_refines]); both deviations happen from
      every state where they can: a reconnection restores the view the
      page had, modal included ([reconnect_restores_modal]), and a click
      under the success modal starts a new mint ([remint_from_success]).
    - Decoding ([TokenURI], [Base64]): the page decodes the contract's
      metadata URIs to the metadata object ([decode_metadata_uri]); for
      any runtime satisfying [RuntimeLaws] it hands [JSON.parse] exactly
      the encoded bytes ([decode_token_uri_payload]); a payload with a
      character outside base64 is ignored ([invalid_base64_uri_ignored]);
      UTF-8 metadata is shown as written exactly when it is ASCII
      ([utf8_metadata_shown_iff_ascii]).
    - Numbers ([ModalText], [NumberToString], [JsonNumber]): after a mint,
      a numeric metadata name below [10^15] is shown as written
      ([mint_heading_integer_name]) and one of magnitude [10^309] or more
      as [Infinity] ([mint_heading_huge_name]);
      [ModalText.big_integer_name_rounded] runs the case of
      [9007199254740993], shown as [9007199254740992].
    - Library lemmas that the claims rest on, not claims about the page:
      the JSON fuel is enough ([JsonFuel]); the buffer loop of [atob]
      equals the bit-level reference ([Base64Ref.atob_eq_ref]) and the page
      runs the same with either ([Traces.run_reference]); the write
      observer stays in one of react-query's statuses
      ([PageInvariant.reachable_write_wf]); the page's connection flags
      follow the wallet account ([Account.account_sync]); the modal's
      overlay covers the Mint buttons for the pointer
      ([Styles.modal_blocks_mint_buttons]).

    ** Bounds and fuel
    Integers are unbounded [Z]/[N] where the code uses [BigNumber]
    (payments, [tokenData]); code units are [Z] in [0, 65536) and bytes in
    [0, 256).  The only fuel is [json_parse]'s [2 * length text + 1]: an
    opening bracket costs two nested calls and every call consumes input,
    and [JsonFuel.fuel_step] shows one more unit changes nothing.  All
    other recursion is structural, except [NumberToString.shortest],
    which tries [k = 1 .. 16] digits and takes the nearest 17-digit
    decimal at [k = 17]: seventeen significant digits always round-trip
    for binary64 (Matula's bound), a fact used and not proved here; the
    theorems on it ([to_string_int]) stay below 16 digits, where the
    search is proved to stop.

    ** Not modelled
    The presentational properties of the style objects (colours,
    spacing, flex layout: kept as data, with no behaviour to prove) and
    the markup that only carries them; [Head] and [next/image] (library
    components: [Head] only sets the document's title, description and
    icon; what [Image] does with its [src], [width] and [height] depends on
    the Next.js version and image configuration, which the repository does
    not contain, and a missing [src] is taken not to throw); the markup and
    modals of [ConnectButton] (only the account status it changes is
    modelled, in [Account]); the chain itself:
    the values the reads return and the order in which promises settle
    are inputs of [step], not computed; [JSON.parse]'s reviver (the page
    passes none).  Effects are applied in the same step as the hook update
    that triggers them; the frame React renders in between is modelled
    ([PageSafety.hook_update]) and shown to render the view of the frame
    before ([effect_frames_render]), so nothing is lost. *)

From Stdlib Require Import ZArith NArith String Ascii List Lia.
Import ListNotations.

(** ** JavaScript strings

    A JavaScript string is a sequence of UTF-16 code units; we keep each
    code unit as a [Z] in [0, 65536).  Literals of the source are written
    [js "..."], the ASCII string mapped to its code units. *)

Declare Scope js_scope.
Delimit Scope js_scope with js.

Abbreviation jstring := (list Z).

Definition js (s : string) : jstring :=
  map (fun a => Z.of_nat (nat_of_ascii a)) (list_ascii_of_string s).

(** The code unit of an ASCII character literal. *)
Definition cu (a : ascii) : Z := Z.of_nat (nat_of_ascii a).

Definition code_unit (c : Z) : Prop := (0 <= c < 65536)%Z.

(** A byte, in the sense of WHATWG's "byte sequence" and of the
    "binary strings" that [window.atob] returns. *)
Definition is_byte (c : Z) : Prop := (0 <= c < 256)%Z.

(** ** Shared tactics and hint database *)

Create HintDb nft discriminated.
Create Rewrite HintDb nft_rw.

Ltac inv H := inversion H; clear H; subst.

(** Case on the scrutinee of the first [match] or [if] of the goal,
    remembering the equation. *)
Ltac case_match_goal :=
  match goal with
  | |- context [match ?x with _ => _ end] =>
      let E := fresh "E" in destruct x eqn:E
  end.

Ltac case_match_in H :=
  match type of H with
  | context [match ?x with _ => _ end] =>
      let E := fresh "E" in destruct x eqn:E
  end.

(** Case on every boolean comparison of integers in the goal, with its
    meaning as a hypothesis, so that [lia] can close the branches. *)
Ltac zbool_cases :=
  repeat match goal with
  | |- context [Z.leb ?a ?b] => destruct (Z.leb_spec a b)
  | |- context [Z.ltb ?a ?b] => destruct (Z.ltb_spec a b)
  | |- context [Z.eqb ?a ?b] => destruct (Z.eqb_spec a b)
  end; cbn [andb orb negb] in *.

(** The same for equality tests on [nat]. *)
Ltac nat_eqb_cases :=
  repeat match goal with
  | |- context [Nat.eqb ?a ?b] => destruct (Nat.eqb_spec a b)
  end.

(** ** Generic lemmas on lists, options and numbers *)

Lemma Forall_app_iff {A} (P : A -> Prop) (l1 l2 : list A) :
  Forall P (l1 ++ l2) <-> Forall P l1 /\ Forall P l2.
Proof.
  split.
  - intros H. apply Forall_app in H. exact H.
  - intros [H1 H2]. apply Forall_app. auto.
Qed.

Lemma option_bind_Some {A B} (o : option A) (f : A -> option B) (b : B) :
  match o with Some a => f a | None => None end = Some b <->
  exists a, o = Some a /\ f a = Some b.
Proof.
  destruct o as [a|]; split.
  - intros H. exists a. auto.
  - intros [a' [Ha Hb]]. inv Ha. exact Hb.
  - discriminate.
  - intros [a' [Ha _]]. discriminate.
Qed.

Lemma js_length s : List.length (js s) = String.length s.
Proof.
  unfold js. rewrite length_map.
  induction s as [|a s IH]; simpl; congruence.
Qed.

Lemma js_app s1 s2 : js (String.append s1 s2) = (js s1 ++ js s2)%list.
Proof.
  unfold js. rewrite <- map_app. f_equal.
  induction s1 as [|a s1 IH]; simpl; congruence.
Qed.

Lemma cu_range a : is_byte (cu a).
Proof.
  unfold is_byte, cu. pose proof (nat_ascii_bounded a). lia.
Qed.

Lemma js_bytes s : Forall is_byte (js s).
Proof.
  unfold js. apply Forall_map.
  induction s as [|a s IH]; simpl; constructor; auto.
  apply cu_range.
Qed.

Local Open Scope Z_scope.

(** Division by a product, split into a quotient and a remainder. *)
Lemma div_split n a b : 0 < a -> 0 < b -> n / a = b * (n / (a * b)) + (n / a) mod b.
Proof. intros. rewrite <- Z.div_div by lia. apply Z.div_mod. lia. Qed.

(** Euclidean division determined by a decomposition. *)
Lemma divmod_eq n d q r : 0 <= r < d -> n = d * q + r -> n / d = q /\ n mod d = r.
Proof.
  intros Hr ->. split;
    [symmetry; apply (Z.div_unique_pos _ _ _ r) | symmetry; apply (Z.mod_unique_pos _ _ q)]; lia.
Qed.

#[export] Hint Resolve js_bytes cu_range : nft.
#[export] Hint Rewrite js_app js_length : nft_rw.
