(* ===== verification/JsString.v ===== *)
(** * JavaScript string operations used by the page

    [String.prototype.indexOf] and [String.prototype.substring] (as
    [index.js] line 61 calls them), the truthiness test of [if (tokenURI)]
    (line 60), and decimal printing of unsigned integers as the template
    literals of lines 158 and 163 perform it.  Strings are lists of UTF-16
    code units ([jstring], see Prelude). *)

From Stdlib Require Import ZArith NArith String Ascii List Lia.
From Stdlib Require Import Bool DecimalN DecimalPos.
From S2P Require Import Prelude.
Import ListNotations.
Open Scope Z_scope.

Module JsString.

(** [true] when [p] is a prefix of [s]. *)
Fixpoint is_prefix (p s : jstring) : bool :=
  match p, s with
  | [], _ => true
  | a :: p', b :: s' => (a =? b) && is_prefix p' s'
  | _ :: _, [] => false
  end.

(** StringIndexOf(s, search, 0) of ECMA-262: the first position [k] at
    which [search] occurs in [s], counted from [k0], or -1. *)
Fixpoint index_of_from (s search : jstring) (k0 : Z) : Z :=
  if is_prefix search s then k0
  else match s with
       | [] => -1
       | _ :: t => index_of_from t search (k0 + 1)
       end.

Definition indexOf (s search : jstring) : Z := index_of_from s search 0.

(** [s.substring(start)]: the argument is clamped to [0, length s] and the
    end defaults to [length s]. *)
Definition substring (s : jstring) (start : Z) : jstring :=
  let len := Z.of_nat (length s) in
  let finalStart := Z.min (Z.max start 0) len in
  skipn (Z.to_nat finalStart) s.

(** ToBoolean of a value that is a string or [undefined]: [""] and
    [undefined] are falsy. *)
Definition truthy (o : option jstring) : bool :=
  match o with
  | Some (_ :: _) => true
  | _ => false
  end.

(** ** Decimal digits *)

Fixpoint cus_of_uint (d : Decimal.uint) : jstring :=
  match d with
  | Decimal.Nil => []
  | Decimal.D0 d => 48 :: cus_of_uint d
  | Decimal.D1 d => 49 :: cus_of_uint d
  | Decimal.D2 d => 50 :: cus_of_uint d
  | Decimal.D3 d => 51 :: cus_of_uint d
  | Decimal.D4 d => 52 :: cus_of_uint d
  | Decimal.D5 d => 53 :: cus_of_uint d
  | Decimal.D6 d => 54 :: cus_of_uint d
  | Decimal.D7 d => 55 :: cus_of_uint d
  | Decimal.D8 d => 56 :: cus_of_uint d
  | Decimal.D9 d => 57 :: cus_of_uint d
  end.

Definition is_digit (c : Z) : bool := (48 <=? c) && (c <=? 57).

(** The digits of a string of decimal digits, or [None] on any other code
    unit. *)
Fixpoint uint_of_cus (s : jstring) : option Decimal.uint :=
  match s with
  | [] => Some Decimal.Nil
  | c :: r =>
      match uint_of_cus r with
      | None => None
      | Some d =>
          if c =? 48 then Some (Decimal.D0 d)
          else if c =? 49 then Some (Decimal.D1 d)
          else if c =? 50 then Some (Decimal.D2 d)
          else if c =? 51 then Some (Decimal.D3 d)
          else if c =? 52 then Some (Decimal.D4 d)
          else if c =? 53 then Some (Decimal.D5 d)
          else if c =? 54 then Some (Decimal.D6 d)
          else if c =? 55 then Some (Decimal.D7 d)
          else if c =? 56 then Some (Decimal.D8 d)
          else if c =? 57 then Some (Decimal.D9 d)
          else None
      end
  end.

(** [String(n)] of a non-negative integer: its shortest decimal form. *)
Definition N_to_string (n : N) : jstring := cus_of_uint (N.to_uint n).

(** The value of a string of decimal digits ([""] reads as 0, as in the
    digit loop of BN.js, which ethers' BigNumber.from uses). *)
Definition N_of_digits (s : jstring) : option N :=
  match uint_of_cus s with
  | Some d => Some (N.of_uint d)
  | None => None
  end.

(** Template-literal interpolation [`${x}`] of a value that is an unsigned
    integer or [undefined]. *)
Definition template_N (o : option N) : jstring :=
  match o with
  | Some n => N_to_string n
  | None => js "undefined"
  end.

(** ** Lemmas *)

Lemma is_prefix_single c s :
  is_prefix [c] s = match s with [] => false | b :: _ => c =? b end.
Proof. destruct s; simpl; [reflexivity | now rewrite andb_true_r]. Qed.

Lemma index_of_from_absent c s k0 :
  ~ In c s -> index_of_from s [c] k0 = -1.
Proof.
  revert k0. induction s as [|b s IH]; intros k0 Hn; simpl; [reflexivity|].
  rewrite andb_true_r.
  destruct (Z.eqb_spec c b) as [->|Hne].
  - exfalso. apply Hn. now left.
  - apply IH. intros Hin. apply Hn. now right.
Qed.

Lemma index_of_from_split c p r k0 :
  ~ In c p -> index_of_from (p ++ c :: r) [c] k0 = k0 + Z.of_nat (length p).
Proof.
  revert k0. induction p as [|b p IH]; intros k0 Hn; simpl.
  - rewrite Z.eqb_refl. simpl. lia.
  - rewrite andb_true_r.
    destruct (Z.eqb_spec c b) as [->|Hne].
    + exfalso. apply Hn. now left.
    + rewrite IH by (intros Hin; apply Hn; now right). lia.
Qed.

(** The first comma of a string that contains one. *)
Lemma indexOf_split c p r :
  ~ In c p -> indexOf (p ++ c :: r) [c] = Z.of_nat (length p).
Proof. intros H. unfold indexOf. rewrite index_of_from_split; auto. Qed.

Lemma indexOf_absent c s : ~ In c s -> indexOf s [c] = -1.
Proof. apply index_of_from_absent. Qed.

Lemma substring_after_split c p r :
  substring (p ++ c :: r) (Z.of_nat (length p) + 1) = r.
Proof.
  unfold substring. rewrite length_app. simpl length.
  replace (Z.min (Z.max (Z.of_nat (length p) + 1) 0)
                 (Z.of_nat (length p + S (length r))))
    with (Z.of_nat (length (p ++ [c]))) by (rewrite length_app; simpl; lia).
  replace (p ++ c :: r) with ((p ++ [c]) ++ r) by (rewrite <- app_assoc; reflexivity).
  rewrite Nat2Z.id, skipn_app, skipn_all, Nat.sub_diag. reflexivity.
Qed.

Lemma substring_0 s : substring s 0 = s.
Proof.
  unfold substring. replace (Z.min (Z.max 0 0) (Z.of_nat (length s))) with 0 by lia.
  reflexivity.
Qed.

Lemma uint_of_cus_of_uint d : uint_of_cus (cus_of_uint d) = Some d.
Proof. induction d; simpl; rewrite ?IHd; reflexivity. Qed.

Lemma cus_of_uint_digits d : Forall (fun c => is_digit c = true) (cus_of_uint d).
Proof. induction d; simpl; constructor; auto. Qed.

Lemma N_of_digits_to_string n : N_of_digits (N_to_string n) = Some n.
Proof.
  unfold N_of_digits, N_to_string. rewrite uint_of_cus_of_uint.
  now rewrite DecimalN.Unsigned.of_to.
Qed.

Lemma cus_revapp d acc :
  cus_of_uint (Decimal.revapp d acc) = cus_of_uint (Decimal.revapp d Decimal.Nil) ++ cus_of_uint acc.
Proof.
  revert acc. induction d as [|d IH|d IH|d IH|d IH|d IH|d IH|d IH|d IH|d IH|d IH];
    intros acc; cbn [Decimal.revapp]; [reflexivity|..];
    rewrite IH, (IH (_ Decimal.Nil)); cbn [cus_of_uint]; now rewrite <- app_assoc.
Qed.

(** Ten times a positive integer prints as that integer and a [0]. *)
Lemma N_to_string_tenfold (p : positive) :
  N_to_string (10 * Npos p) = N_to_string (Npos p) ++ [48].
Proof.
  assert (E : forall n, N.to_uint n = Decimal.rev (DecimalPos.Unsigned.to_lu n))
    by (intros [|q]; reflexivity).
  unfold N_to_string. rewrite !E, DecimalPos.Unsigned.to_ldec_tenfold.
  unfold Decimal.rev. cbn [Decimal.revapp]. now rewrite cus_revapp.
Qed.

Lemma N_to_string_injective n m : N_to_string n = N_to_string m -> n = m.
Proof.
  intros H. apply (f_equal N_of_digits) in H.
  rewrite !N_of_digits_to_string in H. congruence.
Qed.

End JsString.

#[export] Hint Resolve JsString.cus_of_uint_digits : nft.
#[export] Hint Rewrite JsString.uint_of_cus_of_uint JsString.N_of_digits_to_string
  JsString.substring_0 : nft_rw.
