(* ===== verification/Base64.v ===== *)
(** * [window.atob]: the WHATWG forgiving-base64 decoder

    [index.js] line 61 decodes the payload of the token URI with
    [window.atob].  That function is the browser's, not this repository's:
    it is modelled from the HTML standard ("forgiving-base64 decode",
    steps 1 to 8), and an exception (InvalidCharacterError) is [None].
    The decoder's result is a "binary string": one code unit per byte.

    [b64_encode] is the encoder on the other side of the token URI (the
    contract's Base64 encoding, standard alphabet, '=' padding); it is not
    code of this repository and serves to state the round trip. *)

From Stdlib Require Import ZArith NArith String Ascii Bool List Lia.
From S2P Require Import Prelude.
Import ListNotations.
Open Scope Z_scope.

Module Base64.

(** ASCII whitespace: TAB, LF, FF, CR, SPACE. *)
Definition is_ascii_whitespace (c : Z) : bool :=
  (c =? 9) || (c =? 10) || (c =? 12) || (c =? 13) || (c =? 32).

Definition eq_sign : Z := 61.

(** The position of a code point in the base64 alphabet
    A-Z a-z 0-9 + /, or [None] when it is not in it. *)
Definition b64_index (c : Z) : option Z :=
  if (65 <=? c) && (c <=? 90) then Some (c - 65)
  else if (97 <=? c) && (c <=? 122) then Some (c - 71)
  else if (48 <=? c) && (c <=? 57) then Some (c + 4)
  else if c =? 43 then Some 62
  else if c =? 47 then Some 63
  else None.

Definition in_alphabet (c : Z) : bool :=
  match b64_index c with Some _ => true | None => false end.

(** Step 2: when the length is a multiple of 4, drop one or two trailing
    '='. *)
Definition strip_padding (s : jstring) : jstring :=
  if (length s mod 4 =? 0)%nat then
    match rev s with
    | c1 :: c2 :: r =>
        if c1 =? eq_sign then
          if c2 =? eq_sign then rev r else rev (c2 :: r)
        else s
    | [c1] => if c1 =? eq_sign then [] else s
    | [] => s
    end
  else s.

(** Three 8-bit big-endian numbers of a 24-bit buffer. *)
Definition bytes_of_24 (b : Z) : jstring :=
  [b / 65536; (b / 256) mod 256; b mod 256].

(** Step 6: append six bits per code point to the buffer; every 24 bits
    become three bytes.  Step 7: a 12-bit rest drops its last four bits
    and gives one byte, an 18-bit rest drops two and gives two bytes.
    [bits] counts the buffered bits (0, 6, 12 or 18). *)
Fixpoint decode_loop (buffer : Z) (bits : nat) (s : jstring) : jstring :=
  match s with
  | [] =>
      match bits with
      | 12%nat => [buffer / 16]
      | 18%nat => [(buffer / 4) / 256; (buffer / 4) mod 256]
      | _ => []
      end
  | c :: r =>
      let v := match b64_index c with Some v => v | None => 0 end in
      let buffer' := buffer * 64 + v in
      if (bits + 6 =? 24)%nat then bytes_of_24 buffer' ++ decode_loop 0 0 r
      else decode_loop buffer' (bits + 6) r
  end.

(** Forgiving-base64 decode, steps 1 to 8. *)
Definition forgiving_base64_decode (data : jstring) : option jstring :=
  let data1 := filter (fun c => negb (is_ascii_whitespace c)) data in
  let data2 := strip_padding data1 in
  if (length data2 mod 4 =? 1)%nat then None
  else if negb (forallb in_alphabet data2) then None
  else Some (decode_loop 0 0 data2).

(** [window.atob(data)]: the decoded bytes as a binary string, or an
    InvalidCharacterError ([None]). *)
Definition atob (data : jstring) : option jstring := forgiving_base64_decode data.

(** ** The encoder (standard alphabet, with padding) *)

Definition b64_char (v : Z) : Z :=
  if v <? 26 then 65 + v
  else if v <? 52 then 71 + v
  else if v <? 62 then v - 4
  else if v =? 62 then 43 else 47.

Definition sextets (n : Z) : list Z :=
  [n / 262144; (n / 4096) mod 64; (n / 64) mod 64; n mod 64].

(** Without padding: 4 characters per 3 bytes, 2 or 3 for a final 1 or 2
    bytes. *)
Fixpoint encode_unpadded (bytes : list Z) : jstring :=
  match bytes with
  | a :: b :: c :: r =>
      map b64_char (sextets (a * 65536 + b * 256 + c)) ++ encode_unpadded r
  | [a; b] => map b64_char (firstn 3 (sextets (a * 65536 + b * 256)))
  | [a] => map b64_char (firstn 2 (sextets (a * 65536)))
  | [] => []
  end.

Definition b64_encode (bytes : list Z) : jstring :=
  let u := encode_unpadded bytes in
  u ++ repeat eq_sign ((4 - length u mod 4) mod 4).

(** ** Lemmas on the alphabet *)

Lemma b64_index_char v : 0 <= v < 64 -> b64_index (b64_char v) = Some v.
Proof.
  intros Hv. unfold b64_char. zbool_cases; unfold b64_index; zbool_cases;
    try lia; f_equal; lia.
Qed.

Lemma in_alphabet_char v : 0 <= v < 64 -> in_alphabet (b64_char v) = true.
Proof. intros Hv. unfold in_alphabet. now rewrite b64_index_char. Qed.

Lemma in_alphabet_not_ws c : in_alphabet c = true -> is_ascii_whitespace c = false.
Proof.
  intros H. destruct (is_ascii_whitespace c) eqn:E; [|reflexivity].
  unfold is_ascii_whitespace in E. rewrite !Bool.orb_true_iff, !Z.eqb_eq in E.
  destruct E as [[[[->| ->]| ->]| ->]| ->]; discriminate H.
Qed.

Lemma in_alphabet_not_eq c : in_alphabet c = true -> (c =? eq_sign) = false.
Proof.
  intros H. destruct (Z.eqb_spec c eq_sign) as [->|]; [discriminate H | reflexivity].
Qed.

(** ** Arithmetic of the 24-bit groups *)

Lemma sextets_join2 n : n / 262144 * 64 + (n / 4096) mod 64 = n / 4096.
Proof. pose proof (div_split n 4096 64). change (4096 * 64) with 262144 in *. lia. Qed.

Lemma sextets_join3 n :
  (n / 262144 * 64 + (n / 4096) mod 64) * 64 + (n / 64) mod 64 = n / 64.
Proof. rewrite sextets_join2. pose proof (div_split n 64 64). change (64 * 64) with 4096 in *. lia. Qed.

Lemma sextets_join4 n :
  ((n / 262144 * 64 + (n / 4096) mod 64) * 64 + (n / 64) mod 64) * 64 + n mod 64 = n.
Proof. rewrite sextets_join3. pose proof (Z.div_mod n 64). lia. Qed.

Lemma sextets_range n :
  0 <= n < 16777216 -> Forall (fun v => 0 <= v < 64) (sextets n).
Proof.
  intros Hn. unfold sextets.
  repeat constructor; try apply Z.mod_pos_bound; try lia;
    [apply Z.div_pos | apply Z.div_lt_upper_bound]; lia.
Qed.

Lemma bytes_of_24_join a b c :
  is_byte a -> is_byte b -> is_byte c ->
  bytes_of_24 (a * 65536 + b * 256 + c) = [a; b; c].
Proof.
  unfold is_byte, bytes_of_24. intros Ha Hb Hc.
  destruct (divmod_eq (a * 65536 + b * 256 + c) 65536 a (b * 256 + c)) as [-> _]; [lia|lia|].
  destruct (divmod_eq (a * 65536 + b * 256 + c) 256 (a * 256 + b) c) as [-> ->]; [lia|lia|].
  destruct (divmod_eq (a * 256 + b) 256 a b) as [_ ->]; [lia|lia|]. reflexivity.
Qed.

(** ** The decoding loop inverts the encoder *)

Lemma decode_group n r :
  0 <= n < 16777216 ->
  decode_loop 0 0 (map b64_char (sextets n) ++ r) = bytes_of_24 n ++ decode_loop 0 0 r.
Proof.
  intros Hn. pose proof (sextets_range n Hn) as Hs. unfold sextets in *.
  repeat match goal with H : Forall _ (_ :: _) |- _ => inv H end.
  simpl. rewrite !b64_index_char by assumption. simpl.
  now rewrite sextets_join4.
Qed.

Lemma decode_tail2 a :
  is_byte a ->
  decode_loop 0 0 (map b64_char (firstn 2 (sextets (a * 65536)))) = [a].
Proof.
  unfold is_byte. intros Ha.
  pose proof (sextets_range (a * 65536) ltac:(lia)) as Hs. unfold sextets in *.
  repeat match goal with H : Forall _ (_ :: _) |- _ => inv H end.
  simpl. rewrite !b64_index_char by assumption. simpl.
  rewrite sextets_join2. f_equal.
  destruct (divmod_eq (a * 65536) 4096 (a * 16) 0) as [-> _]; [lia|lia|].
  destruct (divmod_eq (a * 16) 16 a 0) as [-> _]; [lia|lia|]. reflexivity.
Qed.

Lemma decode_tail3 a b :
  is_byte a -> is_byte b ->
  decode_loop 0 0 (map b64_char (firstn 3 (sextets (a * 65536 + b * 256)))) = [a; b].
Proof.
  unfold is_byte. intros Ha Hb.
  pose proof (sextets_range (a * 65536 + b * 256) ltac:(lia)) as Hs. unfold sextets in *.
  repeat match goal with H : Forall _ (_ :: _) |- _ => inv H end.
  simpl. rewrite !b64_index_char by assumption. simpl.
  rewrite sextets_join3.
  destruct (divmod_eq (a * 65536 + b * 256) 64 (a * 1024 + b * 4) 0) as [-> _]; [lia|lia|].
  destruct (divmod_eq (a * 1024 + b * 4) 4 (a * 256 + b) 0) as [-> _]; [lia|lia|].
  destruct (divmod_eq (a * 256 + b) 256 a b) as [-> ->]; [lia|lia|]. reflexivity.
Qed.

(** Induction on a list by steps of three, as the encoder walks it. *)
Lemma list_ind3 {A} (P : list A -> Prop) :
  P [] -> (forall a, P [a]) -> (forall a b, P [a; b]) ->
  (forall a b c r, P r -> P (a :: b :: c :: r)) -> forall l, P l.
Proof.
  intros H0 H1 H2 H3 l. remember (length l) as n eqn:Hn.
  revert l Hn. induction n as [n IH] using lt_wf_ind. intros l ->.
  destruct l as [|a [|b [|c r]]]; auto. apply H3. apply (IH (length r)); simpl; auto.
Qed.

Lemma decode_encode_unpadded bytes :
  Forall is_byte bytes -> decode_loop 0 0 (encode_unpadded bytes) = bytes.
Proof.
  induction bytes as [|a|a b|a b c r IH] using list_ind3; intros Hb;
    repeat match goal with H : Forall _ (_ :: _) |- _ => inv H end.
  - reflexivity.
  - now apply decode_tail2.
  - now apply decode_tail3.
  - unfold is_byte in *. cbn [encode_unpadded].
    rewrite decode_group by lia. rewrite bytes_of_24_join by assumption.
    simpl. now rewrite IH.
Qed.

Lemma encode_unpadded_alphabet bytes :
  Forall is_byte bytes -> Forall (fun c => in_alphabet c = true) (encode_unpadded bytes).
Proof.
  assert (Hg : forall n k, 0 <= n < 16777216 ->
            Forall (fun c => in_alphabet c = true) (map b64_char (firstn k (sextets n)))).
  { intros n k Hn. apply Forall_map. eapply Forall_impl with (P := fun v => 0 <= v < 64).
    - intros v Hv. now apply in_alphabet_char.
    - pose proof (sextets_range n Hn) as Hs. rewrite <- (firstn_skipn k) in Hs.
      apply Forall_app in Hs. apply Hs. }
  induction bytes as [|a|a b|a b c r IH] using list_ind3; intros Hb;
    repeat match goal with H : Forall _ (_ :: _) |- _ => inv H end;
    unfold is_byte in *; cbn [encode_unpadded].
  - constructor.
  - apply Hg. lia.
  - apply Hg. lia.
  - apply Forall_app. split; [|now apply IH].
    rewrite <- (firstn_all (sextets _)). apply Hg. lia.
Qed.

Lemma encode_unpadded_length bytes : (length (encode_unpadded bytes) mod 4 <> 1)%nat.
Proof.
  induction bytes as [|a|a b|a b c r IH] using list_ind3; cbn [encode_unpadded];
    try (simpl; lia).
  rewrite length_app, length_map. unfold sextets. cbn [length].
  replace (4 + length (encode_unpadded r))%nat with
    (length (encode_unpadded r) + 1 * 4)%nat by lia.
  now rewrite Nat.Div0.mod_add.
Qed.

Lemma filter_whitespace_id l :
  Forall (fun c => is_ascii_whitespace c = false) l ->
  filter (fun c => negb (is_ascii_whitespace c)) l = l.
Proof.
  induction l as [|c l IH]; intros H; [reflexivity|]. inv H.
  simpl. rewrite H2. simpl. now rewrite IH.
Qed.

Lemma strip_padding_encoded u :
  Forall (fun c => in_alphabet c = true) u -> (length u mod 4 <> 1)%nat ->
  strip_padding (u ++ repeat eq_sign ((4 - length u mod 4) mod 4)) = u.
Proof.
  intros Hu Hlen. unfold strip_padding.
  assert (Hlast : forall c r, rev u = c :: r -> (c =? eq_sign) = false).
  { intros c r Hr. apply in_alphabet_not_eq.
    assert (Hin : In c (rev u)) by (rewrite Hr; now left).
    apply in_rev in Hin. rewrite Forall_forall in Hu. now apply Hu. }
  pose proof (Nat.mod_upper_bound (length u) 4 ltac:(lia)) as Hm.
  rewrite length_app, repeat_length.
  destruct (length u mod 4)%nat as [|[|[|[|m]]]] eqn:E; try lia;
    rewrite Nat.Div0.add_mod, E; cbn -[rev]; rewrite ?app_nil_r, ?rev_app_distr;
    cbn [rev app].
  - destruct (rev u) as [|c1 [|c2 r]] eqn:Er; try reflexivity;
      rewrite (Hlast c1 _ eq_refl); reflexivity.
  - rewrite Z.eqb_refl. apply rev_involutive.
  - rewrite Z.eqb_refl.
    destruct (rev u) as [|c2 r] eqn:Er.
    + apply (f_equal (@length Z)) in Er. rewrite length_rev in Er.
      rewrite Er in E. discriminate.
    + rewrite (Hlast c2 r eq_refl). change (rev r ++ [c2]) with (rev (c2 :: r)).
      rewrite <- Er. apply rev_involutive.
Qed.

Lemma decode_after_encode bytes :
  Forall is_byte bytes -> atob (b64_encode bytes) = Some bytes.
Proof.
  intros Hb. unfold atob, forgiving_base64_decode, b64_encode.
  pose proof (encode_unpadded_alphabet bytes Hb) as Ha.
  pose proof (encode_unpadded_length bytes) as Hl.
  rewrite filter_whitespace_id.
  2:{ apply Forall_app. split.
      - eapply Forall_impl; [|exact Ha]. intros c. apply in_alphabet_not_ws.
      - apply Forall_forall. intros c Hc. apply repeat_spec in Hc. now subst. }
  rewrite strip_padding_encoded by assumption.
  apply Nat.eqb_neq in Hl. rewrite Hl.
  assert (Hall : forallb in_alphabet (encode_unpadded bytes) = true)
    by (apply forallb_forall; now apply Forall_forall).
  rewrite Hall. simpl. now rewrite decode_encode_unpadded.
Qed.

(** The encoding holds no comma. *)
Lemma b64_encode_no_comma bytes : Forall is_byte bytes -> ~ In 44 (b64_encode bytes).
Proof.
  intros Hb Hin. unfold b64_encode in Hin. apply in_app_or in Hin as [Hin|Hin].
  - pose proof (proj1 (Forall_forall _ _) (encode_unpadded_alphabet bytes Hb) 44 Hin) as H.
    discriminate H.
  - apply repeat_spec in Hin. discriminate Hin.
Qed.

(** ** Errors *)

(** Removing the padding removes only '='. *)
Lemma strip_padding_keeps s c : In c s -> c <> eq_sign -> In c (strip_padding s).
Proof.
  intros Hin Hc. unfold strip_padding. destruct (length s mod 4 =? 0)%nat; [|exact Hin].
  apply in_rev in Hin. destruct (rev s) as [|c1 [|c2 r]] eqn:E.
  - destruct Hin.
  - destruct Hin as [->|[]]. destruct (Z.eqb_spec c eq_sign); [congruence|].
    rewrite <- (rev_involutive s), E. now left.
  - destruct (Z.eqb_spec c1 eq_sign) as [H1|H1]; [destruct (Z.eqb_spec c2 eq_sign) as [H2|H2]|].
    + rewrite <- in_rev. destruct Hin as [->|[->|Hin]]; [congruence|congruence|exact Hin].
    + rewrite <- in_rev. destruct Hin as [->|[->|Hin]]; [congruence|now left|now right].
    + rewrite <- (rev_involutive s), E, <- in_rev. exact Hin.
Qed.

(** [atob] throws on a code point that is neither in the alphabet, nor
    ASCII whitespace, nor '='. *)
Lemma atob_invalid_char data c :
  In c data -> is_ascii_whitespace c = false -> c <> eq_sign -> in_alphabet c = false ->
  atob data = None.
Proof.
  intros Hin Hws Heq Hal. unfold atob, forgiving_base64_decode.
  destruct (length _ mod 4 =? 1)%nat; [reflexivity|].
  destruct (forallb in_alphabet _) eqn:F; [|reflexivity].
  rewrite forallb_forall in F.
  enough (in_alphabet c = true) by congruence.
  apply F, strip_padding_keeps; [|exact Heq].
  apply filter_In. rewrite Hws. auto.
Qed.

End Base64.
