(* ===== verification/Base64Ref.v ===== *)
(** * A bit-level reference for the base64 decoder

    [Base64.decode_loop] is the WHATWG buffer algorithm: it accumulates
    six bits per character in an integer and emits three bytes every 24
    bits, then one or two bytes from a 12- or 18-bit rest.  The reference
    here says what that computes without the buffer: write each
    character's six bits, concatenate them, and read the bit string back
    eight bits at a time, dropping an incomplete last byte
    ([decode_ref]).  [decode_loop_ref] proves the two equal on every
    input, and [atob_ref] is [window.atob] with the reference in place of
    the loop.  Bits are lists of booleans, most significant first; an
    integer's [w] low bits are [bits_of w]. *)

From Stdlib Require Import ZArith NArith String Bool List Lia.
From S2P Require Import Prelude Base64.
Import ListNotations.
Open Scope Z_scope.

Module Base64Ref.

Import Base64.

(** The [w] low bits of [v], most significant first. *)
Fixpoint bits_of (w : nat) (v : Z) : list bool :=
  match w with
  | O => []
  | S w' => Z.odd (v / 2 ^ Z.of_nat w') :: bits_of w' v
  end.

(** The number a bit string denotes. *)
Fixpoint value (bs : list bool) : Z :=
  match bs with
  | [] => 0
  | b :: r => (if b then 2 ^ Z.of_nat (length r) else 0) + value r
  end.

(** Read a bit string eight bits at a time; fewer than eight are dropped. *)
Fixpoint bytes_of_bits (bs : list bool) : list Z :=
  match bs with
  | b0 :: b1 :: b2 :: b3 :: b4 :: b5 :: b6 :: b7 :: r =>
      value [b0; b1; b2; b3; b4; b5; b6; b7] :: bytes_of_bits r
  | _ => []
  end.

(** The six bits a character stands for (0 outside the alphabet, as in
    [decode_loop]). *)
Definition sextet (c : Z) : Z := match b64_index c with Some v => v | None => 0 end.

Definition decode_ref (s : jstring) : jstring :=
  bytes_of_bits (flat_map (fun c => bits_of 6 (sextet c)) s).

(** Steps 1 and 2 of forgiving-base64 decode: whitespace removed, then
    one or two trailing [=]. *)
Definition stripped (data : jstring) : jstring :=
  strip_padding (filter (fun c => negb (is_ascii_whitespace c)) data).

(** [window.atob] with the reference decoder. *)
Definition atob_ref (data : jstring) : option jstring :=
  let data2 := stripped data in
  if (length data2 mod 4 =? 1)%nat then None
  else if negb (forallb in_alphabet data2) then None
  else Some (decode_ref data2).

(** ** Bit strings *)

Lemma length_bits_of w v : length (bits_of w v) = w.
Proof. induction w; cbn; congruence. Qed.

(** One more bit: the remainder by [2 * p] is the next bit times [p]
    plus the remainder by [p]. *)
Lemma mod_double v p : 0 < p -> v mod (p * 2) = p * ((v / p) mod 2) + v mod p.
Proof.
  intros Hp.
  pose proof (Z.div_mod v p ltac:(lia)) as E1. pose proof (Z.mod_pos_bound v p Hp).
  pose proof (Z.div_mod (v / p) 2 ltac:(lia)) as E2. pose proof (Z.mod_pos_bound (v / p) 2 ltac:(lia)).
  apply (divmod_eq v (p * 2) ((v / p) / 2)); [nia|]. nia.
Qed.

Lemma value_bits_of w v : value (bits_of w v) = v mod 2 ^ Z.of_nat w.
Proof.
  induction w as [|w IH]; cbn [bits_of value]; [now rewrite Z.mod_1_r|].
  rewrite length_bits_of, IH, Nat2Z.inj_succ, Z.pow_succ_r by lia.
  rewrite (Z.mul_comm 2), mod_double by (apply Z.pow_pos_nonneg; lia).
  rewrite Zmod_odd. destruct (Z.odd _); lia.
Qed.

(** Splitting the low [a + b] bits into the high [a] and the low [b]. *)
Lemma bits_of_add a b v :
  bits_of (a + b) v = bits_of a (v / 2 ^ Z.of_nat b) ++ bits_of b v.
Proof.
  induction a as [|a IH]; cbn [bits_of app Nat.add]; [reflexivity|].
  rewrite IH, Z.div_div by (try apply Z.pow_pos_nonneg; lia).
  rewrite <- Z.pow_add_r by lia. now rewrite Nat2Z.inj_add, Z.add_comm.
Qed.

(** The low [b] bits of [x * 2^b + y] are those of [y]. *)
Lemma bits_of_mul_add b x y :
  bits_of b (x * 2 ^ Z.of_nat b + y) = bits_of b y.
Proof.
  revert x. induction b as [|b IH]; intros x; cbn [bits_of]; [reflexivity|]. f_equal.
  - rewrite Nat2Z.inj_succ, Z.pow_succ_r by lia.
    replace (x * (2 * 2 ^ Z.of_nat b) + y) with ((2 * x) * 2 ^ Z.of_nat b + y) by ring.
    rewrite Z.div_add_l by (apply Z.pow_nonzero; lia).
    now rewrite Z.odd_add, Z.odd_mul.
  - rewrite Nat2Z.inj_succ, Z.pow_succ_r by lia.
    replace (x * (2 * 2 ^ Z.of_nat b) + y) with ((2 * x) * 2 ^ Z.of_nat b + y) by ring.
    apply IH.
Qed.

(** Concatenating bit strings is shifting and adding. *)
Lemma bits_of_concat a b x y :
  0 <= y < 2 ^ Z.of_nat b ->
  bits_of a x ++ bits_of b y = bits_of (a + b) (x * 2 ^ Z.of_nat b + y).
Proof.
  intros Hy. rewrite bits_of_add, bits_of_mul_add.
  rewrite Z.div_add_l by (apply Z.pow_nonzero; lia).
  now rewrite Z.div_small, Z.add_0_r.
Qed.

Lemma bytes_of_bits_byte x r :
  bytes_of_bits (bits_of 8 x ++ r) = x mod 256 :: bytes_of_bits r.
Proof.
  change (bits_of 8 x ++ r) with
    (Z.odd (x / 2 ^ 7) :: Z.odd (x / 2 ^ 6) :: Z.odd (x / 2 ^ 5) :: Z.odd (x / 2 ^ 4) ::
     Z.odd (x / 2 ^ 3) :: Z.odd (x / 2 ^ 2) :: Z.odd (x / 2 ^ 1) :: Z.odd (x / 2 ^ 0) :: r).
  cbn [bytes_of_bits]. f_equal.
  exact (value_bits_of 8 x).
Qed.

Lemma bytes_of_bits_short bs : (length bs < 8)%nat -> bytes_of_bits bs = [].
Proof.
  intros H. do 8 (destruct bs as [|? bs]; [reflexivity|]). cbn in H. lia.
Qed.

Lemma sextet_range c : 0 <= sextet c < 64.
Proof.
  unfold sextet, b64_index.
  destruct ((65 <=? c) && (c <=? 90)) eqn:E1; [apply andb_prop in E1; rewrite !Z.leb_le in E1; lia|].
  destruct ((97 <=? c) && (c <=? 122)) eqn:E2; [apply andb_prop in E2; rewrite !Z.leb_le in E2; lia|].
  destruct ((48 <=? c) && (c <=? 57)) eqn:E3; [apply andb_prop in E3; rewrite !Z.leb_le in E3; lia|].
  destruct (c =? 43); [lia|]. destruct (c =? 47); lia.
Qed.

(** ** The buffer algorithm is the reference *)

Lemma bytes_of_bits_24 b r :
  0 <= b < 2 ^ 24 -> bytes_of_bits (bits_of 24 b ++ r) = bytes_of_24 b ++ bytes_of_bits r.
Proof.
  intros Hb. change 24%nat with (8 + (8 + 8))%nat.
  rewrite !bits_of_add, <- !app_assoc, !bytes_of_bits_byte.
  unfold bytes_of_24. cbn [Z.of_nat app Nat.add].
  rewrite (Z.mod_small (b / _)); [reflexivity|].
  split; [apply Z.div_pos; lia | apply Z.div_lt_upper_bound; lia].
Qed.

Lemma decode_loop_bits s : forall buffer bits,
  (bits = 0 \/ bits = 6 \/ bits = 12 \/ bits = 18)%nat ->
  0 <= buffer < 2 ^ Z.of_nat bits ->
  decode_loop buffer bits s =
  bytes_of_bits (bits_of bits buffer ++ flat_map (fun c => bits_of 6 (sextet c)) s).
Proof.
  induction s as [|c r IH]; intros buffer bits Hb Hr.
  - cbn [decode_loop flat_map]. rewrite app_nil_r.
    destruct Hb as [-> | [-> | [-> | ->]]].
    + reflexivity.
    + now rewrite bytes_of_bits_short by (rewrite length_bits_of; lia).
    + change (2 ^ Z.of_nat 12) with 4096 in Hr. change 12%nat with (8 + 4)%nat. rewrite bits_of_add.
      rewrite bytes_of_bits_byte, bytes_of_bits_short by (rewrite length_bits_of; lia).
      change (2 ^ Z.of_nat 4) with 16. rewrite Z.mod_small; [reflexivity|].
      split; [apply Z.div_pos; lia | apply Z.div_lt_upper_bound; lia].
    + change (2 ^ Z.of_nat 18) with 262144 in Hr. change 18%nat with (8 + (8 + 2))%nat. rewrite !bits_of_add.
      rewrite !bytes_of_bits_byte, bytes_of_bits_short
        by (rewrite length_bits_of; lia).
      change (2 ^ Z.of_nat (8 + 2)) with (4 * 256). change (2 ^ Z.of_nat 2) with 4.
      rewrite Z.div_div by lia. rewrite (Z.mod_small (buffer / (4 * 256))); [reflexivity|].
      split; [apply Z.div_pos; lia | apply Z.div_lt_upper_bound; lia].
  - cbn [decode_loop flat_map].
    change (match b64_index c with Some v => v | None => 0 end) with (sextet c).
    pose proof (sextet_range c) as Hc.
    rewrite app_assoc, (bits_of_concat bits 6 buffer (sextet c)) by (cbn; lia).
    assert (Hr' : 0 <= buffer * 2 ^ Z.of_nat 6 + sextet c < 2 ^ Z.of_nat (bits + 6)).
    { rewrite Nat2Z.inj_add, Z.pow_add_r by lia. cbn [Z.of_nat] in *. nia. }
    change (2 ^ Z.of_nat 6) with 64 in *.
    destruct (Nat.eqb_spec (bits + 6) 24) as [E|E].
    + rewrite E in Hr' |- *. cbn [Z.of_nat] in Hr'.
      rewrite bytes_of_bits_24 by exact Hr'. f_equal.
      apply (IH 0 0%nat); [now left | cbn; lia].
    + apply IH; [lia | exact Hr'].
Qed.

(** The loop of [atob] computes the reference on every input. *)
Lemma decode_loop_ref s : decode_loop 0 0 s = decode_ref s.
Proof. apply (decode_loop_bits s 0 0); [now left | cbn; lia]. Qed.

Lemma atob_eq_ref data : atob data = atob_ref data.
Proof.
  unfold atob, forgiving_base64_decode, atob_ref. now rewrite decode_loop_ref.
Qed.

(** ** Bounds of the output *)

Lemma value_range bs : 0 <= value bs < 2 ^ Z.of_nat (length bs).
Proof.
  induction bs as [|b r IH]; cbn [value length]; [cbn; lia|].
  rewrite Nat2Z.inj_succ, Z.pow_succ_r by lia.
  pose proof (Z.pow_pos_nonneg 2 (Z.of_nat (length r)) ltac:(lia) ltac:(lia)).
  destruct b; lia.
Qed.

Lemma bytes_of_bits_bytes bs : Forall is_byte (bytes_of_bits bs).
Proof.
  induction bs as [bs IH] using (induction_ltof1 _ (@length bool)).
  unfold ltof in IH.
  do 8 (destruct bs as [|? bs]; [constructor|]). cbn [bytes_of_bits].
  constructor.
  - pose proof (value_range [b; b0; b1; b2; b3; b4; b5; b6]) as Hv.
    replace (2 ^ _) with 256 in Hv by reflexivity. unfold is_byte. lia.
  - apply IH. cbn. lia.
Qed.

Lemma length_bytes_of_bits bs : length (bytes_of_bits bs) = (length bs / 8)%nat.
Proof.
  induction bs as [bs IH] using (induction_ltof1 _ (@length bool)).
  unfold ltof in IH.
  do 8 (destruct bs as [|? bs]; [reflexivity|]). cbn [bytes_of_bits length].
  rewrite IH by (cbn; lia).
  replace (S (S (S (S (S (S (S (S (length bs))))))))) with (length bs + 1 * 8)%nat by lia.
  rewrite Nat.div_add by lia. lia.
Qed.

Lemma length_flat_map_bits s :
  length (flat_map (fun c => bits_of 6 (sextet c)) s) = (6 * length s)%nat.
Proof.
  induction s as [|c r IH]; cbn [flat_map length]; [reflexivity|].
  rewrite length_app, length_bits_of, IH. lia.
Qed.

(** Three bytes per four characters, one or two for a rest of two or
    three characters, every one of them below 256. *)
Lemma decode_ref_bounds s :
  Forall is_byte (decode_ref s) /\ length (decode_ref s) = (3 * length s / 4)%nat.
Proof.
  unfold decode_ref. split; [apply bytes_of_bits_bytes|].
  rewrite length_bytes_of_bits, length_flat_map_bits.
  replace (6 * length s)%nat with (3 * length s * 2)%nat by lia.
  replace 8%nat with (2 * 4)%nat by reflexivity.
  rewrite <- Nat.Div0.div_div. now rewrite Nat.div_mul by lia.
Qed.

End Base64Ref.
