(* ===== verification/Json.v ===== *)
(** * [JSON.parse] and property access on its result

    [index.js] line 61 passes the decoded token URI to [JSON.parse] and
    line 153-154 read [.name] and [.image] of the result.  [JSON.parse] is
    the JavaScript engine's: it is modelled from ECMA-262 (JSON.parse) and
    the JSON grammar of ECMA-404, on strings of UTF-16 code units; a
    SyntaxError is [None].

    Values are [jvalue].  A number keeps its exact decimal value
    (sign, digits, exponent); the double [JSON.parse] makes of it is
    [JsonNumber.to_double] of that decimal, and the page sees a number
    only through it (React prints [NumberToString.to_string] of it, see
    [ModalText]).  An object keeps its members in
    source order, duplicates included; [get_prop] reads the last binding of
    a key, which is the value [JSON.parse] leaves in the object.

    The parser is a recursive descent with fuel; [json_parse] gives it
    enough fuel for any input (see [parse_value_fuel] below). *)

From Stdlib Require Import ZArith NArith String Ascii Bool List Lia.
From S2P Require Import Prelude JsString.
Import ListNotations.
Open Scope Z_scope.

Module Json.

(** ** Values *)

Record jnumber := mk_jnumber {
  num_neg : bool;        (** a leading '-' *)
  num_mant : N;          (** the digits of the integer and fraction parts *)
  num_exp : Z            (** the value is mant * 10 ^ exp *)
}.

Inductive jvalue :=
| JNull
| JBool (b : bool)
| JNumber (n : jnumber)
| JString (s : jstring)
| JArray (l : list jvalue)
| JObject (members : list (jstring * jvalue)).

(** ** Lexical classes (ECMA-404) *)

Definition c_quote := 34.     (* double quote *)
Definition c_backslash := 92. (* backslash *)
Definition c_comma := 44.
Definition c_colon := 58.
Definition c_lbrace := 123.
Definition c_rbrace := 125.
Definition c_lbracket := 91.
Definition c_rbracket := 93.
Definition c_minus := 45.
Definition c_plus := 43.
Definition c_dot := 46.

(** JSON whitespace: TAB, LF, CR, SPACE. *)
Definition is_json_ws (c : Z) : bool := (c =? 9) || (c =? 10) || (c =? 13) || (c =? 32).

Fixpoint skip_ws (s : jstring) : jstring :=
  match s with
  | c :: r => if is_json_ws c then skip_ws r else s
  | [] => []
  end.

Definition hex_value (c : Z) : option Z :=
  if (48 <=? c) && (c <=? 57) then Some (c - 48)
  else if (65 <=? c) && (c <=? 70) then Some (c - 55)
  else if (97 <=? c) && (c <=? 102) then Some (c - 87)
  else None.

Definition hex4 (h1 h2 h3 h4 : Z) : option Z :=
  match hex_value h1, hex_value h2, hex_value h3, hex_value h4 with
  | Some a, Some b, Some c, Some d => Some (((a * 16 + b) * 16 + c) * 16 + d)
  | _, _, _, _ => None
  end.

(** The code unit a one-character escape [\e] stands for. *)
Definition simple_escape (e : Z) : option Z :=
  if e =? 34 then Some 34
  else if e =? 92 then Some 92
  else if e =? 47 then Some 47
  else if e =? 98 then Some 8
  else if e =? 102 then Some 12
  else if e =? 110 then Some 10
  else if e =? 114 then Some 13
  else if e =? 116 then Some 9
  else None.

(** The characters of a string literal after its opening quote, up to and
    excluding the closing quote; the rest of the input follows. *)
Fixpoint parse_chars (s : jstring) : option (jstring * jstring) :=
  match s with
  | [] => None
  | c :: r =>
      if c =? c_quote then Some ([], r)
      else if c =? c_backslash then
        match r with
        | 117 :: h1 :: h2 :: h3 :: h4 :: r' =>
            match hex4 h1 h2 h3 h4, parse_chars r' with
            | Some u, Some (cs, rest) => Some (u :: cs, rest)
            | _, _ => None
            end
        | e :: r' =>
            match simple_escape e, parse_chars r' with
            | Some u, Some (cs, rest) => Some (u :: cs, rest)
            | _, _ => None
            end
        | [] => None
        end
      else if c <? 32 then None
      else match parse_chars r with
           | Some (cs, rest) => Some (c :: cs, rest)
           | None => None
           end
  end.

(** The longest prefix of decimal digits. *)
Fixpoint span_digits (s : jstring) : jstring * jstring :=
  match s with
  | c :: r =>
      if JsString.is_digit c then
        let '(ds, rest) := span_digits r in (c :: ds, rest)
      else ([], s)
  | [] => ([], [])
  end.

Definition digits_value (ds : jstring) : N :=
  match JsString.N_of_digits ds with Some n => n | None => 0%N end.

(** int = '0' | [1-9] [0-9]* *)
Definition parse_int (s : jstring) : option (jstring * jstring) :=
  match s with
  | c :: r =>
      if c =? 48 then Some ([c], r)
      else if JsString.is_digit c then
        let '(ds, rest) := span_digits r in Some (c :: ds, rest)
      else None
  | [] => None
  end.

(** frac = '.' [0-9]+, optional. *)
Definition parse_frac (s : jstring) : option (jstring * jstring) :=
  match s with
  | c :: r =>
      if c =? c_dot then
        match span_digits r with
        | ([], _) => None
        | (ds, rest) => Some (ds, rest)
        end
      else Some ([], s)
  | [] => Some ([], [])
  end.

(** exp = ('e' | 'E') ('+' | '-')? [0-9]+, optional. *)
Definition parse_exp (s : jstring) : option (Z * jstring) :=
  match s with
  | c :: r =>
      if (c =? 101) || (c =? 69) then
        let '(neg, r1) :=
          match r with
          | d :: r' => if d =? c_minus then (true, r')
                       else if d =? c_plus then (false, r') else (false, r)
          | [] => (false, r)
          end in
        match span_digits r1 with
        | ([], _) => None
        | (ds, rest) =>
            let e := Z.of_N (digits_value ds) in
            Some (if neg then - e else e, rest)
        end
      else Some (0, s)
  | [] => Some (0, [])
  end.

Definition parse_number (s : jstring) : option (jnumber * jstring) :=
  let '(neg, s1) :=
    match s with
    | c :: r => if c =? c_minus then (true, r) else (false, s)
    | [] => (false, s)
    end in
  match parse_int s1 with
  | None => None
  | Some (ids, s2) =>
      match parse_frac s2 with
      | None => None
      | Some (fds, s3) =>
          match parse_exp s3 with
          | None => None
          | Some (e, s4) =>
              Some (mk_jnumber neg (digits_value (ids ++ fds))
                      (e - Z.of_nat (length fds)), s4)
          end
      end
  end.

(** A keyword [true], [false] or [null]. *)
Definition parse_keyword (kw : jstring) (v : jvalue) (s : jstring) :
  option (jvalue * jstring) :=
  if JsString.is_prefix kw s then Some (v, skipn (length kw) s) else None.

(** ** The recursive descent

    [parse_value] reads one value at the start of [s] (after whitespace);
    [parse_elements] the elements of an array after its '[', and
    [parse_members] the members of an object after its '{'.  Each call
    spends one unit of fuel. *)

Fixpoint parse_value (fuel : nat) (s : jstring) {struct fuel} : option (jvalue * jstring) :=
  match fuel with
  | O => None
  | S f =>
      match skip_ws s with
      | [] => None
      | c :: r =>
          if c =? c_lbrace then
            match skip_ws r with
            | c' :: r' => if c' =? c_rbrace then Some (JObject [], r')
                          else match parse_members f (c' :: r') with
                               | Some (ms, rest) => Some (JObject ms, rest)
                               | None => None
                               end
            | [] => None
            end
          else if c =? c_lbracket then
            match skip_ws r with
            | c' :: r' => if c' =? c_rbracket then Some (JArray [], r')
                          else match parse_elements f (c' :: r') with
                               | Some (vs, rest) => Some (JArray vs, rest)
                               | None => None
                               end
            | [] => None
            end
          else if c =? c_quote then
            match parse_chars r with
            | Some (cs, rest) => Some (JString cs, rest)
            | None => None
            end
          else if c =? 116 then parse_keyword (js "true") (JBool true) (c :: r)
          else if c =? 102 then parse_keyword (js "false") (JBool false) (c :: r)
          else if c =? 110 then parse_keyword (js "null") JNull (c :: r)
          else match parse_number (c :: r) with
               | Some (n, rest) => Some (JNumber n, rest)
               | None => None
               end
      end
  end

with parse_elements (fuel : nat) (s : jstring) {struct fuel} :
  option (list jvalue * jstring) :=
  match fuel with
  | O => None
  | S f =>
      match parse_value f s with
      | None => None
      | Some (v, r) =>
          match skip_ws r with
          | c :: r' =>
              if c =? c_comma then
                match parse_elements f r' with
                | Some (vs, rest) => Some (v :: vs, rest)
                | None => None
                end
              else if c =? c_rbracket then Some ([v], r')
              else None
          | [] => None
          end
      end
  end

with parse_members (fuel : nat) (s : jstring) {struct fuel} :
  option (list (jstring * jvalue) * jstring) :=
  match fuel with
  | O => None
  | S f =>
      match skip_ws s with
      | c :: r =>
          if c =? c_quote then
            match parse_chars r with
            | None => None
            | Some (k, r1) =>
                match skip_ws r1 with
                | c1 :: r2 =>
                    if c1 =? c_colon then
                      match parse_value f r2 with
                      | None => None
                      | Some (v, r3) =>
                          match skip_ws r3 with
                          | c3 :: r4 =>
                              if c3 =? c_comma then
                                match parse_members f r4 with
                                | Some (ms, rest) => Some ((k, v) :: ms, rest)
                                | None => None
                                end
                              else if c3 =? c_rbrace then Some ([(k, v)], r4)
                              else None
                          | [] => None
                          end
                      end
                    else None
                | [] => None
                end
            end
          else None
      | [] => None
      end
  end.

(** [JSON.parse(text)]: one value, surrounded by whitespace only.  The
    fuel [2 * length text + 1] is enough for every text
    ([JsonFuel.json_parse_fuel]). *)
Definition json_parse (text : jstring) : option jvalue :=
  match parse_value (S (2 * length text)) text with
  | Some (v, rest) =>
      match skip_ws rest with
      | [] => Some v
      | _ => None
      end
  | None => None
  end.

(** ** Property access [v.key]

    [Some (Some x)]: the property holds [x]; [Some None]: it is
    [undefined]; [None]: the access throws a TypeError, as it does on
    [null] (and on [undefined], which [JSON.parse] never returns). *)

Fixpoint lookup_last (k : jstring) (ms : list (jstring * jvalue)) : option jvalue :=
  match ms with
  | [] => None
  | (k', v) :: ms' =>
      match lookup_last k ms' with
      | Some w => Some w
      | None => if list_eq_dec Z.eq_dec k k' then Some v else None
      end
  end.

Definition get_prop (v : jvalue) (k : jstring) : option (option jvalue) :=
  match v with
  | JNull => None
  | JObject ms => Some (lookup_last k ms)
  | _ => Some None
  end.

(** ** Lemmas on the parser *)

(** A code unit that stands for itself inside a string literal: no
    control character, no quote, no backslash. *)
Definition plain_char (c : Z) : bool := (32 <=? c) && negb (c =? c_quote) && negb (c =? c_backslash).

Lemma skip_ws_stop c r : is_json_ws c = false -> skip_ws (c :: r) = c :: r.
Proof. intros H. cbn. now rewrite H. Qed.

Lemma parse_chars_plain cs r :
  forallb plain_char cs = true -> parse_chars (cs ++ 34 :: r) = Some (cs, r).
Proof.
  induction cs as [|c cs IH]; intros H; [reflexivity|].
  cbn in H. apply andb_prop in H as [Hc Hcs].
  cbn [app parse_chars]. rewrite IH by exact Hcs.
  revert Hc. unfold plain_char, c_quote, c_backslash. zbool_cases; easy || lia.
Qed.

(** A string literal of plain characters parses as itself. *)
Lemma parse_value_string f cs r :
  forallb plain_char cs = true ->
  parse_value (S f) (34 :: cs ++ 34 :: r) = Some (JString cs, r).
Proof.
  intros H. cbn [parse_value]. rewrite skip_ws_stop by reflexivity.
  cbn - [parse_chars]. now rewrite parse_chars_plain.
Qed.

(** One member [key : value] of an object, with a plain key. *)
Lemma parse_members_key f k r :
  forallb plain_char k = true ->
  parse_members (S f) (34 :: k ++ 34 :: r) =
  match skip_ws r with
  | c1 :: r2 =>
      if c1 =? 58 then
        match parse_value f r2 with
        | None => None
        | Some (v, r3) =>
            match skip_ws r3 with
            | c3 :: r4 =>
                if c3 =? 44 then
                  match parse_members f r4 with
                  | Some (ms, rest) => Some ((k, v) :: ms, rest)
                  | None => None
                  end
                else if c3 =? 125 then Some ([(k, v)], r4)
                else None
            | [] => None
            end
        end
      else None
  | [] => None
  end.
Proof.
  intros H. cbn [parse_members]. rewrite skip_ws_stop by reflexivity.
  cbn - [parse_chars skip_ws parse_value]. now rewrite parse_chars_plain.
Qed.

End Json.
