(* ===== verification/JsonFuel.v ===== *)
(** * The fuel of the JSON parser is enough

    [Json.json_parse] runs the mutually recursive [parse_value],
    [parse_elements] and [parse_members] with fuel [2 * length text + 1];
    [JSON.parse] itself has none.  This file shows that the fuel never
    decides the outcome: every lexer step consumes input
    ([skip_ws_le], [parse_chars_lt], [parse_number_lt], [parse_keyword_lt],
    [parse_value_lt]), so a value of a text of length [n] needs at most
    [2 * n + 1] nested calls (an array costs two calls, [parse_value] and
    [parse_elements], per opening bracket), and one more unit of fuel
    changes no result ([fuel_step]).  Hence [json_parse] agrees with the
    parser run with any larger fuel ([json_parse_fuel]). *)

From Stdlib Require Import ZArith NArith String Bool List Lia.
From S2P Require Import Prelude JsString Json.
Import ListNotations.

Module JsonFuel.

Import Json.

(** ** Every lexer step consumes input *)

Lemma skip_ws_le s : (length (skip_ws s) <= length s)%nat.
Proof. induction s as [|c r IH]; cbn; [lia|]. destruct (is_json_ws c); cbn; lia. Qed.

Lemma skip_ws_cons_lt s c r : skip_ws s = c :: r -> (length r < length s)%nat.
Proof. intros E. pose proof (skip_ws_le s) as H. rewrite E in H. cbn in H. lia. Qed.

Lemma span_digits_le s ds r : span_digits s = (ds, r) -> (length r <= length s)%nat.
Proof.
  revert ds r. induction s as [|c s IH]; intros ds r E; cbn in E.
  - injection E as <- <-. lia.
  - destruct (JsString.is_digit c).
    + destruct (span_digits s) as [ds' r'] eqn:E'. injection E as <- <-.
      specialize (IH _ _ eq_refl). cbn. lia.
    + injection E as <- <-. lia.
Qed.

Lemma parse_chars_lt s cs r : parse_chars s = Some (cs, r) -> (length r < length s)%nat.
Proof.
  remember (length s) as n eqn:Hn. revert s cs r Hn.
  induction n as [n IH] using lt_wf_ind. intros s cs r Hn E.
  destruct s as [|c s]; cbn in E; [discriminate|]. cbn in Hn.
  destruct (c =? c_quote); [injection E as _ <-; lia|].
  destruct (c =? c_backslash).
  - destruct s as [|e s]; [discriminate|].
    repeat (case_match_in E; try discriminate); subst; injection E as _ <-;
      match goal with H : parse_chars ?x = Some (?a, ?b) |- _ =>
        pose proof (IH (length x) ltac:(cbn in *; lia) x a b eq_refl H) end;
      cbn in *; lia.
  - destruct (c <? 32); [discriminate|].
    case_match_in E; [|discriminate]. destruct p as [a b]. injection E as _ <-.
    pose proof (IH (length s) ltac:(lia) s a b eq_refl E0). lia.
Qed.

Lemma parse_number_lt s n r : parse_number s = Some (n, r) -> (length r < length s)%nat.
Proof.
  unfold parse_number. intros E.
  destruct (match s with c :: _ => _ | [] => _ end) as [neg s1] eqn:Es.
  assert (H1 : (length s1 <= length s)%nat).
  { destruct s as [|c r']; [injection Es as _ <-; lia|].
    destruct (c =? c_minus); injection Es as _ <-; cbn; lia. }
  destruct (parse_int s1) as [[ids s2]|] eqn:Ei; [|discriminate].
  destruct (parse_frac s2) as [[fds s3]|] eqn:Ef; [|discriminate].
  destruct (parse_exp s3) as [[e s4]|] eqn:Ee; [|discriminate].
  injection E as _ <-.
  assert (L2 : (length s2 < length s1)%nat).
  { unfold parse_int in Ei. destruct s1 as [|c s1']; [discriminate|].
    destruct (c =? 48); [injection Ei as _ <-; cbn; lia|].
    destruct (JsString.is_digit c); [|discriminate].
    destruct (span_digits s1') as [ds rest] eqn:Ed. injection Ei as _ <-.
    apply span_digits_le in Ed. cbn. lia. }
  assert (L3 : (length s3 <= length s2)%nat).
  { unfold parse_frac in Ef. destruct s2 as [|c s2']; [injection Ef as _ <-; lia|].
    destruct (c =? c_dot); [|injection Ef as _ <-; lia].
    destruct (span_digits s2') as [[|d ds] rest] eqn:Ed; [discriminate|].
    injection Ef as _ <-. apply span_digits_le in Ed. cbn. lia. }
  assert (L4 : (length s4 <= length s3)%nat).
  { unfold parse_exp in Ee. destruct s3 as [|c s3']; [injection Ee as _ <-; lia|].
    destruct ((c =? 101) || (c =? 69)); [|injection Ee as _ <-; lia].
    destruct (match s3' with d :: _ => _ | [] => _ end) as [ng r1] eqn:Er.
    assert (Hr1 : (length r1 <= length s3')%nat).
    { destruct s3' as [|d r']; [injection Er as _ <-; lia|].
      destruct (d =? c_minus); [injection Er as _ <-; cbn; lia|].
      destruct (d =? c_plus); injection Er as _ <-; cbn; lia. }
    destruct (span_digits r1) as [[|d ds] rest] eqn:Ed; [discriminate|].
    injection Ee as _ <-. apply span_digits_le in Ed. cbn. lia. }
  lia.
Qed.

Lemma is_prefix_length p s : JsString.is_prefix p s = true -> (length p <= length s)%nat.
Proof.
  revert s. induction p as [|a p IH]; intros [|b s] H; cbn in *; try lia; try discriminate.
  apply andb_prop in H as [_ H]. specialize (IH s H). lia.
Qed.

Lemma parse_keyword_lt kw v s w r :
  kw <> [] -> parse_keyword kw v s = Some (w, r) -> (length r < length s)%nat.
Proof.
  unfold parse_keyword. intros Hk E.
  destruct (JsString.is_prefix kw s) eqn:Ep; [|discriminate]. injection E as _ <-.
  apply is_prefix_length in Ep. rewrite length_skipn.
  destruct kw; [congruence|]. cbn in *. lia.
Qed.

(** ** The parser consumes input *)

Ltac length_facts :=
  repeat match goal with
  | H : skip_ws _ = _ :: _ |- _ => apply skip_ws_cons_lt in H
  | H : parse_chars _ = Some (_, _) |- _ => apply parse_chars_lt in H
  | H : parse_number _ = Some (_, _) |- _ => apply parse_number_lt in H
  | H : parse_keyword _ _ _ = Some (_, _) |- _ =>
      apply parse_keyword_lt in H; [|discriminate]
  end.

Lemma parse_lt f :
  (forall s v r, parse_value f s = Some (v, r) -> (length r < length s)%nat) /\
  (forall s vs r, parse_elements f s = Some (vs, r) -> (length r < length s)%nat) /\
  (forall s ms r, parse_members f s = Some (ms, r) -> (length r < length s)%nat).
Proof.
  induction f as [|f [IHv [IHe IHm]]]; [repeat split; discriminate|].
  refine (conj _ (conj _ _)); intros s x r E; cbn [parse_value parse_elements parse_members] in E;
    repeat (case_match_in E; try discriminate); subst;
    try (injection E as _ <-);
    repeat match goal with
    | H : parse_value f _ = Some (_, _) |- _ => apply IHv in H
    | H : parse_elements f _ = Some (_, _) |- _ => apply IHe in H
    | H : parse_members f _ = Some (_, _) |- _ => apply IHm in H
    end;
    length_facts; cbn in *; lia.
Qed.

(** ** One more unit of fuel changes nothing *)

Lemma fuel_step f :
  (forall s, (2 * length s < f)%nat -> parse_value (S f) s = parse_value f s) /\
  (forall s, (2 * length s + 1 < f)%nat -> parse_elements (S f) s = parse_elements f s) /\
  (forall s, (2 * length s + 1 < f)%nat -> parse_members (S f) s = parse_members f s).
Proof.
  induction f as [|g [IHv [IHe IHm]]]; [repeat split; intros; lia|].
  refine (conj _ (conj _ _)); intros s Hs.
  - cbn [parse_value].
    destruct (skip_ws s) as [|c r] eqn:E; [reflexivity|]. apply skip_ws_cons_lt in E.
    destruct (c =? c_lbrace).
    + destruct (skip_ws r) as [|c' r'] eqn:E2; [reflexivity|]. apply skip_ws_cons_lt in E2.
      destruct (c' =? c_rbrace); [reflexivity|]. rewrite IHm by (cbn; lia). reflexivity.
    + destruct (c =? c_lbracket); [|reflexivity].
      destruct (skip_ws r) as [|c' r'] eqn:E2; [reflexivity|]. apply skip_ws_cons_lt in E2.
      destruct (c' =? c_rbracket); [reflexivity|]. rewrite IHe by (cbn; lia). reflexivity.
  - cbn [parse_elements]. rewrite IHv by lia.
    destruct (parse_value g s) as [[v r]|] eqn:Ev; [|reflexivity].
    apply (proj1 (parse_lt g)) in Ev.
    destruct (skip_ws r) as [|c r'] eqn:E2; [reflexivity|]. apply skip_ws_cons_lt in E2.
    destruct (c =? c_comma); [|reflexivity]. rewrite <- (IHe r') by lia. reflexivity.
  - cbn [parse_members].
    destruct (skip_ws s) as [|c r] eqn:E; [reflexivity|]. apply skip_ws_cons_lt in E.
    destruct (c =? c_quote); [|reflexivity].
    destruct (parse_chars r) as [[k r1]|] eqn:Ec; [|reflexivity]. apply parse_chars_lt in Ec.
    destruct (skip_ws r1) as [|c1 r2] eqn:E1; [reflexivity|]. apply skip_ws_cons_lt in E1.
    destruct (c1 =? c_colon); [|reflexivity].
    rewrite IHv by lia.
    destruct (parse_value g r2) as [[v r3]|] eqn:Ev; [|reflexivity].
    apply (proj1 (parse_lt g)) in Ev.
    destruct (skip_ws r3) as [|c3 r4] eqn:E3; [reflexivity|]. apply skip_ws_cons_lt in E3.
    destruct (c3 =? c_comma); [|reflexivity]. rewrite <- (IHm r4) by lia. reflexivity.
Qed.

Lemma parse_value_fuel s f :
  (2 * length s < f)%nat -> parse_value f s = parse_value (S (2 * length s)) s.
Proof.
  induction f as [|f IH]; intros Hf; [lia|].
  destruct (Nat.eq_dec f (2 * length s)) as [->|Hne]; [reflexivity|].
  rewrite (proj1 (fuel_step f)) by lia. apply IH. lia.
Qed.

(** [json_parse] agrees with the parser run with any fuel above
    [2 * length text]. *)
Lemma json_parse_fuel text f :
  (2 * length text < f)%nat ->
  json_parse text =
  match parse_value f text with
  | Some (v, rest) => match skip_ws rest with [] => Some v | _ => None end
  | None => None
  end.
Proof. intros Hf. unfold json_parse. now rewrite (parse_value_fuel text f Hf). Qed.

End JsonFuel.
