(* ===== verification/JsonNumber.v ===== *)
(** * The numbers [JSON.parse] builds: decimals rounded to doubles

    The JSON parser ([Json.parse_number]) reads a number as its exact
    decimal [±mant * 10^exp].  ECMA-262 then makes it a Number: the
    double nearest to that value, ties to even, with [-0] for a negative
    zero and an infinity past the largest finite double (RoundMVResult,
    taking its first option, exact rounding, for every length).
    [to_double] is that conversion on Stdlib's IEEE 754 binary64
    specification ([SpecFloat], precision 53, exponent bound 1024): a
    non-negative exponent is an integer rounded by [binary_normalize], a
    negative one the quotient [mant / 10^-exp] rounded by the division
    core of [SFdiv].

    [double_int] reads back the integer a double denotes, if it is one.
    [to_double_safe]: an integer of magnitude below [2^53]
    ([Number.MAX_SAFE_INTEGER + 1]) is a double exactly. *)

From Stdlib Require Import ZArith NArith List Lia Floats.SpecFloat.
From S2P Require Import Prelude Json.
Import ListNotations.
Open Scope Z_scope.

Module JsonNumber.

Import Json.

Definition prec : Z := 53.
Definition emax : Z := 1024.

(** The double nearest to [±m * 10^e] ([m >= 0]), ties to even. *)
Definition round_decimal (neg : bool) (m e : Z) : spec_float :=
  if m =? 0 then S754_zero neg
  else if 0 <=? e then
    binary_normalize prec emax (if neg then - (m * 10 ^ e) else m * 10 ^ e) 0 neg
  else
    let '(mz, ez, lz) := SFdiv_core_binary prec emax m 0 (10 ^ (- e)) 0 in
    binary_round_aux prec emax neg mz ez lz.

(** The Number a JSON number literal denotes. *)
Definition to_double (n : jnumber) : spec_float :=
  round_decimal (num_neg n) (Z.of_N (num_mant n)) (num_exp n).

(** The integer a double denotes, when it is a finite integer. *)
Definition double_int (x : spec_float) : option Z :=
  match x with
  | S754_zero _ => Some 0
  | S754_finite s m e =>
      let v := if 0 <=? e then Zpos m * 2 ^ e
               else if Zpos m mod 2 ^ (- e) =? 0 then Zpos m / 2 ^ (- e) else -1 in
      if v <? 0 then None else Some (if s then - v else v)
  | _ => None
  end.

(** ** Safe integers are exact *)

Lemma digits2_pos_log2 p : Zpos (digits2_pos p) = Z.log2 (Zpos p) + 1.
Proof.
  induction p as [p IH|p IH|]; cbn [digits2_pos]; [| |reflexivity];
    rewrite Pos2Z.inj_succ, IH.
  - rewrite Pos2Z.inj_xI, Z.log2_succ_double by lia. lia.
  - rewrite Pos2Z.inj_xO, Z.log2_double by lia. lia.
Qed.

Lemma iter_xO m k : Zpos (Pos.iter xO m k) = Zpos m * 2 ^ Zpos k.
Proof.
  induction k as [|k IH] using Pos.peano_ind; [cbn; lia|].
  rewrite Pos.iter_succ, Pos2Z.inj_xO, IH, Pos2Z.inj_succ, Z.pow_succ_r by lia. lia.
Qed.

(** A mantissa of exactly [prec] bits at an exponent in range is left
    as it is by the rounding. *)
Lemma round_aux_canonical s m e :
  Zpos (digits2_pos m) = prec -> emin prec emax <= e <= emax - prec ->
  binary_round_aux prec emax s (Zpos m) e loc_Exact = S754_finite s m e.
Proof.
  intros Hd He. unfold binary_round_aux, shr_fexp. cbn [Zdigits2]. rewrite Hd.
  assert (Hf : fexp prec emax (prec + e) - e = 0)
    by (unfold fexp, emin in *; unfold prec, emax in *; lia).
  rewrite Hf. cbn [shr shr_record_of_loc loc_of_shr_record shr_m round_nearest_even Zdigits2].
  rewrite Hd, Hf. cbn [shr shr_m].
  destruct (Z.leb_spec e (emax - prec)); [reflexivity | lia].
Qed.

Lemma to_double_safe_pos s (n : positive) :
  Zpos n < 2 ^ 53 ->
  exists m e, binary_round prec emax s n 0 = S754_finite s m e /\ e <= 0 /\
              Zpos m = Zpos n * 2 ^ (- e).
Proof.
  intros Hn. pose proof (digits2_pos_log2 n) as Hd.
  assert (Hl : Z.log2 (Zpos n) < 53) by (apply Z.log2_lt_pow2; lia).
  pose proof (Z.log2_nonneg (Zpos n)).
  unfold binary_round, shl_align.
  assert (Hf : fexp prec emax (Zpos (digits2_pos n) + 0) - 0 = Zpos (digits2_pos n) - 53)
    by (unfold fexp, emin, prec, emax; lia).
  rewrite Hf.
  destruct (Zpos (digits2_pos n) - 53) as [|k|k] eqn:Ek; [| lia |].
  - exists n, 0. rewrite round_aux_canonical by (unfold emin, prec, emax in *; lia).
    split; [reflexivity | split; [lia | cbn; lia]].
  - exists (Pos.iter xO n k), (Zneg k).
    replace (fexp prec emax (Zpos (digits2_pos n) + 0)) with (Zneg k) by lia.
    rewrite round_aux_canonical.
    + split; [reflexivity | split; [lia|]]. rewrite iter_xO. reflexivity.
    + rewrite digits2_pos_log2, iter_xO, Z.log2_mul_pow2 by lia. unfold prec. lia.
    + unfold emin, prec, emax. lia.
Qed.

Lemma double_int_round_pos s (n : positive) :
  Zpos n < 2 ^ 53 ->
  double_int (binary_round prec emax s n 0) = Some (if s then - Zpos n else Zpos n).
Proof.
  intros Hn. destruct (to_double_safe_pos s n Hn) as (m & e & -> & He & Hm).
  unfold double_int.
  destruct (Z.leb_spec 0 e) as [He0|He0]; cbv beta iota.
  - assert (e = 0) by lia. subst e. change (2 ^ (- 0)) with 1 in Hm.
    change (2 ^ 0) with 1. rewrite Z.mul_1_r in *. rewrite Hm.
    destruct (Z.ltb_spec (Zpos n) 0); [lia | reflexivity].
  - rewrite Hm, Z.mod_mul, Z.div_mul by (apply Z.pow_nonzero; lia). cbv beta iota.
    destruct (Z.ltb_spec (Zpos n) 0); [lia | reflexivity].
Qed.

(** A positive integer below [2^53] rounds to a double denoting it. *)
Lemma double_int_normalize v : 0 < v < 2 ^ 53 ->
  double_int (binary_normalize prec emax v 0 false) = Some v.
Proof.
  intros Hv. destruct v as [|n|n]; try lia. apply double_int_round_pos. lia.
Qed.

(** [to_double_safe]: a JSON integer below [2^53] in magnitude is the
    double of that integer, exactly. *)
Lemma to_double_safe neg (n : N) :
  Z.of_N n < 2 ^ 53 ->
  double_int (to_double (mk_jnumber neg n 0)) = Some (if neg then - Z.of_N n else Z.of_N n).
Proof.
  intros Hn. unfold to_double, round_decimal. cbn [num_neg num_mant num_exp].
  destruct n as [|p]; [now destruct neg|]. cbn [Z.of_N Z.eqb Z.leb].
  rewrite Z.pow_0_r, Z.mul_1_r.
  destruct neg; apply double_int_round_pos; exact Hn.
Qed.

(** ** Overflow *)

Lemma shr_1_m m r s : 0 <= m -> shr_m (shr_1 (Build_shr_record m r s)) = m / 2.
Proof.
  intros Hm. destruct m as [|[p|p|]|p]; cbn; try reflexivity; try lia.
  - rewrite Pos2Z.inj_xI. rewrite Z.add_comm, Z.mul_comm, Z.div_add by lia. reflexivity.
  - rewrite Pos2Z.inj_xO. rewrite Z.mul_comm, Z.div_mul by lia. reflexivity.
Qed.

Lemma iter_shr_m p : forall mrs,
  0 <= shr_m mrs -> shr_m (iter_pos shr_1 p mrs) = shr_m mrs / 2 ^ Zpos p.
Proof.
  assert (Hpos : forall q, 0 < 2 ^ Zpos q) by (intros q; apply Z.pow_pos_nonneg; lia).
  induction p as [p IH|p IH|]; intros [m r s] Hm; cbn [iter_pos shr_m] in *.
  - pose proof (shr_1_m m r s Hm) as H1.
    assert (H1' : 0 <= shr_m (shr_1 (Build_shr_record m r s)))
      by (rewrite H1; apply Z.div_pos; lia).
    assert (H2 : 0 <= shr_m (iter_pos shr_1 p (shr_1 (Build_shr_record m r s)))).
    { rewrite (IH _ H1'), H1. apply Z.div_pos; [apply Z.div_pos|]; auto with zarith; lia. }
    rewrite (IH _ H2), (IH _ H1'), H1, !Z.div_div by (auto with zarith; lia).
    f_equal. replace (Zpos p~1) with (1 + Zpos p + Zpos p) by lia.
    rewrite !Z.pow_add_r by lia. ring.
  - assert (H2 : 0 <= shr_m (iter_pos shr_1 p (Build_shr_record m r s))).
    { rewrite (IH (Build_shr_record m r s) Hm). apply Z.div_pos; [exact Hm | auto with zarith]. }
    rewrite (IH _ H2), (IH (Build_shr_record m r s) Hm). cbn [shr_m]. rewrite Z.div_div by (auto with zarith; lia).
    f_equal. replace (Zpos p~0) with (Zpos p + Zpos p) by lia.
    rewrite Z.pow_add_r by lia. ring.
  - apply shr_1_m. exact Hm.
Qed.

Lemma rne_ge m l : m <= round_nearest_even m l.
Proof. destruct l as [|[]]; cbn; try lia. destruct (Z.even m); lia. Qed.

Lemma digits_lower p : 2 ^ (Zpos (digits2_pos p) - 1) <= Zpos p.
Proof.
  rewrite digits2_pos_log2. replace (Z.log2 (Zpos p) + 1 - 1) with (Z.log2 (Zpos p)) by lia.
  apply Z.log2_spec. lia.
Qed.

(** A shift by [fexp] keeps a positive mantissa positive and never
    lowers the exponent. *)
Lemma shr_fexp_pos m e :
  0 < m -> 0 <= e ->
  let '(mrs, e') := shr_fexp prec emax m e loc_Exact in 0 < shr_m mrs /\ e <= e'.
Proof.
  intros Hm He. unfold shr_fexp, shr. destruct m as [|p|p]; try lia.
  cbn [Zdigits2 shr_record_of_loc].
  destruct (fexp prec emax (Zpos (digits2_pos p) + e) - e) as [|n|n] eqn:En; cbn [shr_m]; try lia.
  rewrite iter_shr_m by (cbn; lia). cbn [shr_m]. split; [|lia].
  pose proof (digits_lower p).
  assert (Hn : Zpos n <= Zpos (digits2_pos p) - 1)
    by (unfold fexp, emin, prec, emax in En; lia).
  apply Z.div_str_pos. split; [apply Z.pow_pos_nonneg; lia|].
  eapply Z.le_trans; [|eassumption]. apply Z.pow_le_mono_r; lia.
Qed.

(** A positive integer of at least [2^1025] rounds to an infinity. *)
Lemma round_overflow s (p : positive) :
  2 ^ 1025 <= Zpos p -> binary_round prec emax s p 0 = S754_infinity s.
Proof.
  intros Hp. pose proof (digits2_pos_log2 p) as Hd.
  assert (Hl : 1025 <= Z.log2 (Zpos p)) by (apply Z.log2_le_pow2; lia).
  unfold binary_round, shl_align.
  assert (Hf : fexp prec emax (Zpos (digits2_pos p) + 0) = Zpos (digits2_pos p) - 53)
    by (unfold fexp, emin, prec, emax; lia).
  rewrite Hf. destruct (Zpos (digits2_pos p) - 53 - 0) eqn:E; try lia.
  unfold binary_round_aux.
  pose proof (shr_fexp_pos (Zpos p) 0 ltac:(lia) ltac:(lia)) as H1.
  destruct (shr_fexp prec emax (Zpos p) 0 loc_Exact) as [mrs e1] eqn:E1.
  assert (He1 : e1 = Zpos (digits2_pos p) - 53).
  { revert E1. unfold shr_fexp, shr. cbn [Zdigits2].
    replace (fexp prec emax (Zpos (digits2_pos p) + 0) - 0) with (Zpos p0) by lia.
    intros E1. injection E1 as _ <-. lia. }
  destruct H1 as [Hm1 _].
  pose proof (rne_ge (shr_m mrs) (loc_of_shr_record mrs)) as Hr.
  pose proof (shr_fexp_pos (round_nearest_even (shr_m mrs) (loc_of_shr_record mrs)) e1
                ltac:(lia) ltac:(lia)) as H2.
  destruct (shr_fexp prec emax (round_nearest_even (shr_m mrs) (loc_of_shr_record mrs)) e1
              loc_Exact) as [mrs2 e2].
  destruct H2 as [Hm2 He2].
  destruct (shr_m mrs2) as [|q|q]; try lia.
  destruct (Z.leb_spec e2 (emax - prec)); [unfold emax, prec in *; lia | reflexivity].
Qed.

(** [JSON.parse] turns a number of magnitude at least [2^1025] into an
    infinity of its sign. *)
Lemma to_double_overflow neg (m : N) e :
  (0 < m)%N -> 0 <= e -> 2 ^ 1025 <= Z.of_N m * 10 ^ e ->
  to_double (mk_jnumber neg m e) = S754_infinity neg.
Proof.
  intros Hm He Hb. unfold to_double, round_decimal. cbn [num_neg num_mant num_exp].
  destruct (Z.eqb_spec (Z.of_N m) 0); [lia|]. destruct (Z.leb_spec 0 e); [|lia].
  destruct (Z.of_N m * 10 ^ e) as [|p|p] eqn:Ev; try lia.
  destruct neg; cbn [binary_normalize Z.opp]; apply round_overflow; exact Hb.
Qed.

End JsonNumber.
