(* ===== verification/NumberToString.v ===== *)
(** * [Number::toString]: the text of a double

    React renders a number child ([{latestNFTMinted.name}], line 153) as
    [String(x)], ECMA-262's Number::toString(x, 10).  Its step 5 chooses
    the shortest decimal [s * 10^(n-k)] ([k] digits) that rounds back to
    [x], the one closest to [x] if several, the even one on a tie; steps
    6-10 lay the digits out plainly for exponents up to 21 and down to
    -6, in exponent form otherwise.

    [shortest] computes step 5 as the specification states it: for
    [k = 1, 2, ...] the two [k]-digit decimals around [x] (below and
    above; the closest [k]-digit decimals that round to [x], if any, are
    among them since the doubles rounding to [x] form an interval around
    it) are converted back with [JsonNumber.round_decimal] and the first
    [k] at which one rounds to [x] is taken.  Seventeen digits always
    round-trip for binary64 (Matula's bound, IEEE 754-2008 5.12.2), so
    the search has fuel for [k <= 17] and at [k = 17] takes the nearest
    decimal without testing it.  [to_string] formats the result
    (steps 6-10). *)

From Stdlib Require Import ZArith NArith String List Lia Bool Floats.SpecFloat.
From S2P Require Import Prelude JsString Json JsonNumber.
Import ListNotations.
Open Scope Z_scope.

Module NumberToString.

Import Json JsonNumber.

Definition sf_eqb (x y : spec_float) : bool :=
  match x, y with
  | S754_zero a, S754_zero b => Bool.eqb a b
  | S754_infinity a, S754_infinity b => Bool.eqb a b
  | S754_nan, S754_nan => true
  | S754_finite a m e, S754_finite b m' e' => Bool.eqb a b && Pos.eqb m m' && Z.eqb e e'
  | _, _ => false
  end.

(** The value [p / q] of a positive finite double, in lowest terms. *)
Definition ratio (m : positive) (e : Z) : Z * Z :=
  let p := if 0 <=? e then Zpos m * 2 ^ e else Zpos m in
  let q := if 0 <=? e then 1 else 2 ^ (- e) in
  let g := Z.gcd p q in (p / g, q / g).

(** The number of decimal digits of [z > 0], with enough fuel. *)
Fixpoint dec_len_fuel (fuel : nat) (z : Z) : Z :=
  match fuel with
  | O => 1
  | S f => if z <? 10 then 1 else 1 + dec_len_fuel f (z / 10)
  end.

Definition dec_len (z : Z) : Z := dec_len_fuel (Z.to_nat (Z.log2 z + 1)) z.

(** The [d] with [10^(d-1) <= p/q < 10^d]. *)
Definition dec_exponent (p q : Z) : Z :=
  let t := dec_len p - dec_len q in
  if p * 10 ^ Z.max (- t) 0 <? 10 ^ Z.max t 0 * q then t else t + 1.

(** The [k]-digit decimals next to [p/q] (scale [10^(d-k)]): the one
    below and, unless [p/q] is one, the one above; as pairs [(s, n)]. *)
Definition candidates (p q d k : Z) : list (Z * Z) :=
  let a := p * 10 ^ Z.max (k - d) 0 in
  let b := q * 10 ^ Z.max (d - k) 0 in
  let lo := a / b in
  if a mod b =? 0 then [(lo, d)]
  else [(lo, d); if lo + 1 =? 10 ^ k then (10 ^ (k - 1), d + 1) else (lo + 1, d)].

Definition round_trips (x : spec_float) (k : Z) (c : Z * Z) : bool :=
  sf_eqb (round_decimal false (fst c) (snd c - k)) x.

(** Of the candidates that round to [x], the closest to [p/q], the even
    one on a tie. *)
Definition pick (p q d k : Z) (cs : list (Z * Z)) : option (Z * Z) :=
  match cs with
  | [] => None
  | [c] => Some c
  | c1 :: c2 :: _ =>
      let a := p * 10 ^ Z.max (k - d) 0 in
      let b := q * 10 ^ Z.max (d - k) 0 in
      let below := a - (a / b) * b in
      let above := (a / b + 1) * b - a in
      if below <? above then Some c1
      else if above <? below then Some c2
      else if Z.even (fst c1) then Some c1 else Some c2
  end.

(** Step 5: the [(s, n, k)] of [x = p/q], searching [k] upwards. *)
Fixpoint shortest (x : spec_float) (p q d k : Z) (fuel : nat) : Z * Z * Z :=
  let cs := candidates p q d k in
  match fuel with
  | O => match pick p q d k cs with Some (s, n) => (s, n, k) | None => (0, d, k) end
  | S f =>
      match pick p q d k (filter (round_trips x k) cs) with
      | Some (s, n) => (s, n, k)
      | None => shortest x p q d (k + 1) f
      end
  end.

Definition digits_of (s : Z) : jstring := JsString.N_to_string (Z.to_N s).

(** Steps 6-10: the layout of [s * 10^(n-k)]. *)
Definition layout (s n k : Z) : jstring :=
  let ds := digits_of s in
  if (k <=? n) && (n <=? 21) then ds ++ repeat 48 (Z.to_nat (n - k))
  else if (0 <? n) && (n <=? 21) then
    firstn (Z.to_nat n) ds ++ [46] ++ skipn (Z.to_nat n) ds
  else if (-6 <? n) && (n <=? 0) then [48; 46] ++ repeat 48 (Z.to_nat (- n)) ++ ds
  else
    let e := n - 1 in
    let es := (if e <? 0 then [45] else [43]) ++ JsString.N_to_string (Z.to_N (Z.abs e)) in
    if k =? 1 then ds ++ [101] ++ es
    else firstn 1 ds ++ [46] ++ skipn 1 ds ++ [101] ++ es.

(** Number::toString(x, 10). *)
Definition to_string (x : spec_float) : jstring :=
  match x with
  | S754_nan => js "NaN"
  | S754_zero _ => js "0"
  | S754_infinity false => js "Infinity"
  | S754_infinity true => js "-Infinity"
  | S754_finite sg m e =>
      let '(p, q) := ratio m e in
      let d := dec_exponent p q in
      let '(s, n, k) := shortest (S754_finite false m e) p q d 1 16 in
      (if sg then [45] else []) ++ layout s n k
  end.

(** ** Integers below [10^15] print as their digits *)

Lemma sf_eqb_eq x y : sf_eqb x y = true -> x = y.
Proof.
  destruct x, y; cbn; try discriminate; intros H; try reflexivity;
    repeat match goal with
    | H : _ && _ = true |- _ => apply andb_prop in H as [? ?]
    | H : Bool.eqb _ _ = true |- _ => apply Bool.eqb_prop in H
    | H : Pos.eqb _ _ = true |- _ => apply Pos.eqb_eq in H
    | H : Z.eqb _ _ = true |- _ => apply Z.eqb_eq in H
    end; congruence.
Qed.

Lemma dec_len_fuel_pos f z : 1 <= dec_len_fuel f z.
Proof.
  revert z. induction f as [|f IH]; intros z; cbn [dec_len_fuel]; [lia|].
  destruct (z <? 10); [lia|]. specialize (IH (z / 10)). lia.
Qed.

Lemma dec_len_fuel_spec f z :
  0 < z < 2 ^ Z.of_nat f -> 10 ^ (dec_len_fuel f z - 1) <= z < 10 ^ dec_len_fuel f z.
Proof.
  revert z. induction f as [|f IH]; intros z Hz; cbn [dec_len_fuel].
  - cbn in Hz. lia.
  - destruct (Z.ltb_spec z 10); [cbn; lia|].
    rewrite Nat2Z.inj_succ, Z.pow_succ_r in Hz by lia.
    pose proof (Z.pow_pos_nonneg 2 (Z.of_nat f) ltac:(lia) ltac:(lia)).
    assert (Hq : 0 < z / 10 < 2 ^ Z.of_nat f).
    { split; [apply Z.div_str_pos; lia | apply Z.div_lt_upper_bound; lia]. }
    pose proof (dec_len_fuel_pos f (z / 10)).
    destruct (IH _ Hq) as [Hlo Hhi].
    pose proof (Z.div_mod z 10 ltac:(lia)). pose proof (Z.mod_pos_bound z 10 ltac:(lia)).
    replace (1 + dec_len_fuel f (z / 10) - 1) with (dec_len_fuel f (z / 10)) by lia.
    rewrite Z.pow_add_r by lia.
    replace (dec_len_fuel f (z / 10)) with (dec_len_fuel f (z / 10) - 1 + 1) at 1 by lia.
    rewrite Z.pow_add_r in * by lia. nia.
Qed.

Lemma dec_len_spec z : 0 < z -> 10 ^ (dec_len z - 1) <= z < 10 ^ dec_len z.
Proof.
  intros Hz. apply dec_len_fuel_spec. split; [exact Hz|].
  rewrite Z2Nat.id by (pose proof (Z.log2_nonneg z); lia).
  apply Z.log2_spec. exact Hz.
Qed.

Lemma dec_exponent_int n : 0 < n -> dec_exponent n 1 = dec_len n.
Proof.
  intros Hn. pose proof (dec_len_spec n Hn) as [Hlo _].
  pose proof (dec_len_fuel_pos (Z.to_nat (Z.log2 n + 1)) n) as Hl. fold (dec_len n) in Hl.
  unfold dec_exponent. change (dec_len 1) with 1.
  rewrite (Z.max_r (- _) 0), (Z.max_l (_ - 1) 0) by lia. rewrite Z.pow_0_r, !Z.mul_1_r.
  destruct (Z.ltb_spec n (10 ^ (dec_len n - 1))); lia.
Qed.

(** The value of an exact integer double, in lowest terms. *)
Lemma ratio_int n m e : 0 < n -> e <= 0 -> Zpos m = n * 2 ^ (- e) -> ratio m e = (n, 1).
Proof.
  intros Hn He Hm. unfold ratio.
  destruct (Z.leb_spec 0 e) as [He0|He0].
  - assert (e = 0) by lia. subst e. cbv beta iota zeta.
    change (2 ^ (- 0)) with 1 in Hm. change (2 ^ 0) with 1.
    rewrite Z.mul_1_r in *. rewrite Hm, Z.gcd_1_r, !Z.div_1_r. reflexivity.
  - cbv beta iota zeta. rewrite Hm, Z.gcd_comm, (Z.mul_comm n), Z.gcd_mul_diag_l
      by (apply Z.pow_nonneg; lia). rewrite (Z.mul_comm _ n).
    rewrite Z.div_mul, Z.div_same by (apply Z.pow_nonzero; lia). reflexivity.
Qed.

Lemma round_decimal_int s e :
  0 < s -> 0 <= e -> s * 10 ^ e < 2 ^ 53 ->
  double_int (round_decimal false s e) = Some (s * 10 ^ e).
Proof.
  intros Hs He Hb. unfold round_decimal.
  destruct (Z.eqb_spec s 0); [lia|]. destruct (Z.leb_spec 0 e); [|lia].
  apply double_int_normalize. split; [|exact Hb].
  apply Z.mul_pos_pos; [lia | apply Z.pow_pos_nonneg; lia].
Qed.

(** A decimal with a value other than [x]'s does not round to [x]. *)
Lemma round_trips_other x n s e k :
  double_int x = Some n -> 0 < s -> 0 <= e - k -> s * 10 ^ (e - k) < 2 ^ 53 ->
  s * 10 ^ (e - k) <> n -> round_trips x k (s, e) = false.
Proof.
  intros Hx Hs He Hb Hne. unfold round_trips. cbn [fst snd].
  destruct (sf_eqb _ x) eqn:E; [|reflexivity].
  apply sf_eqb_eq in E. rewrite <- E, round_decimal_int in Hx by assumption.
  congruence.
Qed.

Lemma strip_tens n : 0 < n -> exists s j, 0 <= j /\ 0 < s /\ n = s * 10 ^ j /\ s mod 10 <> 0.
Proof.
  intros Hn. assert (H0 : 0 <= n) by lia. revert Hn. pattern n.
  apply Z_lt_induction; [|exact H0].
  intros z IH Hz. destruct (Z.eq_dec (z mod 10) 0) as [E|E].
  - pose proof (Z.div_mod z 10 ltac:(lia)) as Hd. rewrite E, Z.add_0_r in Hd.
    destruct (IH (z / 10)) as (s & j & Hj & Hs & Hq & Hm);
      [split; [apply Z.div_pos|apply Z.div_lt]; lia | apply Z.div_str_pos; lia |].
    exists s, (j + 1). split; [lia|]. split; [exact Hs|]. split; [|exact Hm].
    rewrite Z.pow_add_r by lia. rewrite Hd at 1. rewrite Hq. ring.
  - exists z, 0. repeat split; auto; lia.
Qed.

Lemma digits_of_tenfold t : 0 < t -> digits_of (10 * t) = digits_of t ++ [48].
Proof.
  intros Ht. destruct t as [|q|q]; try lia. unfold digits_of.
  exact (JsString.N_to_string_tenfold q).
Qed.

Lemma digits_of_zeros s j :
  0 < s -> 0 <= j -> digits_of (s * 10 ^ j) = digits_of s ++ repeat 48 (Z.to_nat j).
Proof.
  intros Hs Hj. rewrite <- (Z2Nat.id j) at 1 by exact Hj.
  induction (Z.to_nat j) as [|i IH]; [cbn; now rewrite Z.mul_1_r, app_nil_r|].
  rewrite Nat2Z.inj_succ, Z.pow_succ_r by lia.
  replace (s * (10 * 10 ^ Z.of_nat i)) with (10 * (s * 10 ^ Z.of_nat i)) by ring.
  rewrite digits_of_tenfold, IH by (apply Z.mul_pos_pos; [lia | apply Z.pow_pos_nonneg; lia]).
  rewrite <- app_assoc. f_equal. change [48] with (repeat 48 1).
  rewrite <- repeat_app. f_equal. lia.
Qed.

Lemma shortest_climb x p q d k0 :
  forall (i : nat) f,
  (forall k, k0 - Z.of_nat i <= k < k0 ->
             pick p q d k (filter (round_trips x k) (candidates p q d k)) = None) ->
  shortest x p q d (k0 - Z.of_nat i) (i + f) = shortest x p q d k0 f.
Proof.
  induction i as [|i IH]; intros f Hk; [now rewrite Z.sub_0_r|].
  cbn [Nat.add shortest]. rewrite Hk by lia.
  replace (k0 - Z.of_nat (S i) + 1) with (k0 - Z.of_nat i) by lia.
  apply IH. intros k Hr. apply Hk. lia.
Qed.

Lemma sf_eqb_refl x : sf_eqb x x = true.
Proof.
  destruct x; cbn; rewrite ?Bool.eqb_reflx, ?Pos.eqb_refl, ?Z.eqb_refl; reflexivity.
Qed.

Lemma candidates_int n d k :
  1 <= k <= d ->
  candidates n 1 d k =
  if n mod 10 ^ (d - k) =? 0 then [(n / 10 ^ (d - k), d)]
  else [(n / 10 ^ (d - k), d);
        if n / 10 ^ (d - k) + 1 =? 10 ^ k then (10 ^ (k - 1), d + 1)
        else (n / 10 ^ (d - k) + 1, d)].
Proof.
  intros Hk. unfold candidates.
  rewrite (Z.max_r (k - d) 0), (Z.max_l (d - k) 0) by lia.
  now rewrite Z.pow_0_r, Z.mul_1_r, Z.mul_1_l.
Qed.

(** Below the number of significant digits of an integer [n], no
    decimal of [k] digits has the value [n]. *)
Lemma no_hit_int x n d k :
  double_int x = Some n -> 10 ^ (d - 1) <= n < 10 ^ d -> 10 ^ d < 2 ^ 53 -> 1 <= k <= d ->
  n mod 10 ^ (d - k) <> 0 ->
  pick n 1 d k (filter (round_trips x k) (candidates n 1 d k)) = None.
Proof.
  intros Hx Hn Hb Hk Hm. rewrite candidates_int by exact Hk.
  destruct (Z.eqb_spec (n mod 10 ^ (d - k)) 0) as [E|_]; [contradiction|].
  assert (Hsplit : 10 ^ d = 10 ^ k * 10 ^ (d - k)) by (rewrite <- Z.pow_add_r by lia; f_equal; lia).
  assert (Hsplit' : 10 ^ (d - 1) = 10 ^ (k - 1) * 10 ^ (d - k))
    by (rewrite <- Z.pow_add_r by lia; f_equal; lia).
  pose proof (Z.pow_pos_nonneg 10 (d - k) ltac:(lia) ltac:(lia)) as Hb0.
  pose proof (Z.pow_pos_nonneg 10 (k - 1) ltac:(lia) ltac:(lia)).
  pose proof (Z.div_mod n (10 ^ (d - k)) ltac:(lia)) as Hdm.
  pose proof (Z.mod_pos_bound n (10 ^ (d - k)) Hb0) as Hr.
  set (b := 10 ^ (d - k)) in *. set (lo := n / b) in *.
  assert (Hlo : 10 ^ (k - 1) <= lo < 10 ^ k) by nia.
  assert (Hk1 : 10 ^ k = 10 * 10 ^ (k - 1)) by (rewrite <- Z.pow_succ_r by lia; f_equal; lia).
  destruct (Z.eqb_spec (lo + 1) (10 ^ k)) as [Ec|Ec]; cbn [filter];
    (rewrite (round_trips_other x n lo d k) by (try exact Hx; try lia; nia)).
  - rewrite (round_trips_other x n (10 ^ (k - 1)) (d + 1) k); [reflexivity|exact Hx|lia|lia|..];
      replace (10 ^ (k - 1) * 10 ^ (d + 1 - k)) with (10 ^ d)
        by (rewrite <- Z.pow_add_r by lia; f_equal; lia); lia.
  - rewrite (round_trips_other x n (lo + 1) d k); [reflexivity|exact Hx|lia|lia|nia|nia].
Qed.

Lemma round_decimal_shift s j :
  0 < s -> 0 <= j -> round_decimal false s j = round_decimal false (s * 10 ^ j) 0.
Proof.
  intros Hs Hj. unfold round_decimal.
  pose proof (Z.pow_pos_nonneg 10 j ltac:(lia) Hj).
  destruct (Z.eqb_spec s 0), (Z.eqb_spec (s * 10 ^ j) 0); try lia.
  destruct (Z.leb_spec 0 j); [|lia]. now rewrite Z.pow_0_r, Z.mul_1_r.
Qed.

(** At [k] significant digits the integer itself is the decimal. *)
Lemma hit_int n d j s :
  n = s * 10 ^ j -> 0 < s -> 0 <= j < d ->
  pick n 1 d (d - j)
    (filter (round_trips (round_decimal false n 0) (d - j)) (candidates n 1 d (d - j))) =
  Some (s, d).
Proof.
  intros Hn Hs Hj. rewrite candidates_int by lia.
  replace (d - (d - j)) with j by lia.
  pose proof (Z.pow_pos_nonneg 10 j ltac:(lia) ltac:(lia)).
  rewrite Hn, Z.mod_mul, Z.div_mul by lia. cbn [Z.eqb filter].
  unfold round_trips. cbn [fst snd]. replace (d - (d - j)) with j by lia.
  rewrite round_decimal_shift, sf_eqb_refl by lia. reflexivity.
Qed.

Lemma mod_more_tens s j t :
  s mod 10 <> 0 -> 0 <= j < t -> (s * 10 ^ j) mod 10 ^ t <> 0.
Proof.
  intros Hs Hj E. apply Hs.
  replace (10 ^ t) with (10 ^ (t - j) * 10 ^ j) in E
    by (rewrite <- Z.pow_add_r by lia; f_equal; lia).
  rewrite Z.mul_mod_distr_r in E by (apply Z.pow_nonzero; lia).
  apply Z.mul_eq_0 in E as [E|E]; [|pose proof (Z.pow_pos_nonneg 10 j); lia].
  apply Z.mod_divide in E; [|apply Z.pow_nonzero; lia].
  apply Z.mod_divide; [lia|]. eapply Z.divide_trans; [|exact E].
  replace (t - j) with (Z.succ (t - j - 1)) by lia. rewrite Z.pow_succ_r by lia.
  apply Z.divide_factor_l.
Qed.

(** A JSON integer below [10^15] is printed as its decimal digits. *)
Lemma to_string_int (n : N) :
  Z.of_N n < 10 ^ 15 -> to_string (to_double (mk_jnumber false n 0)) = JsString.N_to_string n.
Proof.
  destruct n as [|p]; [reflexivity|]. intros Hp. cbn [Z.of_N] in Hp.
  unfold to_double, round_decimal at 1. cbn [num_neg num_mant num_exp Z.of_N Z.eqb Z.leb].
  rewrite Z.pow_0_r, Z.mul_1_r.
  destruct (to_double_safe_pos false p ltac:(lia)) as (m & e & Hr & He & Hm).
  change (binary_normalize prec emax (Zpos p) 0 false) with (binary_round prec emax false p 0).
  rewrite Hr, Z.leb_refl. unfold to_string. cbv beta iota. rewrite (ratio_int (Zpos p) m e) by lia.
  cbv beta iota zeta. rewrite dec_exponent_int by lia.
  pose proof (dec_len_spec (Zpos p) ltac:(lia)) as Hd.
  set (d := dec_len (Zpos p)) in *.
  destruct (strip_tens (Zpos p) ltac:(lia)) as (s & j & Hj & Hs & Hps & Hmod).
  assert (Hx : S754_finite false m e = round_decimal false (Zpos p) 0).
  { rewrite <- Hr. unfold round_decimal. cbn [Z.eqb Z.leb].
    now rewrite Z.pow_0_r, Z.mul_1_r. }
  pose proof (Z.pow_pos_nonneg 10 j ltac:(lia) Hj).
  assert (Hjd : j < d).
  { destruct (Z.lt_ge_cases j d) as [|Hge]; [assumption|].
    pose proof (Z.pow_le_mono_r 10 d j ltac:(lia) Hge). nia. }
  assert (Hd15 : d <= 15).
  { destruct (Z.le_gt_cases d 15) as [|Hgt]; [assumption|].
    pose proof (Z.pow_le_mono_r 10 15 (d - 1) ltac:(lia) ltac:(lia)). lia. }
  assert (Hb : 10 ^ d < 2 ^ 53).
  { pose proof (Z.pow_le_mono_r 10 d 15 ltac:(lia) Hd15). lia. }
  assert (Hc : shortest (S754_finite false m e) (Zpos p) 1 d 1 16 =
                shortest (S754_finite false m e) (Zpos p) 1 d (d - j)
                         (S (15 - Z.to_nat (d - j - 1)))).
  { rewrite <- (shortest_climb _ _ _ _ (d - j) (Z.to_nat (d - j - 1))).
    - f_equal; lia.
    - intros k Hk. rewrite Hx. apply no_hit_int; try lia.
      + rewrite <- Hx, <- Hr. exact (double_int_round_pos false p ltac:(lia)).
      + rewrite Hps. apply (mod_more_tens s j (d - k)); [exact Hmod | lia]. }
  rewrite Hc. cbn [shortest]. rewrite Hx, (hit_int (Zpos p) d j s) by (first [exact Hps | lia]).
  unfold layout. destruct (Z.leb_spec (d - j) d); [|lia].
  destruct (Z.leb_spec d 21); [|lia]. cbn [andb].
  replace (d - (d - j)) with j by lia. rewrite <- digits_of_zeros, <- Hps by lia.
  reflexivity.
Qed.

End NumberToString.
