(* ===== verification/Ether.v ===== *)
(** * [ethers.utils.parseEther]: decimal strings to wei

    [index.js] line 74 converts the clicked button's [value] ('0.01',
    '0.02' or '0.05', lines 107, 121, 135) with [ethers.utils.parseEther].
    That function is the ethers library's (v5, [@ethersproject/units]
    parseEther = parseUnits(v, 18) and [@ethersproject/bignumber]
    parseFixed); it is modelled from that code.  Its thrown errors are the
    [inl] values of [ether_error]; BigNumber values are unbounded
    integers ([Z]). *)

From Stdlib Require Import ZArith NArith String Ascii Bool List Lia.
From S2P Require Import Prelude JsString.
Import ListNotations.
Open Scope Z_scope.

Module Ether.

Inductive ether_error :=
| InvalidDecimalValue        (** the value does not match /^-?[0-9.]+$/ *)
| MissingValue               (** the value is '.' (after a '-') *)
| TooManyDecimalPoints       (** more than one '.' *)
| FractionExceedsDecimals.   (** more significant fraction digits than decimals *)

Definition c_dot : Z := 46.
Definition c_zero : Z := 48.
Definition c_minus : Z := 45.

(** /^-?[0-9.]+$/ *)
Definition matches_decimal (v : jstring) : bool :=
  let body := match v with
              | c :: r => if c =? c_minus then r else v
              | [] => []
              end in
  match body with
  | [] => false
  | _ => forallb (fun c => JsString.is_digit c || (c =? c_dot)) body
  end.

(** [String.prototype.split] on a one-character separator. *)
Fixpoint split_on (sep : Z) (s : jstring) : list jstring :=
  match s with
  | [] => [[]]
  | c :: r =>
      if c =? sep then [] :: split_on sep r
      else match split_on sep r with
           | p :: ps => (c :: p) :: ps
           | [] => [[c]]
           end
  end.

(** [while (fraction[fraction.length - 1] === "0") fraction = fraction.substring(0, fraction.length - 1)] *)
Fixpoint drop_zeros (rs : jstring) : jstring :=
  match rs with
  | c :: r => if c =? c_zero then drop_zeros r else rs
  | [] => []
  end.

Definition strip_trailing_zeros (f : jstring) : jstring := rev (drop_zeros (rev f)).

(** BigNumber.from of a string of decimal digits. *)
Definition bn_from_digits (s : jstring) : Z :=
  fold_left (fun acc c => acc * 10 + (c - c_zero)) s 0.

(** parseFixed(value, decimals) of @ethersproject/bignumber. *)
Definition parseFixed (value : jstring) (decimals : nat) : ether_error + Z :=
  if negb (matches_decimal value) then inl InvalidDecimalValue else
  let negative := match value with c :: _ => c =? c_minus | [] => false end in
  let value := if negative then tl value else value in
  if list_eq_dec Z.eq_dec value [c_dot] then inl MissingValue else
  let comps := split_on c_dot value in
  if (2 <? length comps)%nat then inl TooManyDecimalPoints else
  let whole := nth 0 comps [] in
  let fraction := nth 1 comps [] in
  let whole := match whole with [] => [c_zero] | _ => whole end in
  let fraction := match fraction with [] => [c_zero] | _ => fraction end in
  let fraction := strip_trailing_zeros fraction in
  if (decimals <? length fraction)%nat then inl FractionExceedsDecimals else
  let fraction := match fraction with [] => [c_zero] | _ => fraction end in
  let fraction := fraction ++ repeat c_zero (decimals - length fraction) in
  let wei := bn_from_digits whole * 10 ^ Z.of_nat decimals + bn_from_digits fraction in
  inr (if negative then - wei else wei).

(** parseEther(ether) = parseUnits(ether, 18) = parseFixed(ether, 18). *)
Definition parseEther (ether : jstring) : ether_error + Z := parseFixed ether 18.

(** ** Lemmas on digit strings *)

Definition digit_string (s : jstring) : Prop := Forall (fun c => JsString.is_digit c = true) s.

Lemma bn_from_digits_app s1 s2 :
  bn_from_digits (s1 ++ s2) =
  fold_left (fun acc c => acc * 10 + (c - c_zero)) s2 (bn_from_digits s1).
Proof. unfold bn_from_digits. now rewrite fold_left_app. Qed.

Lemma fold_digits_shift s a :
  fold_left (fun acc c => acc * 10 + (c - c_zero)) s a =
  a * 10 ^ Z.of_nat (length s) + fold_left (fun acc c => acc * 10 + (c - c_zero)) s 0.
Proof.
  revert a. induction s as [|c s IH]; intros a; cbn [fold_left length]; [lia|].
  rewrite (IH (a * 10 + (c - c_zero))), (IH (0 * 10 + (c - c_zero))).
  rewrite Nat2Z.inj_succ, Z.pow_succ_r by lia. lia.
Qed.

Lemma bn_from_digits_zeros s k :
  bn_from_digits (s ++ repeat c_zero k) = bn_from_digits s * 10 ^ Z.of_nat k.
Proof.
  rewrite bn_from_digits_app, fold_digits_shift, repeat_length.
  replace (fold_left _ (repeat c_zero k) 0) with 0; [lia|].
  induction k as [|k IH]; simpl; [reflexivity|].
  replace (0 * 10 + (c_zero - c_zero)) with 0 by lia. exact IH.
Qed.

Lemma drop_zeros_spec rs : exists k, rs = repeat c_zero k ++ drop_zeros rs.
Proof.
  induction rs as [|c r [k IH]]; simpl; [now exists 0%nat|].
  destruct (Z.eqb_spec c c_zero) as [->|].
  - exists (S k). simpl. now f_equal.
  - now exists 0%nat.
Qed.

Lemma strip_trailing_zeros_spec f :
  exists k, f = strip_trailing_zeros f ++ repeat c_zero k.
Proof.
  destruct (drop_zeros_spec (rev f)) as [k Hk]. exists k.
  unfold strip_trailing_zeros. remember (drop_zeros (rev f)) as d eqn:Hd.
  rewrite <- (rev_involutive f), Hk, rev_app_distr, rev_repeat. reflexivity.
Qed.

Lemma digit_not_dot c : JsString.is_digit c = true -> (c =? c_dot) = false.
Proof. unfold JsString.is_digit, c_dot. zbool_cases; easy || lia. Qed.

Lemma digit_not_minus c : JsString.is_digit c = true -> (c =? c_minus) = false.
Proof. unfold JsString.is_digit, c_minus. zbool_cases; easy || lia. Qed.

Lemma split_on_digits f : digit_string f -> split_on c_dot f = [f].
Proof.
  induction 1 as [|c f Hc Hf IH]; [reflexivity|].
  cbn. rewrite digit_not_dot by exact Hc. now rewrite IH.
Qed.

Lemma split_on_point w f :
  digit_string w -> digit_string f -> split_on c_dot (w ++ c_dot :: f) = [w; f].
Proof.
  intros Hw Hf. induction Hw as [|c w Hc Hw IH].
  - cbn [app split_on]. rewrite Z.eqb_refl. now rewrite split_on_digits.
  - cbn [app split_on]. rewrite digit_not_dot by exact Hc. now rewrite IH.
Qed.

Lemma strip_trailing_zeros_length f :
  (length (strip_trailing_zeros f) <= length f)%nat.
Proof.
  destruct (strip_trailing_zeros_spec f) as [k Hk].
  rewrite Hk at 2. rewrite length_app. lia.
Qed.

Lemma bn_zero : bn_from_digits [c_zero] = 0.
Proof. reflexivity. Qed.

(** The padded fraction has the value of the fraction scaled to 18
    digits. *)
Lemma fraction_value f (d : nat) :
  (length f <= d)%nat ->
  let fr := strip_trailing_zeros f in
  let fr := match fr with [] => [c_zero] | _ => fr end in
  bn_from_digits (fr ++ repeat c_zero (d - length fr)) =
  bn_from_digits f * 10 ^ Z.of_nat (d - length f).
Proof.
  intros Hl. cbv zeta. destruct (strip_trailing_zeros_spec f) as [k Hk].
  remember (strip_trailing_zeros f) as st eqn:Hst.
  rewrite bn_from_digits_zeros.
  assert (Hf : bn_from_digits f = bn_from_digits st * 10 ^ Z.of_nat k)
    by (rewrite Hk; apply bn_from_digits_zeros).
  assert (Hlen : length f = (length st + k)%nat) by (rewrite Hk, length_app, repeat_length; lia).
  rewrite Hf, <- Z.mul_assoc, <- Z.pow_add_r by lia.
  destruct st as [|c st'].
  - cbn. lia.
  - f_equal. f_equal. rewrite Hlen in Hl |- *. lia.
Qed.

(** An unsigned decimal with at most 18 fraction digits is converted
    exactly: whole * 10^18 + fraction * 10^(18 - digits). *)
Lemma parseEther_decimal w f :
  digit_string w -> digit_string f -> w <> [] \/ f <> [] -> (length f <= 18)%nat ->
  parseEther (w ++ c_dot :: f) =
  inr (bn_from_digits w * 10 ^ 18 + bn_from_digits f * 10 ^ Z.of_nat (18 - length f)).
Proof.
  intros Hw Hf Hne Hl. unfold digit_string in Hw, Hf. unfold parseEther, parseFixed.
  assert (Hm : matches_decimal (w ++ c_dot :: f) = true).
  { unfold matches_decimal.
    assert (Hall : forallb (fun c => JsString.is_digit c || (c =? c_dot)) (w ++ c_dot :: f) = true).
    { apply forallb_forall. intros c Hc. apply in_app_or in Hc as [Hc|[<-|Hc]].
      - rewrite Forall_forall in Hw. now rewrite (Hw c Hc).
      - apply orb_true_r.
      - rewrite Forall_forall in Hf. now rewrite (Hf c Hc). }
    destruct w as [|c w']; cbn [app] in *.
    - exact Hall.
    - inversion Hw as [|? ? Hc _]; subst. rewrite digit_not_minus by exact Hc. exact Hall. }
  rewrite Hm. cbn [negb].
  assert (Hneg : match w ++ c_dot :: f with c :: _ => c =? c_minus | [] => false end = false).
  { destruct w as [|c w']; [reflexivity|]. inversion Hw; subst. cbn. now apply digit_not_minus. }
  rewrite Hneg.
  destruct (list_eq_dec Z.eq_dec (w ++ c_dot :: f) [c_dot]) as [Heq|_].
  { exfalso. destruct w as [|c w']; cbn in Heq; [|destruct w'; discriminate].
    injection Heq as ->. destruct Hne; congruence. }
  rewrite split_on_point by assumption. cbn [length nth].
  change (2 <? 2)%nat with false. cbn beta iota.
  assert (Hsl : (length (strip_trailing_zeros (match f with [] => [c_zero] | _ => f end)) <= 18)%nat).
  { etransitivity; [apply strip_trailing_zeros_length|]. destruct f; cbn in *; lia. }
  destruct (Nat.ltb_spec 18 (length (strip_trailing_zeros (match f with [] => [c_zero] | _ => f end)))) as [Hc|_]; [lia|].
  f_equal. f_equal.
  - destruct w; reflexivity.
  - destruct f as [|c f'].
    + rewrite fraction_value by (cbn; lia). cbn. lia.
    + now rewrite fraction_value.
Qed.

(** More than 18 significant fraction digits are refused
    ([fractional component exceeds decimals]). *)
Lemma parseEther_underflow w f :
  digit_string w -> digit_string f -> (18 < length (strip_trailing_zeros f))%nat ->
  parseEther (w ++ c_dot :: f) = inl FractionExceedsDecimals.
Proof.
  intros Hw Hf Hl. unfold digit_string in Hw, Hf. unfold parseEther, parseFixed.
  assert (Hm : matches_decimal (w ++ c_dot :: f) = true).
  { unfold matches_decimal.
    assert (Hall : forallb (fun c => JsString.is_digit c || (c =? c_dot)) (w ++ c_dot :: f) = true).
    { apply forallb_forall. intros c Hc. apply in_app_or in Hc as [Hc|[<-|Hc]].
      - rewrite Forall_forall in Hw. now rewrite (Hw c Hc).
      - apply orb_true_r.
      - rewrite Forall_forall in Hf. now rewrite (Hf c Hc). }
    destruct w as [|c w']; cbn [app] in *.
    - exact Hall.
    - inversion Hw as [|? ? Hc _]; subst. rewrite digit_not_minus by exact Hc. exact Hall. }
  rewrite Hm. cbn [negb].
  assert (Hneg : match w ++ c_dot :: f with c :: _ => c =? c_minus | [] => false end = false).
  { destruct w as [|c w']; [reflexivity|]. inversion Hw; subst. cbn. now apply digit_not_minus. }
  rewrite Hneg.
  destruct f as [|c f']; [cbn in Hl; lia|].
  destruct (list_eq_dec Z.eq_dec (w ++ c_dot :: c :: f') [c_dot]) as [Heq|_].
  { exfalso. destruct w as [|c' w']; cbn in Heq; [discriminate|destruct w'; discriminate]. }
  rewrite split_on_point by assumption. cbn [length nth].
  change (2 <? 2)%nat with false. cbn beta iota.
  destruct (Nat.ltb_spec 18 (length (strip_trailing_zeros (c :: f')))) as [_|Hc]; [reflexivity|lia].
Qed.

End Ether.
