(* ===== verification/Wagmi.v ===== *)
(** * The wagmi contract bindings

    [index.js] lines 20-28 call [useContractWrite]; the page reads its
    [data] (the transaction of the last write, line 163), [isLoading]
    (which disables the mint buttons, lines 110, 124, 138) and calls its
    [writeAsync] (line 72).  The hook is the wagmi library's, built on a
    react-query mutation observer: the observer shows the state of the
    latest mutation only, a new call resets [data] to [undefined] and sets
    [isLoading], and the settlement of an older call no longer changes
    what the observer shows.  Module [ContractWrite] models that observer
    from the library's documented behaviour (spec section 6).

    Lines 30-48 call [useContractRead] twice; the second read passes
    [args: tokenData].  Module [ContractRead] states which results reach
    that observer: its react-query key holds the arguments, so only the
    result of the read for the current arguments is delivered. *)

From Stdlib Require Import ZArith NArith String List Lia.
From S2P Require Import Prelude.
Import ListNotations.

Module ContractWrite.

(** A submitted transaction as [writeAsync] resolves it. *)
Record tx := mk_tx { hash : jstring }.

Record observer := mk_observer {
  current : option nat;   (** the id of the latest mutation *)
  data : option tx;       (** [data]: [undefined] until that mutation succeeds *)
  isLoading : bool        (** [isLoading]: that mutation is in flight *)
}.

Definition init : observer := mk_observer None None false.

(** [writeAsync(...)] starts mutation [id]. *)
Definition start (id : nat) (_ : observer) : observer := mk_observer (Some id) None true.

Definition is_current (id : nat) (o : observer) : bool :=
  match current o with Some id' => Nat.eqb id id' | None => false end.

(** Mutation [id] succeeded with transaction [t]. *)
Definition succeed (id : nat) (t : tx) (o : observer) : observer :=
  if is_current id o then mk_observer (current o) (Some t) false else o.

(** Mutation [id] failed. *)
Definition fail (id : nat) (o : observer) : observer :=
  if is_current id o then mk_observer (current o) None false else o.

Lemma succeed_stale id t o : is_current id o = false -> succeed id t o = o.
Proof. unfold succeed. now intros ->. Qed.

Lemma fail_stale id o : is_current id o = false -> fail id o = o.
Proof. unfold fail. now intros ->. Qed.

(** The result of the mutation just started is recorded. *)
Lemma succeed_start id t o : succeed id t (start id o) = mk_observer (Some id) (Some t) false.
Proof. unfold succeed, is_current, start. cbn. now rewrite Nat.eqb_refl. Qed.

Lemma is_current_iff id o : is_current id o = true <-> current o = Some id.
Proof.
  unfold is_current. destruct (current o) as [c|]; [|split; discriminate].
  rewrite Nat.eqb_eq. split; congruence.
Qed.

(** A result never changes which mutation is current. *)
Lemma succeed_current id t o : current (succeed id t o) = current o.
Proof. unfold succeed. now destruct is_current. Qed.

Lemma fail_current id o : current (fail id o) = current o.
Proof. unfold fail. now destruct is_current. Qed.

(** The observer shows one of the four statuses of a react-query
    mutation: idle (nothing started), loading (the current mutation is in
    flight, no data), success (its transaction) or error (no data). *)
Definition wf (o : observer) : bool :=
  match current o, data o, isLoading o with
  | None, None, false => true
  | Some _, None, true => true
  | Some _, Some _, false => true
  | Some _, None, false => true
  | _, _, _ => false
  end.

Lemma wf_start id o : wf (start id o) = true.
Proof. reflexivity. Qed.

Lemma wf_succeed id t o : wf o = true -> wf (succeed id t o) = true.
Proof.
  unfold succeed. destruct (is_current id o) eqn:E; [|auto].
  apply is_current_iff in E. intros _. unfold wf. cbn. now rewrite E.
Qed.

Lemma wf_fail id o : wf o = true -> wf (fail id o) = true.
Proof.
  unfold fail. destruct (is_current id o) eqn:E; [|auto].
  apply is_current_iff in E. intros _. unfold wf. cbn. now rewrite E.
Qed.

End ContractWrite.

#[export] Hint Resolve ContractWrite.wf_start ContractWrite.wf_succeed ContractWrite.wf_fail : nft.

Module ContractRead.

(** Whether the observer of a read with arguments [args] is given the
    result of the read for argument [k]: only for its own key; with no
    argument ([tokenData] still [undefined]) the call reverts and gives no
    result. *)
Definition delivers (args : option N) (k : N) : bool :=
  match args with Some a => N.eqb a k | None => false end.

Lemma delivers_spec args k : delivers args k = true <-> args = Some k.
Proof.
  unfold delivers. destruct args as [a|]; [|split; discriminate].
  rewrite N.eqb_eq. split; congruence.
Qed.

End ContractRead.
