(* ===== verification/Runtime.v ===== *)
(** * The library functions the page calls, as an interface

    The page ([Page.v]) calls three functions it does not define:
    [window.atob] (line 61), [JSON.parse] (line 61) and
    [ethers.utils.parseEther] (line 74).  [Runtime] states what the page
    needs of them: each returns a value or throws ([None]).  The page's
    state-machine theorems are proved for every [Runtime]; the decoding
    theorems use the instance [browser], built from the models of
    [Base64.v], [Json.v] and [Ether.v].  [RuntimeLaws] records the
    properties of those models that the page's decoding theorems use, and
    [browser_laws] discharges them. *)

From Stdlib Require Import ZArith NArith String List Lia.
From S2P Require Import Prelude JsString Base64 Json Ether.
Import ListNotations.

Class Runtime := {
  rt_atob : jstring -> option jstring;
  rt_json_parse : jstring -> option Json.jvalue;
  rt_parse_ether : jstring -> option Z
}.

#[export] Instance browser : Runtime := {|
  rt_atob := Base64.atob;
  rt_json_parse := Json.json_parse;
  rt_parse_ether := fun s =>
    match Ether.parseEther s with inr wei => Some wei | inl _ => None end
|}.

(** What the decoding theorems rely on: [atob] inverts base64 encoding of
    bytes. *)
Class RuntimeLaws (R : Runtime) := {
  rt_atob_encode : forall bytes, Forall is_byte bytes ->
    rt_atob (Base64.b64_encode bytes) = Some bytes
}.

#[export] Instance browser_laws : RuntimeLaws browser.
Proof. constructor. exact Base64.decode_after_encode. Qed.
