(* ===== verification/Page.v ===== *)
(** * The mint page: [Home] of src/my-app/pages/index.js

    The component's state is [state]: its four [useState] cells (record
    [ui], lines 15-18), the values its hooks report (wallet status of
    [useAccount], line 13; the write observer of [useContractWrite], lines
    20-28; the [totalSupply] and [tokenURI] reads of [useContractRead],
    lines 30-48), and the bookkeeping of what the page has done to the
    outside world: the payment values of the write calls it submitted, the
    number of [refetchTokenData()] calls, and the [console.log] lines.

    [mintToken] (lines 68-84) is an async function with two await points;
    a call that is suspended at one of them is a [task].  Several calls can
    be suspended at once (nothing in the page prevents a second click while
    a first call waits for its confirmation), so the tasks are a list.

    The page reacts to [event]s: a change of the wallet status, a new
    result of either read, a click on a mint or close button, and the
    settlement of the promise a task waits on.  [step] is the whole
    reaction, effects included; it is [None] when the event cannot happen
    (a button that is not rendered or disabled, a promise nobody waits on)
    or when the last render threw, which unmounts the page. *)

From Stdlib Require Import ZArith NArith String Bool List Lia.
From S2P Require Import Prelude JsString Base64 Json Ether Wagmi Runtime.
Import ListNotations.
Open Scope Z_scope.

Module Page.

Import Json.

(** ** Configuration (lines 11, 101-141) *)

Definition CONTRACT_ADDRESS : jstring := js "0x8ee52230e9bbb004edae82a0379ea1ba0e1d54f4".

Inductive tier := Tier0 | Tier1 | Tier2.

(** The [value] attribute of each tier's button. *)
Definition tier_value (t : tier) : jstring :=
  match t with
  | Tier0 => js "0.01"
  | Tier1 => js "0.02"
  | Tier2 => js "0.05"
  end.

Definition tier_image (t : tier) : jstring :=
  match t with
  | Tier0 => js "/nfts/0_basic.svg"
  | Tier1 => js "/nfts/1_medium.svg"
  | Tier2 => js "/nfts/2_premium.svg"
  end.

(** ** State *)

(** The [useState] cells; [latestNFTMinted] starts as the number 0. *)
Record ui := mk_ui {
  isUserConnected : bool;
  latestNFTMinted : jvalue;
  modalShow : bool;
  isMinting : bool
}.

Definition json_zero : jvalue := JNumber (mk_jnumber false 0 0).

Definition ui_init : ui := mk_ui false json_zero false false.

Definition setIsUserConnected (b : bool) (u : ui) : ui :=
  mk_ui b (latestNFTMinted u) (modalShow u) (isMinting u).
Definition setLatestNFTMinted (v : jvalue) (u : ui) : ui :=
  mk_ui (isUserConnected u) v (modalShow u) (isMinting u).
Definition setModalShow (b : bool) (u : ui) : ui :=
  mk_ui (isUserConnected u) (latestNFTMinted u) b (isMinting u).
Definition setIsMinting (b : bool) (u : ui) : ui :=
  mk_ui (isUserConnected u) (latestNFTMinted u) (modalShow u) b.

(** Where a suspended [mintToken] call waits: on [mint(...)] (line 72) or
    on [mintTxn.wait()] (line 77). *)
Inductive mint_phase :=
| AwaitMint
| AwaitWait (t : ContractWrite.tx).

(** A suspended call of [mintToken]: the mutation it waits on, where it
    waits, and the value [mintData] had in the render whose button was
    clicked, which its closure logs at line 78. *)
Record task := mk_task {
  task_id : nat;
  task_phase : mint_phase;
  task_mintData : option ContractWrite.tx
}.

(** The [console.log] calls of lines 54, 64, 78 and 82. *)
Inductive log_entry :=
| LogConnectError
| LogTokenURIError
| LogMintData (d : option ContractWrite.tx)
| LogMintError.

Record state := mk_state {
  ui_st : ui;
  isConnected : bool;
  write : ContractWrite.observer;
  tokenData : option N;
  tokenURI : option jstring;
  refetches : nat;
  submitted : list Z;
  tasks : list task;
  next_id : nat;
  console : list log_entry
}.

Definition init : state :=
  mk_state ui_init false ContractWrite.init None None 0 [] [] 0 [].

Definition map_ui (f : ui -> ui) (s : state) : state :=
  mk_state (f (ui_st s)) (isConnected s) (write s) (tokenData s) (tokenURI s)
    (refetches s) (submitted s) (tasks s) (next_id s) (console s).
Definition map_write (f : ContractWrite.observer -> ContractWrite.observer) (s : state) : state :=
  mk_state (ui_st s) (isConnected s) (f (write s)) (tokenData s) (tokenURI s)
    (refetches s) (submitted s) (tasks s) (next_id s) (console s).
Definition set_isConnected (b : bool) (s : state) : state :=
  mk_state (ui_st s) b (write s) (tokenData s) (tokenURI s)
    (refetches s) (submitted s) (tasks s) (next_id s) (console s).
Definition set_tokenData (d : option N) (s : state) : state :=
  mk_state (ui_st s) (isConnected s) (write s) d (tokenURI s)
    (refetches s) (submitted s) (tasks s) (next_id s) (console s).
Definition set_tokenURI (u : option jstring) (s : state) : state :=
  mk_state (ui_st s) (isConnected s) (write s) (tokenData s) u
    (refetches s) (submitted s) (tasks s) (next_id s) (console s).
(** A new [totalSupply] result.  It is the [args] of the [tokenURI] read
    (line 46), whose query key changes with it: until the read for the
    new key returns, its [data] is [undefined] (react-query's
    [keepPreviousData] is off). *)
Definition supply_read (n : N) (s : state) : state :=
  set_tokenURI None (set_tokenData (Some n) s).
Definition refetchTokenData (s : state) : state :=
  mk_state (ui_st s) (isConnected s) (write s) (tokenData s) (tokenURI s)
    (S (refetches s)) (submitted s) (tasks s) (next_id s) (console s).
(** A write call carrying [wei] as payment goes out as mutation [next_id];
    the suspended call keeps the [mintData] of the render it came from. *)
Definition submit_write (wei : Z) (s : state) : state :=
  mk_state (ui_st s) (isConnected s) (ContractWrite.start (next_id s) (write s))
    (tokenData s) (tokenURI s) (refetches s) (submitted s ++ [wei])
    (tasks s ++ [mk_task (next_id s) AwaitMint (ContractWrite.data (write s))])
    (S (next_id s)) (console s).
Definition set_tasks (ts : list task) (s : state) : state :=
  mk_state (ui_st s) (isConnected s) (write s) (tokenData s) (tokenURI s)
    (refetches s) (submitted s) ts (next_id s) (console s).
Definition console_log (e : log_entry) (s : state) : state :=
  mk_state (ui_st s) (isConnected s) (write s) (tokenData s) (tokenURI s)
    (refetches s) (submitted s) (tasks s) (next_id s) (console s ++ [e]).

Fixpoint phase_of (id : nat) (ts : list task) : option mint_phase :=
  match ts with
  | [] => None
  | t :: ts' => if Nat.eqb (task_id t) id then Some (task_phase t) else phase_of id ts'
  end.

Definition resume (id : nat) (p : mint_phase) (ts : list task) : list task :=
  map (fun t => if Nat.eqb (task_id t) id then mk_task id p (task_mintData t) else t) ts.

(** The [mintData] captured by the closure of call [id]. *)
Fixpoint closure_mintData (id : nat) (ts : list task) : option ContractWrite.tx :=
  match ts with
  | [] => None
  | t :: ts' => if Nat.eqb (task_id t) id then task_mintData t else closure_mintData id ts'
  end.

Definition finish (id : nat) (ts : list task) : list task :=
  filter (fun t => negb (Nat.eqb (task_id t) id)) ts.

(** ** Effects and handlers *)

(** Lines 50-56: [setIsUserConnected(isConnected)]. *)
Definition connection_effect (s : state) : state :=
  map_ui (setIsUserConnected (isConnected s)) s.

(** Line 61: [JSON.parse(window.atob(tokenURI.substring(tokenURI.indexOf(',') + 1)))];
    [None] when [atob] or [JSON.parse] throws. *)
Definition decode_token_uri `{Runtime} (u : jstring) : option jvalue :=
  match rt_atob (JsString.substring u (JsString.indexOf u [44] + 1)) with
  | Some bin => rt_json_parse bin
  | None => None
  end.

(** Lines 58-66: decode a truthy [tokenURI] into [latestNFTMinted]; a
    failure is logged and leaves the state as it was. *)
Definition token_effect `{Runtime} (s : state) : state :=
  if JsString.truthy (tokenURI s) then
    match tokenURI s with
    | Some u =>
        match decode_token_uri u with
        | Some v => map_ui (setLatestNFTMinted v) s
        | None => console_log LogTokenURIError s
        end
    | None => s
    end
  else s.

(** Lines 68-76, up to the first await: set the flags, convert the
    price, submit the write and suspend.  A [parseEther] that throws is
    caught (line 81) after the two flags are set. *)
Definition mintToken_start `{Runtime} (value : jstring) (s : state) : state :=
  let s1 := map_ui (fun u => setModalShow true (setIsMinting true u)) s in
  match rt_parse_ether value with
  | Some wei => submit_write wei s1
  | None => console_log LogMintError s1
  end.

(** Line 72 resumes: [mint(...)] resolved with [t]; the call now awaits
    [t.wait()]. *)
Definition mintToken_minted (id : nat) (t : ContractWrite.tx) (s : state) : state :=
  set_tasks (resume id (AwaitWait t) (tasks s)) (map_write (ContractWrite.succeed id t) s).

(** Line 72 rejects: caught and logged (lines 81-83). *)
Definition mintToken_mint_failed (id : nat) (s : state) : state :=
  console_log LogMintError (set_tasks (finish id (tasks s)) (map_write (ContractWrite.fail id) s)).

(** Line 77 resumes: log the mint data, [refetchTokenData()],
    [setIsMinting(false)] (lines 78-80). *)
Definition mintToken_confirmed (id : nat) (s : state) : state :=
  let s1 := console_log (LogMintData (closure_mintData id (tasks s))) s in
  let s2 := refetchTokenData s1 in
  set_tasks (finish id (tasks s2)) (map_ui (setIsMinting false) s2).

(** Line 77 rejects: caught and logged. *)
Definition mintToken_wait_failed (id : nat) (s : state) : state :=
  console_log LogMintError (set_tasks (finish id (tasks s)) s).

(** Line 167: the Close button. *)
Definition close_modal (s : state) : state := map_ui (setModalShow false) s.

(** ** Render (lines 86-180)

    [None]: the render throws a TypeError (a property read on [null] or
    [undefined]), which unmounts the page. *)

Inductive modal_view :=
| ModalMinting
| ModalSuccess (name image : option jvalue) (opensea polygonscan : jstring).

Inductive view :=
| ConnectPrompt
| TierCards (disabled : bool) (modal : option modal_view).

Definition opensea_url (td : option N) : jstring :=
  js "https://testnets.opensea.io/assets/mumbai/" ++ CONTRACT_ADDRESS ++ js "/"
  ++ JsString.template_N td.

Definition polygonscan_url (h : jstring) : jstring :=
  js "https://mumbai.polygonscan.com/tx/" ++ h.

(** What React does with [{x}] as a child (line 153,
    [<h3>{latestNFTMinted.name}</h3>]): strings and numbers become text,
    booleans, [null] and [undefined] render nothing, an array renders each
    element, and an object throws "Objects are not valid as a React
    child". *)
Fixpoint renderable (v : jvalue) : bool :=
  match v with
  | JObject _ => false
  | JArray vs =>
      (fix all (l : list jvalue) : bool :=
         match l with [] => true | x :: r => renderable x && all r end) vs
  | _ => true
  end.

Definition child_ok (o : option jvalue) : bool :=
  match o with Some v => renderable v | None => true end.

Definition render_modal (s : state) : option (option modal_view) :=
  if modalShow (ui_st s) then
    if isMinting (ui_st s) then Some (Some ModalMinting)
    else
      let v := latestNFTMinted (ui_st s) in
      match get_prop v (js "name"), get_prop v (js "image"), ContractWrite.data (write s) with
      | Some n, Some i, Some t =>
          if child_ok n then
            Some (Some (ModalSuccess n i (opensea_url (tokenData s))
                                     (polygonscan_url (ContractWrite.hash t))))
          else None
      | _, _, _ => None
      end
  else Some None.

(** Metadata the success modal can show: it has a [name] (it is not
    [null]) and that [name] is a value React can render. *)
Definition metadata_ok (v : jvalue) : bool :=
  match get_prop v (js "name") with Some n => child_ok n | None => false end.

Definition render (s : state) : option view :=
  if isUserConnected (ui_st s) then
    match render_modal s with
    | Some m => Some (TierCards (ContractWrite.isLoading (write s)) m)
    | None => None
    end
  else Some ConnectPrompt.

(** ** Events and the step function *)

Inductive event :=
| WalletStatus (b : bool)
| TotalSupplyRead (n : N)
| TokenURIRead (n : N) (u : jstring)
| ClickMint (t : tier)
| MintResolved (id : nat) (t : ContractWrite.tx)
| MintRejected (id : nat)
| WaitResolved (id : nat)
| WaitRejected (id : nat)
| ClickClose.

Definition same_N (a b : option N) : bool :=
  match a, b with
  | Some x, Some y => N.eqb x y
  | None, None => true
  | _, _ => false
  end.

Definition same_str (a b : option jstring) : bool :=
  match a, b with
  | Some x, Some y => if list_eq_dec Z.eq_dec x y then true else false
  | None, None => true
  | _, _ => false
  end.

(** An effect runs when one of its dependencies changed. *)
Definition step `{Runtime} (s : state) (e : event) : option state :=
  match render s with
  | None => None
  | Some v =>
      match e with
      | WalletStatus b =>
          Some (if Bool.eqb b (isConnected s) then s
                else connection_effect (set_isConnected b s))
      | TotalSupplyRead n =>
          Some (if same_N (Some n) (tokenData s) then s
                else token_effect (supply_read n s))
      | TokenURIRead n u =>
          Some (if ContractRead.delivers (tokenData s) n && negb (same_str (Some u) (tokenURI s))
                then token_effect (set_tokenURI (Some u) s) else s)
      | ClickMint t =>
          match v with
          | TierCards false _ => Some (mintToken_start (tier_value t) s)
          | _ => None
          end
      | MintResolved id t =>
          match phase_of id (tasks s) with
          | Some AwaitMint => Some (mintToken_minted id t s)
          | _ => None
          end
      | MintRejected id =>
          match phase_of id (tasks s) with
          | Some AwaitMint => Some (mintToken_mint_failed id s)
          | _ => None
          end
      | WaitResolved id =>
          match phase_of id (tasks s) with
          | Some (AwaitWait _) => Some (mintToken_confirmed id s)
          | _ => None
          end
      | WaitRejected id =>
          match phase_of id (tasks s) with
          | Some (AwaitWait _) => Some (mintToken_wait_failed id s)
          | _ => None
          end
      | ClickClose =>
          match v with
          | TierCards _ (Some (ModalSuccess _ _ _ _)) => Some (close_modal s)
          | _ => None
          end
      end
  end.

Fixpoint run `{Runtime} (s : state) (es : list event) : option state :=
  match es with
  | [] => Some s
  | e :: es' =>
      match step s e with
      | Some s' => run s' es'
      | None => None
      end
  end.

Inductive reachable `{Runtime} : state -> Prop :=
| reach_init : reachable init
| reach_step s e s' : reachable s -> step s e = Some s' -> reachable s'.

(** ** Lemmas on the task list *)

Lemma phase_of_app_fresh ts n p d id :
  ~ In n (map task_id ts) ->
  phase_of id (ts ++ [mk_task n p d]) = if Nat.eqb n id then Some p else phase_of id ts.
Proof.
  induction ts as [|k ts IH]; intros Hn; cbn; [now destruct (Nat.eqb n id)|].
  destruct (Nat.eqb_spec (task_id k) id) as [<-|Hne].
  - destruct (Nat.eqb_spec n (task_id k)); [exfalso; apply Hn; now left|reflexivity].
  - apply IH. intros H. apply Hn. now right.
Qed.

Lemma phase_of_app ts k id :
  phase_of id (ts ++ [k]) =
  match phase_of id ts with
  | Some p => Some p
  | None => if Nat.eqb (task_id k) id then Some (task_phase k) else None
  end.
Proof.
  induction ts as [|k' ts IH]; cbn; [reflexivity|].
  destruct (Nat.eqb (task_id k') id); [reflexivity | exact IH].
Qed.

Lemma phase_of_resume ts id p j :
  phase_of j (resume id p ts) =
  if Nat.eqb id j then match phase_of j ts with Some _ => Some p | None => None end
  else phase_of j ts.
Proof.
  unfold resume. induction ts as [|k ts IH]; cbn; [now destruct (Nat.eqb id j)|].
  rewrite IH. destruct (Nat.eqb_spec (task_id k) id) as [Hk|Hk]; cbn;
    nat_eqb_cases; subst; try congruence; reflexivity.
Qed.

Lemma phase_of_absent ts id : ~ In id (map task_id ts) -> phase_of id ts = None.
Proof.
  induction ts as [|k ts IH]; intros Hn; cbn; [reflexivity|].
  destruct (Nat.eqb_spec (task_id k) id); [exfalso; apply Hn; now left|].
  apply IH. intros H. apply Hn. now right.
Qed.

Lemma closure_mintData_resume ts id p j :
  closure_mintData j (resume id p ts) = closure_mintData j ts.
Proof.
  unfold resume. induction ts as [|[kid kp kd] ts IH]; cbn; [reflexivity|].
  destruct (Nat.eqb_spec kid id) as [<-|]; cbn; now rewrite IH.
Qed.

Lemma closure_mintData_app_fresh ts n p d :
  ~ In n (map task_id ts) -> closure_mintData n (ts ++ [mk_task n p d]) = d.
Proof.
  induction ts as [|k ts IH]; intros Hn; cbn; [now rewrite Nat.eqb_refl|].
  destruct (Nat.eqb_spec (task_id k) n); [exfalso; apply Hn; now left|].
  apply IH. intros H. apply Hn. now right.
Qed.

(** ** Lemmas on the handlers *)

Ltac step_cases H :=
  unfold step in H;
  match type of H with
  | match ?r with _ => _ end = _ =>
      let v := fresh "v" in let Hr := fresh "Hr" in
      destruct r as [v|] eqn:Hr; [|discriminate]
  end.

Section Handlers.
Context `{RT : Runtime}.

(** What each handler leaves alone. *)
Lemma token_effect_frame s :
  let s' := token_effect s in
  isUserConnected (ui_st s') = isUserConnected (ui_st s) /\
  modalShow (ui_st s') = modalShow (ui_st s) /\
  isMinting (ui_st s') = isMinting (ui_st s) /\
  write s' = write s /\ refetches s' = refetches s /\ submitted s' = submitted s /\
  tasks s' = tasks s /\ next_id s' = next_id s /\
  tokenData s' = tokenData s /\ tokenURI s' = tokenURI s.
Proof.
  cbv zeta. unfold token_effect.
  destruct (JsString.truthy (tokenURI s)); [|repeat split].
  destruct (tokenURI s) as [u|] eqn:Hu; [|repeat split].
  destruct (decode_token_uri u); repeat split; cbn.
  all: congruence.
Qed.

Lemma token_effect_decoded s u v :
  tokenURI s = Some u -> u <> [] -> decode_token_uri u = Some v ->
  ui_st (token_effect s) = setLatestNFTMinted v (ui_st s).
Proof.
  intros Hu Hne Hd. unfold token_effect. rewrite Hu.
  destruct u as [|c u']; [congruence|]. cbn. now rewrite Hd.
Qed.

Lemma token_effect_failed s u :
  tokenURI s = Some u -> decode_token_uri u = None -> ui_st (token_effect s) = ui_st s.
Proof.
  intros Hu Hd. unfold token_effect. rewrite Hu.
  destruct (JsString.truthy (Some u)); [|reflexivity]. now rewrite Hd.
Qed.

Lemma metadata_ok_props v :
  metadata_ok v = true ->
  exists n i, get_prop v (js "name") = Some n /\ child_ok n = true /\
              get_prop v (js "image") = Some i.
Proof.
  unfold metadata_ok. destruct v; cbn; try discriminate; eauto.
Qed.

Lemma same_str_eq a b : same_str a b = true -> a = b.
Proof.
  destruct a as [x|], b as [y|]; cbn; try congruence.
  destruct (list_eq_dec Z.eq_dec x y); congruence.
Qed.

Lemma step_some s e s' : step s e = Some s' -> exists v, render s = Some v.
Proof. unfold step. destruct (render s); [eauto | discriminate]. Qed.

(** The events read from the outside world run the effect or nothing. *)
Lemma step_wallet s b s' :
  step s (WalletStatus b) = Some s' -> s' = s \/ s' = connection_effect (set_isConnected b s).
Proof.
  unfold step. destruct (render s); [|discriminate]. intros H. injection H as <-.
  match goal with |- context [if ?c then _ else _] => destruct c end; auto.
Qed.

Lemma step_supply s n s' :
  step s (TotalSupplyRead n) = Some s' -> s' = s \/ s' = token_effect (supply_read n s).
Proof.
  unfold step. destruct (render s); [|discriminate]. intros H. injection H as <-.
  match goal with |- context [if ?c then _ else _] => destruct c end; auto.
Qed.

Lemma step_uri s n u s' :
  step s (TokenURIRead n u) = Some s' ->
  s' = s \/ (tokenData s = Some n /\ s' = token_effect (set_tokenURI (Some u) s)).
Proof.
  unfold step. destruct (render s); [|discriminate]. intros H. injection H as <-.
  destruct (ContractRead.delivers (tokenData s) n) eqn:E; cbn; [|auto].
  apply ContractRead.delivers_spec in E.
  match goal with |- context [if ?c then _ else _] => destruct c end; auto.
Qed.

Lemma refetches_finish_ui id f s :
  refetches (set_tasks (finish id (tasks s)) (map_ui f s)) = refetches s.
Proof. reflexivity. Qed.

(** Unfold one step into the handler it runs. *)
(** The render is the connect prompt exactly when [isUserConnected] is
    false. *)
Lemma render_connect_prompt_iff s :
  render s = Some ConnectPrompt <-> isUserConnected (ui_st s) = false.
Proof.
  unfold render. destruct (isUserConnected (ui_st s)); [|tauto].
  destruct (render_modal s); split; congruence.
Qed.

(** C4: [refetchTokenData()] runs exactly once per confirmed mint and on
    no other event. *)
Theorem step_refetches s e s' :
  step s e = Some s' ->
  refetches s' = (refetches s + match e with WaitResolved _ => 1 | _ => 0 end)%nat.
Proof.
  intros H. step_cases H.
  destruct e; repeat case_match_in H; try discriminate; inv H;
    try (cbn; lia);
    try (destruct (token_effect_frame (supply_read n s)) as (_&_&_&_&->&_); cbn; lia);
    try (destruct (token_effect_frame (set_tokenURI (Some u) s)) as (_&_&_&_&->&_); cbn; lia).
  unfold mintToken_start. destruct rt_parse_ether; cbn; lia.
Qed.

(** C10: the modal leaves the "Minting..." state only when a transaction
    confirmation resolves ([mintTxn.wait()], line 77). *)
Theorem minting_ends_only_on_confirmation s e s' :
  step s e = Some s' -> isMinting (ui_st s) = true -> isMinting (ui_st s') = false ->
  exists id, e = WaitResolved id.
Proof.
  intros H Hm Hm'. step_cases H.
  destruct e; repeat case_match_in H; try discriminate; inv H; eauto; exfalso;
    try (cbn in Hm'; congruence).
  - destruct (token_effect_frame (set_tokenURI (Some u) s)) as (_&_&Hi&_). cbn in *. congruence.
  - unfold mintToken_start in Hm'. destruct rt_parse_ether; cbn in Hm'; congruence.
Qed.

(** C18: the Close button exists only in the success modal: a click on it
    there hides the modal and leaves the tier cards as they were, and in
    every other view (the connect prompt, the cards alone, the
    "Minting..." modal) there is nothing to click. *)
Theorem close_modal_to_idle s v :
  render s = Some v ->
  match v with
  | TierCards d (Some (ModalSuccess _ _ _ _)) =>
      step s ClickClose = Some (close_modal s) /\ render (close_modal s) = Some (TierCards d None)
  | _ => step s ClickClose = None
  end.
Proof.
  intros Hr. destruct v as [|d [[|n i o p]|]]; unfold step; rewrite Hr; try reflexivity.
  split; [reflexivity|]. revert Hr. unfold render, render_modal. cbn.
  destruct (isUserConnected (ui_st s)); [|discriminate].
  destruct (modalShow (ui_st s)); [|discriminate].
  destruct (isMinting (ui_st s)); [discriminate|].
  repeat case_match_goal; congruence.
Qed.

Lemma step_uri_decode_failed s n u v :
  render s = Some v -> decode_token_uri u = None ->
  exists s', step s (TokenURIRead n u) = Some s' /\ ui_st s' = ui_st s.
Proof.
  intros Hr Hd. unfold step. rewrite Hr. eexists. split; [reflexivity|].
  destruct (_ && _); [|reflexivity].
  now rewrite (token_effect_failed _ u).
Qed.

(** C12: a token URI that does not decode (no valid base64 payload, or no
    JSON inside) is logged and leaves the page's state cells unchanged;
    no exception escapes the update. *)
Theorem token_uri_failure_keeps_ui s n u v :
  render s = Some v -> decode_token_uri u = None ->
  exists s', step s (TokenURIRead n u) = Some s' /\ ui_st s' = ui_st s.
Proof. exact (step_uri_decode_failed s n u v). Qed.

(** C21: a token URI with no comma is not rejected: [indexOf] gives -1,
    [substring(0)] is the whole string, so a bare base64 payload with no
    [data:] prefix at all is decoded and parsed like a data URI, for every
    runtime whose [atob] inverts base64. *)
Theorem no_comma_uri_decoded_whole {L : RuntimeLaws RT} bytes :
  Forall is_byte bytes ->
  decode_token_uri (Base64.b64_encode bytes) = rt_json_parse bytes.
Proof.
  intros Hb. unfold decode_token_uri.
  rewrite JsString.indexOf_absent by (now apply Base64.b64_encode_no_comma).
  rewrite JsString.substring_0. now rewrite rt_atob_encode by exact Hb.
Qed.

End Handlers.

Lemma no_comma_uri_decoded_whole_witness :
  @decode_token_uri browser (Base64.b64_encode (js "{}")) = Json.json_parse (js "{}").
Proof. exact (@no_comma_uri_decoded_whole browser browser_laws (js "{}") (js_bytes _)). Defined.

(** ** The tier prices in wei *)

Definition tier_wei (t : tier) : Z :=
  match t with
  | Tier0 => 10000000000000000
  | Tier1 => 20000000000000000
  | Tier2 => 50000000000000000
  end.

(** C3: a click on a tier's button submits one write call whose payment
    is the tier's price in wei (0.01 ether is 10^16 wei), and shows the
    modal in its "Minting..." state with the buttons disabled. *)
Theorem click_submits_tier_price s t s' :
  @step browser s (ClickMint t) = Some s' ->
  submitted s' = submitted s ++ [tier_wei t] /\
  isMinting (ui_st s') = true /\ modalShow (ui_st s') = true /\
  ContractWrite.isLoading (write s') = true.
Proof.
  intros H. unfold step in H. destruct (render s) as [v|]; [|discriminate].
  destruct v as [|[] m]; try discriminate. inv H.
  assert (Hp : Ether.parseEther (tier_value t) = inr (tier_wei t))
    by (destruct t; vm_compute; reflexivity).
  unfold mintToken_start. cbn [rt_parse_ether browser]. rewrite Hp.
  cbn. auto.
Qed.

(** C28: for a button whose [value] is an unsigned decimal with at most
    18 fraction digits, [mintToken] submits exactly that many ether in wei:
    whole * 10^18 + fraction * 10^(18 - digits). *)
Theorem mintToken_start_decimal s w f :
  Ether.digit_string w -> Ether.digit_string f -> w <> [] \/ f <> [] -> (length f <= 18)%nat ->
  submitted (@mintToken_start browser (w ++ Ether.c_dot :: f) s) =
  submitted s ++ [Ether.bn_from_digits w * 10 ^ 18 +
                  Ether.bn_from_digits f * 10 ^ Z.of_nat (18 - length f)].
Proof.
  intros Hw Hf Hne Hl. unfold mintToken_start. cbn [rt_parse_ether browser].
  now rewrite Ether.parseEther_decimal.
Qed.

(** The page after the wallet reports a connection. *)
Definition demo_connected : state := connection_effect (set_isConnected true init).

(** The connected page after [totalSupply] read 1. *)
Definition demo_supplied : state := supply_read 1 demo_connected.

(** A mint of tier 0 after the connection: the write was submitted, then
    resolved with [demo_tx], then confirmed. *)
Definition demo_tx : ContractWrite.tx := ContractWrite.mk_tx (js "0xabc").
Definition demo_minting : state := @mintToken_start browser (tier_value Tier0) demo_connected.
Definition demo_minted : state := mintToken_minted 0 demo_tx demo_minting.
Definition demo_confirmed : state := mintToken_confirmed 0 demo_minted.

Lemma step_refetches_witness :
  refetches demo_confirmed = (refetches demo_minted + 1)%nat.
Proof. exact (@step_refetches browser demo_minted (WaitResolved 0) _ eq_refl). Defined.

Lemma minting_ends_only_on_confirmation_witness : exists id, WaitResolved 0 = WaitResolved id.
Proof.
  exact (@minting_ends_only_on_confirmation browser demo_minted (WaitResolved 0) _
           eq_refl eq_refl eq_refl).
Defined.

Lemma close_modal_to_idle_witness :
  @step browser demo_confirmed ClickClose = Some (close_modal demo_confirmed) /\
  render (close_modal demo_confirmed) = Some (TierCards false None).
Proof. exact (@close_modal_to_idle browser demo_confirmed _ eq_refl). Defined.

Lemma token_uri_failure_keeps_ui_witness :
  exists s', @step browser demo_supplied (TokenURIRead 1 (js "data:,%%")) = Some s' /\
             ui_st s' = ui_st demo_supplied.
Proof.
  exact (@token_uri_failure_keeps_ui browser demo_supplied 1 (js "data:,%%") _ eq_refl eq_refl).
Defined.

Lemma mintToken_start_decimal_witness :
  submitted (@mintToken_start browser (js "0.01") demo_connected) =
  [] ++ [0 * 10 ^ 18 + 1 * 10 ^ 16].
Proof.
  exact (mintToken_start_decimal demo_connected (js "0") (js "01")
           ltac:(repeat constructor) ltac:(repeat constructor)
           ltac:(left; discriminate) ltac:(cbn; lia)).
Defined.

Lemma click_submits_tier_price_witness :
  exists s', @step browser demo_connected (ClickMint Tier0) = Some s' /\
             submitted s' = [10000000000000000].
Proof.
  eexists. split; [reflexivity|].
  destruct (click_submits_tier_price demo_connected Tier0 _ eq_refl) as [H _]. exact H.
Defined.

End Page.
