(* ===== verification/Traces.v ===== *)
(** * Runs of the page: the executable fold and the reachability relation

    The page is exercised in two ways in this library: [Page.run] folds
    [Page.step] over a list of events and is what the concrete scenarios
    evaluate with [vm_compute]; [Page.reachable] is the inductive
    closure of [step] from [init] on which the invariants are proved by
    rule induction.  This file shows that they describe the same states
    ([reachable_iff_run]), so a scenario computed with [run] is a
    reachable state for every invariant ([run_init_reachable]), and
    every reachable state is the result of some event sequence the page
    accepts.

    The page is generic in its [Runtime]; two runtimes whose three
    library calls agree pointwise give the same [step] and [run]
    ([step_ext], [run_ext]).  With [Base64Ref.atob_eq_ref] this makes the
    browser and [reference_runtime], whose [atob] is the bit-level
    reference decoder, the same program ([run_reference]). *)

From Stdlib Require Import ZArith NArith String Bool List Lia.
From S2P Require Import Prelude JsString Base64 Base64Ref Json Wagmi Runtime Page.
Import ListNotations.

Module Traces.

Import Page.

Section Runs.
Context `{RT : Runtime}.

Lemma run_app s es1 es2 :
  run s (es1 ++ es2) = match run s es1 with Some s' => run s' es2 | None => None end.
Proof.
  revert s. induction es1 as [|e es1 IH]; intros s; cbn; [reflexivity|].
  destruct (step s e); [apply IH | reflexivity].
Qed.

Lemma run_snoc s es e s' : run s es = Some s' -> run s (es ++ [e]) = step s' e.
Proof.
  intros H. rewrite run_app, H. cbn. now destruct (step s' e).
Qed.

(** A run from a reachable state ends in a reachable state. *)
Lemma run_reachable s0 es s : reachable s0 -> run s0 es = Some s -> reachable s.
Proof.
  revert s0. induction es as [|e es IH]; intros s0 Hr H; cbn in H.
  - now injection H as <-.
  - destruct (step s0 e) as [s1|] eqn:E; [|discriminate].
    apply (IH s1); [eapply reach_step; eauto | exact H].
Qed.

(** The end of a run from [init] is reachable: how the concrete
    scenarios of the other files become reachable states. *)
Lemma run_init_reachable es s : run init es = Some s -> reachable s.
Proof. exact (run_reachable init es s reach_init). Qed.

(** Every reachable state is the end of a run from [init]. *)
Lemma reachable_run s : reachable s -> exists es, run init es = Some s.
Proof.
  induction 1 as [|s e s' _ [es IH] Hs].
  - now exists [].
  - exists (es ++ [e]). now rewrite (run_snoc _ _ _ _ IH).
Qed.

(** The executable fold [run] and the relation [reachable] agree:
    a state is reachable exactly when some sequence of events, each
    accepted by [step], leads to it from [init]. *)
Theorem reachable_iff_run s : reachable s <-> exists es, run init es = Some s.
Proof.
  split; [apply reachable_run|].
  intros [es H]. exact (run_reachable init es s reach_init H).
Qed.

End Runs.

(** ** Runtimes that agree give the same page *)

Section RuntimeExt.
Context (R1 R2 : Runtime).
Hypothesis atob_ext : forall d, @rt_atob R1 d = @rt_atob R2 d.
Hypothesis json_parse_ext : forall d, @rt_json_parse R1 d = @rt_json_parse R2 d.
Hypothesis parse_ether_ext : forall d, @rt_parse_ether R1 d = @rt_parse_ether R2 d.

Lemma decode_token_uri_ext u : @decode_token_uri R1 u = @decode_token_uri R2 u.
Proof.
  unfold decode_token_uri. rewrite atob_ext.
  destruct (@rt_atob R2 _); [apply json_parse_ext | reflexivity].
Qed.

Lemma token_effect_ext s : @token_effect R1 s = @token_effect R2 s.
Proof.
  unfold token_effect. destruct (JsString.truthy (tokenURI s)), (tokenURI s); try reflexivity.
  now rewrite decode_token_uri_ext.
Qed.

Lemma mintToken_start_ext v s : @mintToken_start R1 v s = @mintToken_start R2 v s.
Proof. unfold mintToken_start. now rewrite parse_ether_ext. Qed.

Lemma step_ext s e : @step R1 s e = @step R2 s e.
Proof.
  unfold step. destruct (render s); [|reflexivity].
  destruct e; rewrite ?token_effect_ext, ?mintToken_start_ext; reflexivity.
Qed.

Lemma run_ext s es : @run R1 s es = @run R2 s es.
Proof.
  revert s. induction es as [|e es IH]; intros s; cbn; [reflexivity|].
  rewrite step_ext. now destruct (@step R2 s e).
Qed.

End RuntimeExt.

(** The browser with [window.atob] replaced by the bit-level reference
    decoder of [Base64Ref]. *)
Definition reference_runtime : Runtime := {|
  rt_atob := Base64Ref.atob_ref;
  rt_json_parse := @rt_json_parse browser;
  rt_parse_ether := @rt_parse_ether browser
|}.

(** Replacing [window.atob]'s buffer loop by the bit-level reference
    decoder changes nothing the page does. *)
Lemma run_reference s es : @run browser s es = @run reference_runtime s es.
Proof.
  apply run_ext; intros d; [apply Base64Ref.atob_eq_ref | reflexivity | reflexivity].
Qed.

End Traces.
