(* ===== verification/PageSafety.v ===== *)
(** * Safety of the mint page: when the render can throw

    The success modal (index.js lines 150-168) reads
    [latestNFTMinted.name], [latestNFTMinted.image] and [mintData.hash].
    The first two throw on [null], the third on [undefined].
    The [name] is also rendered as a child of [<h3>], which throws when it
    is an object.  This file shows:
    - under sequential use (no mint click while an earlier [mintToken] call
      is suspended, and token URIs whose metadata the modal can show,
      [metadata_ok]) every reachable state renders
      ([no_render_crash_sequential]), by an invariant of the reachable
      states ([seq_inv]);
    - each condition is needed, from any state where it can be broken: a
      second click during a confirmation ([concurrent_mint_crash]), and
      metadata the modal cannot show, which crashes the success modal of
      the next mint exactly when it is [null] or has a [name] React cannot
      render ([mint_metadata_crash_iff]);
    - a mint rejected in the wallet leaves the modal in its "Minting..."
      state, with no Close button, under every sequence of events without
      a mint click ([failed_mint_stuck]);
    - a click, the resolution of its write and its confirmation are
      accepted and end on the success modal of the metadata held
      ([mint_run], [mint_run_render], [mint_shows_success]);
    - the log of line 78 prints the [mintData] the handler's closure
      captured at the click, not the confirmed transaction
      ([mint_log_is_click_data]);
    - the frame React renders between a hook update and its effect
      ([hook_update]) shows the view of the frame before, with only the
      OpenSea link updated ([effect_frames_render]). *)

From Stdlib Require Import ZArith NArith String Bool List Lia.
From S2P Require Import Prelude JsString Base64 Json Wagmi Runtime Page Traces.
Import ListNotations.
Open Scope Z_scope.

Module PageSafety.

Import Json Page.

Section Safety.
Context `{RT : Runtime}.

(** Sequential use: a mint click only when no [mintToken] call is
    suspended, and token URIs whose decoded metadata the modal can show
    ([metadata_ok]: not [null], and a [name] React can render). *)
Definition sequential (s : state) (e : event) : Prop :=
  match e with
  | ClickMint _ => tasks s = []
  | TokenURIRead _ u =>
      match decode_token_uri u with Some v => metadata_ok v = true | None => True end
  | _ => True
  end.

Inductive reachable_seq : state -> Prop :=
| rs_init : reachable_seq init
| rs_step s e s' : reachable_seq s -> sequential s e -> step s e = Some s' -> reachable_seq s'.

(** The invariant of sequential use. *)
Definition seq_inv (s : state) : Prop :=
  metadata_ok (latestNFTMinted (ui_st s)) = true /\
  (forall u v, tokenURI s = Some u -> decode_token_uri u = Some v -> metadata_ok v = true) /\
  (match tasks s with
   | [] => True
   | [k] => ContractWrite.current (write s) = Some (task_id k) /\
            isMinting (ui_st s) = true /\
            (forall t, task_phase k = AwaitWait t -> ContractWrite.data (write s) = Some t)
   | _ => False
   end) /\
  (modalShow (ui_st s) = true -> isMinting (ui_st s) = false ->
   ContractWrite.data (write s) <> None).

Lemma seq_inv_init : seq_inv init.
Proof.
  unfold seq_inv; cbn. repeat split; try discriminate.
Qed.

Lemma token_effect_seq_inv s :
  seq_inv s -> seq_inv (token_effect s).
Proof.
  intros (Hl & Hu & Ht & Hd).
  destruct (token_effect_frame s) as (_ & Hm & Hi & Hw & _ & _ & Hts & _ & _ & Hu').
  unfold seq_inv. rewrite Hm, Hi, Hw, Hts, Hu'. repeat split; auto.
  unfold token_effect. destruct (JsString.truthy (tokenURI s)); auto.
  destruct (tokenURI s) as [u|] eqn:E; auto.
  destruct (decode_token_uri u) as [v|] eqn:Ed; cbn; [|exact Hl].
  exact (Hu u v eq_refl Ed).
Qed.

Lemma phase_of_single k id p : phase_of id [k] = Some p -> task_id k = id /\ task_phase k = p.
Proof.
  cbn. destruct (Nat.eqb_spec (task_id k) id); [|discriminate]. intros H. now inv H.
Qed.

Lemma finish_single k : finish (task_id k) [k] = [].
Proof. cbn. now rewrite Nat.eqb_refl. Qed.

Lemma tasks_confirm_pre e s : tasks (refetchTokenData (console_log e s)) = tasks s.
Proof. reflexivity. Qed.

Lemma seq_inv_step s e s' :
  seq_inv s -> sequential s e -> step s e = Some s' -> seq_inv s'.
Proof.
  intros Hinv Hseq H.
  pose proof Hinv as (Hl & Hu & Ht & Hd).
  destruct e; cbn in Hseq;
    [| | | unfold step in H; destruct (render s) as [v|]; [|discriminate]
     ..].
  - (* wallet status *)
    apply step_wallet in H as [-> | ->]; [assumption|].
    unfold seq_inv in *. cbn. tauto.
  - (* totalSupply read *)
    apply step_supply in H as [-> | ->]; [assumption|].
    apply token_effect_seq_inv. unfold seq_inv in *. cbn. repeat split; try tauto.
    discriminate.
  - (* tokenURI read *)
    apply step_uri in H as [-> | [_ ->]]; [assumption|].
    apply token_effect_seq_inv. unfold seq_inv in *. cbn.
    repeat split; auto. intros u' v' Hu' Hd'. injection Hu' as <-. now rewrite Hd' in Hseq.
  - (* mint click *)
    destruct v as [|[] m]; try discriminate. inv H.
    unfold mintToken_start. rewrite Hseq in Ht.
    destruct rt_parse_ether; unfold seq_inv; cbn; rewrite Hseq; cbn;
      repeat split; auto; congruence.
  - (* mint resolved *)
    destruct (phase_of id (tasks s)) as [[|]|] eqn:Hp; try discriminate. inv H.
    destruct (tasks s) as [|k [|k' ks]] eqn:Hk; try contradiction; [discriminate|].
    apply phase_of_single in Hp as [<- _]. destruct Ht as (Hc & Hi & _).
    unfold seq_inv, mintToken_minted. cbn. rewrite Hk. cbn. rewrite Nat.eqb_refl.
    unfold ContractWrite.succeed, ContractWrite.is_current. rewrite Hc, Nat.eqb_refl.
    cbn. repeat split; auto; congruence.
  - (* mint rejected *)
    destruct (phase_of id (tasks s)) as [[|]|] eqn:Hp; try discriminate. inv H.
    destruct (tasks s) as [|k [|k' ks]] eqn:Hk; try contradiction; [discriminate|].
    apply phase_of_single in Hp as [<- _]. destruct Ht as (Hc & Hi & _).
    unfold seq_inv, mintToken_mint_failed. rewrite Hk, finish_single. cbn.
    repeat split; auto. congruence.
  - (* wait resolved *)
    destruct (phase_of id (tasks s)) as [[|t]|] eqn:Hp; try discriminate. inv H.
    destruct (tasks s) as [|k [|k' ks]] eqn:Hk; try contradiction; [discriminate|].
    apply phase_of_single in Hp as [<- Hph]. destruct Ht as (Hc & Hi & Hdata).
    unfold seq_inv, mintToken_confirmed. rewrite tasks_confirm_pre, Hk, finish_single. cbn.
    rewrite (Hdata t Hph). repeat split; auto; congruence.
  - (* wait rejected *)
    destruct (phase_of id (tasks s)) as [[|t]|] eqn:Hp; try discriminate. inv H.
    destruct (tasks s) as [|k [|k' ks]] eqn:Hk; try contradiction; [discriminate|].
    apply phase_of_single in Hp as [<- _]. destruct Ht as (Hc & Hi & _).
    unfold seq_inv, mintToken_wait_failed. rewrite Hk, finish_single. cbn.
    repeat split; auto; congruence.
  - (* close *)
    destruct v as [|d [[|n i o p]|]]; try discriminate. inv H.
    unfold seq_inv, close_modal. cbn. repeat split; auto. discriminate.
Qed.

Lemma reachable_seq_inv s : reachable_seq s -> seq_inv s.
Proof.
  induction 1; [apply seq_inv_init | eapply seq_inv_step; eauto].
Qed.

Lemma get_prop_not_null v k : v <> JNull -> exists o, get_prop v k = Some o.
Proof. destruct v; cbn; eauto; congruence. Qed.

Lemma seq_inv_render s : seq_inv s -> render s <> None.
Proof.
  intros (Hl & _ & _ & Hd). unfold render, render_modal.
  destruct (isUserConnected (ui_st s)); [|discriminate].
  destruct (modalShow (ui_st s)); [|discriminate].
  destruct (isMinting (ui_st s)); [discriminate|].
  destruct (metadata_ok_props _ Hl) as (n & i & -> & Hn & ->).
  destruct (ContractWrite.data (write s)) as [t|] eqn:E; [rewrite Hn; discriminate|].
  exfalso. now apply Hd.
Qed.

(** C1: under sequential use, the page never throws while rendering: the
    success modal always has a non-null [latestNFTMinted] and a defined
    [mintData]. *)
Theorem no_render_crash_sequential s : reachable_seq s -> render s <> None.
Proof. intros H. now apply seq_inv_render, reachable_seq_inv. Qed.

(** With no call suspended and the modal in "Minting...", no event but a
    mint click changes that. *)
Lemma stuck_step s e s' :
  step s e = Some s' ->
  isMinting (ui_st s) = true -> modalShow (ui_st s) = true -> tasks s = [] ->
  (forall t, e <> ClickMint t) ->
  isMinting (ui_st s') = true /\ modalShow (ui_st s') = true /\ tasks s' = [].
Proof.
  intros H Hi Hm Ht Hc. destruct e.
  - apply step_wallet in H as [-> | ->]; cbn; auto.
  - apply step_supply in H as [-> | ->]; auto.
  - apply step_uri in H as [-> | [_ ->]]; auto.
    destruct (token_effect_frame (set_tokenURI (Some u) s)) as (_ & Hm' & Hi' & _ & _ & _ & Ht' & _).
    rewrite Hm', Hi', Ht'. cbn. auto.
  - exfalso. now apply (Hc t).
  - unfold step in H. rewrite Ht in H. destruct (render s); discriminate.
  - unfold step in H. rewrite Ht in H. destruct (render s); discriminate.
  - unfold step in H. rewrite Ht in H. destruct (render s); discriminate.
  - unfold step in H. rewrite Ht in H. destruct (render s); discriminate.
  - exfalso. unfold step, render, render_modal in H. rewrite Hi, Hm in H.
    destruct (isUserConnected (ui_st s)); discriminate.
Qed.

Lemma stuck_run es : forall s s',
  isMinting (ui_st s) = true -> modalShow (ui_st s) = true -> tasks s = [] ->
  (forall e, In e es -> forall t, e <> ClickMint t) ->
  run s es = Some s' ->
  isMinting (ui_st s') = true /\ modalShow (ui_st s') = true /\ tasks s' = [].
Proof.
  induction es as [|e es IH]; intros s s' Hi Hm Ht Hc H; cbn in H.
  - injection H as <-. auto.
  - destruct (step s e) as [s1|] eqn:E; [|discriminate].
    destruct (stuck_step s e s1 E Hi Hm Ht (Hc e (or_introl eq_refl))) as (Hi1 & Hm1 & Ht1).
    apply (IH s1 s'); auto. intros e' He'. apply Hc. now right.
Qed.

Lemma render_minting s :
  isUserConnected (ui_st s) = true -> modalShow (ui_st s) = true -> isMinting (ui_st s) = true ->
  render s = Some (TierCards (ContractWrite.isLoading (write s)) (Some ModalMinting)).
Proof. intros Hc Hm Hi. unfold render, render_modal. now rewrite Hc, Hm, Hi. Qed.

Lemma render_success s n i t :
  isUserConnected (ui_st s) = true -> modalShow (ui_st s) = true -> isMinting (ui_st s) = false ->
  get_prop (latestNFTMinted (ui_st s)) (js "name") = Some n -> child_ok n = true ->
  get_prop (latestNFTMinted (ui_st s)) (js "image") = Some i ->
  ContractWrite.data (write s) = Some t ->
  render s = Some (TierCards (ContractWrite.isLoading (write s))
                     (Some (ModalSuccess n i (opensea_url (tokenData s))
                                         (polygonscan_url (ContractWrite.hash t))))).
Proof.
  intros Hc Hm Hi Hn Hok Hi' Ht. unfold render, render_modal.
  now rewrite Hc, Hm, Hi, Hn, Hi', Ht, Hok.
Qed.

(** A click whose price converts, the resolution of its write with [tx]
    and its confirmation: the three steps of one [mintToken] call, from a
    connected page with the buttons enabled. *)
Lemma mintToken_start_parsed v wei s :
  rt_parse_ether v = Some wei ->
  mintToken_start v s = submit_write wei (map_ui (fun u => setModalShow true (setIsMinting true u)) s).
Proof. intros Hp. unfold mintToken_start. now rewrite Hp. Qed.

Lemma render_connected s d m : render s = Some (TierCards d m) -> isUserConnected (ui_st s) = true.
Proof. unfold render. destruct (isUserConnected (ui_st s)); congruence. Qed.

Lemma render_idle s d :
  render s = Some (TierCards d None) ->
  isUserConnected (ui_st s) = true /\ modalShow (ui_st s) = false /\ ContractWrite.isLoading (write s) = d.
Proof.
  unfold render, render_modal.
  destruct (isUserConnected (ui_st s)), (modalShow (ui_st s)), (isMinting (ui_st s)); try discriminate;
    destruct (get_prop (latestNFTMinted (ui_st s)) (js "name")) as [n|],
      (get_prop (latestNFTMinted (ui_st s)) (js "image")), (ContractWrite.data (write s));
    try destruct (child_ok n); intros H; inv H; auto.
Qed.

Lemma mint_resolved s m t tx wei :
  render s = Some (TierCards false m) ->
  ~ In (next_id s) (map task_id (tasks s)) ->
  rt_parse_ether (tier_value t) = Some wei ->
  run s [ClickMint t; MintResolved (next_id s) tx] =
    Some (mintToken_minted (next_id s) tx (mintToken_start (tier_value t) s)) /\
  render (mintToken_minted (next_id s) tx (mintToken_start (tier_value t) s)) =
    Some (TierCards false (Some ModalMinting)) /\
  phase_of (next_id s) (tasks (mintToken_minted (next_id s) tx (mintToken_start (tier_value t) s))) =
    Some (AwaitWait tx).
Proof.
  intros Hr Hf Hp. pose proof (render_connected _ _ _ Hr) as Hc.
  cbn [run]. unfold step at 1. rewrite Hr.
  rewrite (mintToken_start_parsed _ _ _ Hp).
  unfold step at 1. rewrite render_minting by (cbn; first [exact Hc | reflexivity]).
  cbn [submit_write map_ui tasks next_id]. rewrite phase_of_app_fresh, Nat.eqb_refl by exact Hf.
  rewrite render_minting by (cbn; first [exact Hc | reflexivity]).
  cbn [mintToken_minted set_tasks map_write submit_write map_ui tasks next_id write].
  rewrite ContractWrite.succeed_start.
  now rewrite phase_of_resume, Nat.eqb_refl, phase_of_app_fresh, Nat.eqb_refl by exact Hf.
Qed.

Lemma mint_run s m t tx wei :
  render s = Some (TierCards false m) ->
  ~ In (next_id s) (map task_id (tasks s)) ->
  rt_parse_ether (tier_value t) = Some wei ->
  run s [ClickMint t; MintResolved (next_id s) tx; WaitResolved (next_id s)] =
  Some (mintToken_confirmed (next_id s) (mintToken_minted (next_id s) tx (mintToken_start (tier_value t) s))).
Proof.
  intros Hr Hf Hp. destruct (mint_resolved s m t tx wei Hr Hf Hp) as (Hrun & Hr2 & Hph).
  change [ClickMint t; MintResolved (next_id s) tx; WaitResolved (next_id s)]
    with ([ClickMint t; MintResolved (next_id s) tx] ++ [WaitResolved (next_id s)]).
  rewrite Traces.run_app, Hrun. cbn [run]. unfold step. now rewrite Hr2, Hph.
Qed.

(** After such a run the page shows the success modal for the metadata it
    held, or throws on it. *)
Lemma mint_run_render s t tx wei :
  isUserConnected (ui_st s) = true ->
  rt_parse_ether (tier_value t) = Some wei ->
  render (mintToken_confirmed (next_id s) (mintToken_minted (next_id s) tx (mintToken_start (tier_value t) s))) =
  match get_prop (latestNFTMinted (ui_st s)) (js "name"),
        get_prop (latestNFTMinted (ui_st s)) (js "image") with
  | Some n, Some i =>
      if child_ok n then
        Some (TierCards false (Some (ModalSuccess n i (opensea_url (tokenData s))
                                                  (polygonscan_url (ContractWrite.hash tx)))))
      else None
  | _, _ => None
  end.
Proof.
  intros Hc Hp. rewrite (mintToken_start_parsed _ _ _ Hp).
  unfold render, render_modal.
  cbn [mintToken_confirmed mintToken_minted set_tasks map_write submit_write map_ui ui_st
       refetchTokenData console_log setIsMinting setModalShow isUserConnected modalShow isMinting
       latestNFTMinted write tokenData].
  rewrite ContractWrite.succeed_start, Hc. cbn [ContractWrite.data ContractWrite.isLoading].
  destruct (get_prop (latestNFTMinted (ui_st s)) (js "name")),
    (get_prop (latestNFTMinted (ui_st s)) (js "image")); try reflexivity.
  now destruct (child_ok _).
Qed.

(** C9: a mint runs to the success modal: from a connected page with the
    buttons enabled and metadata the modal can show ([metadata_ok]: not
    [null], with a [name] React can render), a click whose price
    converts, the resolution of its write with [tx] and its confirmation
    are all accepted, and the page then shows "Mint Successful" with the
    buttons enabled, the OpenSea link of the current [tokenData] and the
    Polygonscan link of [tx]'s hash. *)
Theorem mint_shows_success s m t tx wei :
  render s = Some (TierCards false m) ->
  ~ In (next_id s) (map task_id (tasks s)) ->
  metadata_ok (latestNFTMinted (ui_st s)) = true ->
  rt_parse_ether (tier_value t) = Some wei ->
  exists s1 s2 s3 n i,
    step s (ClickMint t) = Some s1 /\
    step s1 (MintResolved (next_id s) tx) = Some s2 /\
    step s2 (WaitResolved (next_id s)) = Some s3 /\
    render s3 = Some (TierCards false (Some (ModalSuccess n i (opensea_url (tokenData s))
                                                     (polygonscan_url (ContractWrite.hash tx))))).
Proof.
  intros Hr Hf Hn Hp. pose proof (mint_run s m t tx wei Hr Hf Hp) as Hrun.
  destruct (metadata_ok_props _ Hn) as (n & i & Hname & Hok & Himage).
  cbn [run] in Hrun.
  destruct (step s (ClickMint t)) as [s1|] eqn:E1; [|discriminate].
  destruct (step s1 _) as [s2|] eqn:E2; [|discriminate].
  destruct (step s2 _) as [s3|] eqn:E3; [|discriminate]. injection Hrun as ->.
  eexists s1, s2, _, n, i. refine (conj eq_refl (conj E2 (conj E3 _))).
  rewrite (mint_run_render s t tx wei (render_connected _ _ _ Hr) Hp), Hname, Himage, Hok.
  reflexivity.
Qed.

(** C15: a mint the user rejects in the wallet leaves the page stuck:
    from a connected page with the buttons enabled and no call
    suspended, a click whose price converts and the rejection of its
    write are accepted, the page then shows "Minting..." (which has no
    Close button) with the buttons enabled, and no sequence of events
    without a mint click ever clears [isMinting] or hides the modal: the
    catch of lines 81-83 does not undo lines 70-71. *)
Theorem failed_mint_stuck s m t wei :
  render s = Some (TierCards false m) -> tasks s = [] ->
  rt_parse_ether (tier_value t) = Some wei ->
  exists s2,
    run s [ClickMint t; MintRejected (next_id s)] = Some s2 /\
    render s2 = Some (TierCards false (Some ModalMinting)) /\
    forall es s', (forall e, In e es -> forall t', e <> ClickMint t') -> run s2 es = Some s' ->
      isMinting (ui_st s') = true /\ modalShow (ui_st s') = true.
Proof.
  intros Hr Ht Hp. pose proof (render_connected _ _ _ Hr) as Hc.
  assert (Hf : ~ In (next_id s) (map task_id (tasks s))) by (rewrite Ht; auto).
  eexists. split; [|split].
  - cbn [run]. unfold step at 1. rewrite Hr, (mintToken_start_parsed _ _ _ Hp).
    unfold step. rewrite render_minting by (cbn; first [exact Hc | reflexivity]).
    cbn [submit_write map_ui tasks next_id]. rewrite phase_of_app_fresh, Nat.eqb_refl by exact Hf.
    reflexivity.
  - rewrite render_minting by (cbn; first [exact Hc | reflexivity]).
    cbn. unfold ContractWrite.fail, ContractWrite.is_current, ContractWrite.start.
    cbn [ContractWrite.current]. now rewrite Nat.eqb_refl.
  - intros es s' Hes Hrun.
    assert (Ht2 : tasks (mintToken_mint_failed (next_id s) (submit_write wei
                   (map_ui (fun u => setModalShow true (setIsMinting true u)) s))) = []).
    { cbn. rewrite Ht. cbn. now rewrite Nat.eqb_refl. }
    destruct (stuck_run es _ s' (eq_refl : isMinting (ui_st (mintToken_mint_failed (next_id s) (submit_write wei
      (map_ui (fun u => setModalShow true (setIsMinting true u)) s)))) = true) eq_refl Ht2 Hes Hrun) as (Hi' & Hm' & _). auto.
Qed.

(** C2: two overlapping mints crash the page, from any connected page
    with the buttons enabled: the first click's write resolves, which
    enables the buttons again under "Minting..."; a second click starts a
    new write, which resets [mintData] to [undefined]; the first call's
    confirmation then clears [isMinting], and the success modal reads
    [mintData.hash] on [undefined] (line 163): the render throws. *)
Theorem concurrent_mint_crash s m t1 t2 tx w1 w2 :
  render s = Some (TierCards false m) ->
  ~ In (next_id s) (map task_id (tasks s)) ->
  rt_parse_ether (tier_value t1) = Some w1 -> rt_parse_ether (tier_value t2) = Some w2 ->
  exists s', run s [ClickMint t1; MintResolved (next_id s) tx; ClickMint t2; WaitResolved (next_id s)] =
             Some s' /\ render s' = None.
Proof.
  intros Hr Hf Hp1 Hp2. destruct (mint_resolved s m t1 tx w1 Hr Hf Hp1) as (Hrun & Hr2 & Hph).
  set (s2 := mintToken_minted (next_id s) tx (mintToken_start (tier_value t1) s)) in *.
  pose proof (render_connected _ _ _ Hr2) as Hc2.
  eexists. split.
  - change [ClickMint t1; MintResolved (next_id s) tx; ClickMint t2; WaitResolved (next_id s)]
      with ([ClickMint t1; MintResolved (next_id s) tx] ++ [ClickMint t2; WaitResolved (next_id s)]).
    rewrite Traces.run_app, Hrun. cbn [run]. unfold step at 1.
    rewrite Hr2, (mintToken_start_parsed _ _ _ Hp2).
    unfold step. rewrite render_minting by (cbn; first [exact Hc2 | reflexivity]).
    cbn [submit_write map_ui tasks]. now rewrite phase_of_app, Hph.
  - unfold render, render_modal.
    cbn [mintToken_confirmed set_tasks map_ui refetchTokenData console_log submit_write ui_st write
         setIsMinting setModalShow isUserConnected modalShow isMinting latestNFTMinted
         ContractWrite.start ContractWrite.data].
    rewrite Hc2. now destruct (get_prop (latestNFTMinted (ui_st s2)) (js "name")),
      (get_prop (latestNFTMinted (ui_st s2)) (js "image")).
Qed.

(** C14: the metadata a token URI decodes to is stored whatever it is,
    and the next mint shows it or crashes: from a connected page with the
    buttons enabled and no modal, when the [tokenURI] read for the current
    supply lands and decodes to [v], then a mint is clicked, resolved and
    confirmed, all these events are accepted and the final render throws
    exactly when [v] is not metadata the modal can show ([null], whose
    [.name] throws at line 153, or a [name] React cannot render, such as
    an object). *)
Theorem mint_metadata_crash_iff s n u v t tx wei :
  render s = Some (TierCards false None) ->
  tokenData s = Some n -> tokenURI s <> Some u -> u <> [] -> decode_token_uri u = Some v ->
  ~ In (next_id s) (map task_id (tasks s)) ->
  rt_parse_ether (tier_value t) = Some wei ->
  exists s', run s [TokenURIRead n u; ClickMint t; MintResolved (next_id s) tx; WaitResolved (next_id s)] =
             Some s' /\ (render s' = None <-> metadata_ok v = false).
Proof.
  intros Hr Hn Hu Hne Hd Hf Hp.
  set (s1 := token_effect (set_tokenURI (Some u) s)).
  destruct (token_effect_frame (set_tokenURI (Some u) s)) as (_ & _ & _ & Hw1 & _ & _ & Ht1 & Hid1 & _).
  fold s1 in Hw1, Ht1, Hid1. cbn [set_tokenURI write tasks next_id] in Hw1, Ht1, Hid1.
  assert (Hui1 : ui_st s1 = setLatestNFTMinted v (ui_st s))
    by exact (token_effect_decoded (set_tokenURI (Some u) s) u v eq_refl Hne Hd).
  assert (E1 : step s (TokenURIRead n u) = Some s1).
  { unfold step. rewrite Hr, Hn, (proj2 (ContractRead.delivers_spec (Some n) n) eq_refl).
    destruct (same_str (Some u) (tokenURI s)) eqn:E; [|reflexivity].
    apply same_str_eq in E. congruence. }
  assert (Hr1 : render s1 = Some (TierCards false None)).
  { destruct (render_idle _ _ Hr) as (Hc & Hm & Hl).
    unfold render, render_modal. rewrite Hui1, Hw1. cbn [setLatestNFTMinted modalShow isUserConnected].
    now rewrite Hc, Hm, Hl. }
  assert (Hf1 : ~ In (next_id s1) (map task_id (tasks s1))) by (rewrite Ht1, Hid1; exact Hf).
  assert (R1 : run s [TokenURIRead n u] = Some s1) by (cbn [run]; now rewrite E1).
  change [TokenURIRead n u; ClickMint t; MintResolved (next_id s) tx; WaitResolved (next_id s)]
    with ([TokenURIRead n u] ++ [ClickMint t; MintResolved (next_id s) tx; WaitResolved (next_id s)]).
  rewrite Traces.run_app, R1, <- Hid1.
  rewrite (mint_run s1 None t tx wei Hr1 Hf1 Hp). eexists; split; [reflexivity|].
  rewrite (mint_run_render s1 t tx wei (render_connected _ _ _ Hr1) Hp), Hui1.
  cbn [latestNFTMinted setLatestNFTMinted]. unfold metadata_ok.
  destruct (get_prop v (js "name")) as [nm|] eqn:En; [|split; congruence].
  destruct (get_prop v (js "image")) as [im|] eqn:Ei.
  - destruct (child_ok nm); split; congruence.
  - exfalso. destruct v; cbn in Ei, En; discriminate.
Qed.

(** C16: the log of line 78 prints the [mintData] of the render whose
    button was clicked, not the transaction just confirmed: when a call
    is clicked, resolved and confirmed, its log entry is the data the
    write observer held before the click ([undefined] on a first mint). *)
Theorem mint_log_is_click_data s t s1 tx s2 s3 :
  ~ In (next_id s) (map task_id (tasks s)) ->
  step s (ClickMint t) = Some s1 ->
  step s1 (MintResolved (next_id s) tx) = Some s2 ->
  step s2 (WaitResolved (next_id s)) = Some s3 ->
  last (console s3) LogConnectError = LogMintData (ContractWrite.data (write s)).
Proof.
  intros Hf H1 H2 H3.
  unfold step in H1. destruct (render s) as [v|]; [|discriminate].
  destruct v as [|[] m]; try discriminate. injection H1 as <-.
  unfold mintToken_start in H2. unfold step in H2.
  destruct (rt_parse_ether (tier_value t)) as [wei|];
    destruct (render _); try discriminate; cbn [submit_write console_log tasks map_ui next_id] in H2.
  - rewrite phase_of_app_fresh, Nat.eqb_refl in H2 by exact Hf. injection H2 as <-.
    unfold step in H3. destruct (render _); [|discriminate].
    cbn [mintToken_minted set_tasks map_write submit_write map_ui tasks next_id] in H3.
    rewrite phase_of_resume, Nat.eqb_refl, phase_of_app_fresh, Nat.eqb_refl in H3 by exact Hf.
    injection H3 as <-. unfold mintToken_confirmed.
    cbn [console set_tasks map_ui refetchTokenData console_log mintToken_minted map_write
         submit_write tasks next_id write].
    rewrite closure_mintData_resume, closure_mintData_app_fresh by exact Hf.
    apply last_last.
  - rewrite phase_of_absent in H2 by exact Hf. discriminate.
Qed.

End Safety.

(** ** The frame between a hook update and its effect

    When [useAccount] or a read delivers a new value, React renders once
    with the new hook value and the old [useState] cells, then runs the
    effects of lines 50-66, which set the cells and render again.  [step]
    applies the effect at once; [hook_update] is the state of the frame
    in between. *)
Definition hook_update (s : state) (e : event) : state :=
  match e with
  | WalletStatus b => set_isConnected b s
  | TotalSupplyRead n => supply_read n s
  | TokenURIRead n u =>
      if ContractRead.delivers (tokenData s) n then set_tokenURI (Some u) s else s
  | _ => s
  end.

(** The same view with the OpenSea link [o] in the success modal. *)
Definition with_opensea (o : jstring) (v : view) : view :=
  match v with
  | TierCards d (Some (ModalSuccess n i _ p)) => TierCards d (Some (ModalSuccess n i o p))
  | _ => v
  end.

(** The render reads the hooks only through [mintData] and, for the
    OpenSea link, [tokenData]. *)
Lemma render_frame s s' :
  ui_st s' = ui_st s -> write s' = write s ->
  render s' = option_map (with_opensea (opensea_url (tokenData s'))) (render s).
Proof.
  intros Hu Hw. unfold render, render_modal. rewrite Hu, Hw.
  destruct (isUserConnected (ui_st s)); [|reflexivity].
  destruct (modalShow (ui_st s)); [|reflexivity].
  destruct (isMinting (ui_st s)); [reflexivity|].
  destruct (get_prop (latestNFTMinted (ui_st s)) (js "name")) as [n|]; [|reflexivity].
  destruct (get_prop (latestNFTMinted (ui_st s)) (js "image")); [|reflexivity].
  destruct (ContractWrite.data (write s)); [|reflexivity].
  now destruct (child_ok n).
Qed.

(** C13: the frame React renders between a hook update (wallet status,
    [totalSupply] or [tokenURI] result) and the effect it triggers shows
    the same view as the frame before, with only the OpenSea link
    following the new [tokenData]: it throws exactly when that frame
    did, so applying the effect in the same [step] loses no crash and no
    view. *)
Theorem effect_frames_render s e :
  render (hook_update s e) =
  option_map (with_opensea (opensea_url (tokenData (hook_update s e)))) (render s).
Proof.
  apply render_frame; destruct e; cbn; try reflexivity;
    destruct (ContractRead.delivers (tokenData s) n); reflexivity.
Qed.

(** ** Concrete runs *)

Definition demo_tx1 : ContractWrite.tx := ContractWrite.mk_tx (js "0x01").
Definition demo_tx2 : ContractWrite.tx := ContractWrite.mk_tx (js "0x02").

(** The token URI whose payload is the JSON text [null]. *)
Definition null_uri : jstring := js "data:application/json;base64,bnVsbA==".

Lemma failed_mint_stuck_witness :
  exists s2,
    @run browser demo_connected [ClickMint Tier0; MintRejected 0] = Some s2 /\
    render s2 = Some (TierCards false (Some ModalMinting)) /\
    forall es s', (forall e, In e es -> forall t', e <> ClickMint t') -> @run browser s2 es = Some s' ->
      isMinting (ui_st s') = true /\ modalShow (ui_st s') = true.
Proof.
  exact (@failed_mint_stuck browser demo_connected None Tier0 (10 ^ 16)
           eq_refl eq_refl ltac:(vm_compute; reflexivity)).
Defined.

Lemma concurrent_mint_crash_witness :
  exists s', @run browser demo_connected
               [ClickMint Tier0; MintResolved 0 demo_tx1; ClickMint Tier1; WaitResolved 0] =
             Some s' /\ render s' = None.
Proof.
  exact (@concurrent_mint_crash browser demo_connected None Tier0 Tier1 demo_tx1 (10 ^ 16) (2 * 10 ^ 16)
           eq_refl ltac:(cbn; tauto) ltac:(vm_compute; reflexivity) ltac:(vm_compute; reflexivity)).
Defined.

Lemma mint_metadata_crash_iff_witness :
  exists s', @run browser demo_supplied
               [TokenURIRead 1 null_uri; ClickMint Tier0; MintResolved 0 demo_tx1; WaitResolved 0] =
             Some s' /\ (render s' = None <-> metadata_ok JNull = false).
Proof.
  exact (@mint_metadata_crash_iff browser demo_supplied 1 null_uri JNull Tier0 demo_tx1 (10 ^ 16)
           eq_refl eq_refl ltac:(discriminate) ltac:(discriminate) ltac:(vm_compute; reflexivity)
           ltac:(cbn; tauto) ltac:(vm_compute; reflexivity)).
Defined.

Lemma no_render_crash_sequential_witness : render demo_confirmed <> None.
Proof.
  apply (@no_render_crash_sequential browser).
  apply (rs_step demo_minted (WaitResolved 0)); [|exact I|reflexivity].
  apply (rs_step demo_minting (MintResolved 0 demo_tx)); [|exact I|reflexivity].
  apply (rs_step demo_connected (ClickMint Tier0)); [|reflexivity|reflexivity].
  apply (rs_step init (WalletStatus true)); [|exact I|reflexivity].
  apply rs_init.
Defined.

Lemma mint_log_is_click_data_witness :
  last (console demo_confirmed) LogConnectError = LogMintData None.
Proof.
  exact (@mint_log_is_click_data browser demo_connected Tier0 demo_minting demo_tx
           demo_minted demo_confirmed ltac:(cbn; tauto) eq_refl eq_refl eq_refl).
Defined.

Lemma mint_shows_success_witness :
  exists s1 s2 s3 n i,
    @step browser demo_connected (ClickMint Tier0) = Some s1 /\
    @step browser s1 (MintResolved 0 demo_tx1) = Some s2 /\
    @step browser s2 (WaitResolved 0) = Some s3 /\
    render s3 = Some (TierCards false (Some (ModalSuccess n i (opensea_url None)
                                                     (polygonscan_url (js "0x01"))))).
Proof.
  exact (@mint_shows_success browser demo_connected None Tier0 demo_tx1 (10 ^ 16)
           eq_refl ltac:(cbn; tauto) eq_refl ltac:(vm_compute; reflexivity)).
Defined.

End PageSafety.
