(* ===== verification/PageInvariant.v ===== *)
(** * The invariant of every reachable state of the page

    Whatever the order of events (concurrent mints included) and whatever
    the library functions return, every reachable state satisfies
    [page_inv]:
    - [isUserConnected] mirrors the wallet's [isConnected] (the effect of
      lines 50-56 runs on every change);
    - [isMinting] implies [modalShow] (line 70-71 set both, only the Close
      button of the success modal clears [modalShow]);
    - the mint buttons are disabled ([isLoading]) exactly while the latest
      write call is suspended at [await mint(...)];
    - the suspended calls have distinct ids, all below [next_id], and so
      has the latest write.
    From it: the connect prompt shows exactly when the wallet is not
    connected.  Two more invariants by the same rule induction: every
    payment submitted is a tier's price ([payments_are_tier_prices]), and
    the render throws only when the metadata is [null] or the latest
    write call has no result ([crash_inv], [render_crash_causes]). *)

From Stdlib Require Import ZArith NArith String Bool List Lia.
From S2P Require Import Prelude JsString Json Ether Wagmi Runtime Page Traces.
Import ListNotations.

Module PageInvariant.

Import Page.

(** ** Lemmas on the task list *)

Lemma phase_of_finish ts id j :
  NoDup (map task_id ts) ->
  phase_of j (finish id ts) = if Nat.eqb id j then None else phase_of j ts.
Proof.
  unfold finish. induction ts as [|k ts IH]; intros Hnd; cbn; [now destruct (Nat.eqb id j)|].
  inversion Hnd as [|? ? Hk Hnd']; subst.
  destruct (Nat.eqb_spec (task_id k) id) as [Hki|Hki]; cbn.
  - rewrite IH by exact Hnd'. nat_eqb_cases; subst; try congruence; try reflexivity.
  - rewrite IH by exact Hnd'. nat_eqb_cases; subst; congruence.
Qed.

Lemma map_resume ts id p : map task_id (resume id p ts) = map task_id ts.
Proof.
  unfold resume. induction ts as [|k ts IH]; cbn; [reflexivity|].
  destruct (Nat.eqb_spec (task_id k) id); cbn; congruence.
Qed.

Lemma finish_incl ts id x : In x (map task_id (finish id ts)) -> In x (map task_id ts).
Proof.
  unfold finish. rewrite !in_map_iff. intros [k [<- Hk]].
  apply filter_In in Hk as [Hk _]. eauto.
Qed.

Lemma NoDup_finish ts id : NoDup (map task_id ts) -> NoDup (map task_id (finish id ts)).
Proof.
  induction ts as [|k ts IH]; intros Hnd; cbn; [constructor|].
  inversion Hnd as [|? ? Hk Hnd']; subst. unfold finish in *. cbn.
  destruct (negb (Nat.eqb (task_id k) id)); cbn; [|auto].
  constructor; [|auto]. intros H. apply Hk. eapply finish_incl; eauto.
Qed.

(** ** The invariant *)

Definition ids_below (s : state) : Prop :=
  forall x, In x (map task_id (tasks s)) -> (x < next_id s)%nat.

Definition page_inv (s : state) : Prop :=
  isUserConnected (ui_st s) = isConnected s /\
  (isMinting (ui_st s) = true -> modalShow (ui_st s) = true) /\
  (ContractWrite.isLoading (write s) = true <->
   exists id, ContractWrite.current (write s) = Some id /\
              phase_of id (tasks s) = Some AwaitMint) /\
  ids_below s /\ NoDup (map task_id (tasks s)) /\
  (forall id, ContractWrite.current (write s) = Some id -> (id < next_id s)%nat).

Lemma page_inv_init : page_inv init.
Proof.
  unfold page_inv, ids_below. cbn. repeat split; try discriminate.
  - intros [id [H _]]. discriminate.
  - intros x [].
  - constructor.
Qed.

(** The disabled flag after a call leaves the task list. *)
Lemma loading_finish (o o' : ContractWrite.observer) ts id :
  NoDup (map task_id ts) ->
  (ContractWrite.isLoading o = true <->
   exists j, ContractWrite.current o = Some j /\ phase_of j ts = Some AwaitMint) ->
  ContractWrite.current o' = ContractWrite.current o ->
  (ContractWrite.current o = Some id -> ContractWrite.isLoading o' = false) ->
  (ContractWrite.current o <> Some id -> ContractWrite.isLoading o' = ContractWrite.isLoading o) ->
  (ContractWrite.isLoading o' = true <->
   exists j, ContractWrite.current o' = Some j /\ phase_of j (finish id ts) = Some AwaitMint).
Proof.
  intros Hnd Hl Hc Hid Hother. rewrite Hc.
  destruct (ContractWrite.current o) as [c|] eqn:Ec.
  - destruct (Nat.eq_dec c id) as [->|Hcne].
    + rewrite (Hid eq_refl). split; [discriminate|]. intros [j [Hj Hp]]. injection Hj as <-.
      rewrite phase_of_finish, Nat.eqb_refl in Hp by exact Hnd. discriminate.
    + rewrite (Hother ltac:(congruence)), Hl.
      split; intros [j [Hj Hp]]; exists j; split; auto; injection Hj as <-;
        rewrite phase_of_finish in * by exact Hnd;
        (destruct (Nat.eqb_spec id c); [congruence|assumption]).
  - rewrite (Hother ltac:(congruence)), Hl.
    split; intros [j [Hj _]]; discriminate.
Qed.

Lemma render_success_not_minting s d m :
  render s = Some (TierCards d (Some m)) -> (exists n i o p, m = ModalSuccess n i o p) ->
  isMinting (ui_st s) = false.
Proof.
  intros Hr [n [i [o [p ->]]]]. revert Hr. unfold render, render_modal.
  destruct (isUserConnected (ui_st s)); [|discriminate].
  destruct (modalShow (ui_st s)); [|discriminate].
  destruct (isMinting (ui_st s)); [discriminate|reflexivity].
Qed.

Section Preservation.
Context `{RT : Runtime}.

Lemma page_inv_token_effect s : page_inv s -> page_inv (token_effect s).
Proof.
  unfold page_inv, ids_below.
  destruct (token_effect_frame s) as (Hc & Hm & Hi & Hw & _ & _ & Ht & Hn & _).
  rewrite Hc, Hm, Hi, Hw, Ht, Hn.
  unfold token_effect. destruct (JsString.truthy (tokenURI s)); [|auto].
  destruct (tokenURI s) as [u|]; [|auto]. destruct (decode_token_uri u); cbn; auto.
Qed.

Lemma page_inv_start value s : page_inv s -> page_inv (mintToken_start value s).
Proof.
  intros (Hc & Hm & Hl & Hb & Hnd & Hcur). unfold mintToken_start.
  destruct rt_parse_ether as [wei|]; unfold page_inv, ids_below; cbn.
  - assert (Hfresh : ~ In (next_id s) (map task_id (tasks s)))
      by (intros H; specialize (Hb _ H); lia).
    repeat split; auto.
    + intros _. exists (next_id s). split; [reflexivity|].
      rewrite phase_of_app_fresh by exact Hfresh. now rewrite Nat.eqb_refl.
    + intros x Hx. rewrite map_app in Hx. apply in_app_or in Hx as [Hx|[<-|[]]].
      * specialize (Hb x Hx). lia.
      * cbn. lia.
    + rewrite map_app. apply NoDup_app; auto; [constructor; auto; constructor|].
      intros x Hx [<-|[]]. now apply Hfresh.
    + intros id Hid. injection Hid as <-. lia.
  - repeat split; auto.
    + intros H. now apply Hl.
    + intros H. now apply Hl.
Qed.

Lemma page_inv_minted id t s :
  page_inv s -> phase_of id (tasks s) = Some AwaitMint -> page_inv (mintToken_minted id t s).
Proof.
  intros (Hc & Hm & Hl & Hb & Hnd & Hcur) Hp.
  unfold page_inv, ids_below, mintToken_minted. cbn.
  rewrite map_resume. repeat split; auto.
  - unfold ContractWrite.succeed, ContractWrite.is_current.
    destruct (ContractWrite.current (write s)) as [c|] eqn:Ec; cbn.
    + destruct (Nat.eqb_spec id c) as [<-|Hne]; cbn; [discriminate|].
      intros Hload. apply Hl in Hload as [id' [Hid' Hp']]. injection Hid' as <-.
      exists c. split; [first [reflexivity | exact Ec]|]. rewrite phase_of_resume.
      destruct (Nat.eqb_spec id c); [congruence|exact Hp'].
    + intros Hload. apply Hl in Hload as [id' [Hid' _]]. discriminate.
  - intros [j [Hj Hpj]]. rewrite phase_of_resume in Hpj.
    destruct (Nat.eqb_spec id j) as [<-|Hne].
    + rewrite Hp in Hpj. discriminate.
    + unfold ContractWrite.succeed, ContractWrite.is_current in Hj |- *.
      destruct (ContractWrite.current (write s)) as [c|] eqn:Ec; cbn in Hj |- *;
        [|congruence].
      revert Hj. destruct (Nat.eqb id c) eqn:E; cbn; intros Hj.
      * apply Nat.eqb_eq in E. subst. injection Hj as ->. congruence.
      * apply Hl. exists j. split; [congruence | exact Hpj].
  - unfold ContractWrite.succeed. destruct ContractWrite.is_current; cbn; auto.
Qed.

Lemma page_inv_mint_failed id s :
  page_inv s -> phase_of id (tasks s) = Some AwaitMint -> page_inv (mintToken_mint_failed id s).
Proof.
  intros (Hc & Hm & Hl & Hb & Hnd & Hcur) Hp.
  unfold page_inv, mintToken_mint_failed. cbn.
  refine (conj Hc (conj Hm (conj _ (conj _ (conj _ _))))).
  - apply (loading_finish (write s)); auto.
    + apply ContractWrite.fail_current.
    + intros H. apply ContractWrite.is_current_iff in H. unfold ContractWrite.fail. now rewrite H.
    + intros H. unfold ContractWrite.fail. destruct ContractWrite.is_current eqn:E; [|reflexivity].
      apply ContractWrite.is_current_iff in E. contradiction.
  - intros x Hx. apply Hb. eapply finish_incl. exact Hx.
  - now apply NoDup_finish.
  - intros j. rewrite ContractWrite.fail_current. apply Hcur.
Qed.

(** A call that awaits its confirmation is not the one the buttons wait
    for. *)
Lemma loading_not_waiting s id t :
  page_inv s -> phase_of id (tasks s) = Some (AwaitWait t) ->
  ContractWrite.current (write s) = Some id -> ContractWrite.isLoading (write s) = false.
Proof.
  intros (_ & _ & Hl & _) Hp Hc. destruct (ContractWrite.isLoading (write s)) eqn:E; [|reflexivity].
  destruct (proj1 Hl eq_refl) as [j [Hj Hpj]]. congruence.
Qed.

Lemma page_inv_finish_waiting id t s s' :
  page_inv s -> phase_of id (tasks s) = Some (AwaitWait t) ->
  write s' = write s -> tasks s' = finish id (tasks s) -> next_id s' = next_id s ->
  isUserConnected (ui_st s') = isConnected s' ->
  (isMinting (ui_st s') = true -> modalShow (ui_st s') = true) ->
  page_inv s'.
Proof.
  intros Hinv Hp Hw Ht Hn Hc' Hm'. pose proof Hinv as (Hc & Hm & Hl & Hb & Hnd & Hcur).
  unfold page_inv, ids_below. rewrite Hw, Ht, Hn.
  refine (conj Hc' (conj Hm' (conj _ (conj _ (conj _ Hcur))))).
  - apply (loading_finish (write s)); auto.
    intros Hid. now apply (loading_not_waiting s id t).
  - intros x Hx. apply Hb. eapply finish_incl; eauto.
  - now apply NoDup_finish.
Qed.

Lemma page_inv_step s e s' : page_inv s -> step s e = Some s' -> page_inv s'.
Proof.
  intros Hinv H. pose proof Hinv as (Hc & Hm & Hl & Hb & Hnd & Hcur).
  destruct e.
  - apply step_wallet in H as [-> | ->]; [assumption|].
    unfold page_inv, ids_below in *. cbn. tauto.
  - apply step_supply in H as [-> | ->]; [assumption|].
    apply page_inv_token_effect. unfold page_inv, ids_below in *. cbn. tauto.
  - apply step_uri in H as [-> | [_ ->]]; [assumption|].
    apply page_inv_token_effect. unfold page_inv, ids_below in *. cbn. tauto.
  - unfold step in H. destruct (render s) as [v|]; [|discriminate].
    destruct v as [|[] m]; try discriminate. injection H as <-.
    now apply page_inv_start.
  - unfold step in H. destruct (render s) as [v|]; [|discriminate].
    destruct (phase_of id (tasks s)) as [[|]|] eqn:Hp; try discriminate.
    injection H as <-. now apply page_inv_minted.
  - unfold step in H. destruct (render s) as [v|]; [|discriminate].
    destruct (phase_of id (tasks s)) as [[|]|] eqn:Hp; try discriminate.
    injection H as <-. now apply page_inv_mint_failed.
  - unfold step in H. destruct (render s) as [v|]; [|discriminate].
    destruct (phase_of id (tasks s)) as [[|t]|] eqn:Hp; try discriminate.
    injection H as <-. apply (page_inv_finish_waiting id t s); auto; cbn; congruence.
  - unfold step in H. destruct (render s) as [v|]; [|discriminate].
    destruct (phase_of id (tasks s)) as [[|t]|] eqn:Hp; try discriminate.
    injection H as <-. apply (page_inv_finish_waiting id t s); auto.
  - unfold step in H. destruct (render s) as [v|] eqn:Hr; [|discriminate].
    destruct v as [|d [[|n i o p]|]]; try discriminate. injection H as <-.
    pose proof (render_success_not_minting s d _ Hr ltac:(eauto 6)) as Hnm.
    unfold page_inv; cbn. refine (conj Hc (conj _ (conj Hl (conj Hb (conj Hnd Hcur))))). congruence.
Qed.

(** Which observer operation a step applies to [useContractWrite]'s
    result: none, [writeAsync] (a click), or the settlement of a call. *)
Lemma step_write s e s' :
  step s e = Some s' ->
  write s' = write s \/ (exists id, write s' = ContractWrite.start id (write s)) \/
  (exists id t, write s' = ContractWrite.succeed id t (write s)) \/
  (exists id, write s' = ContractWrite.fail id (write s)).
Proof.
  intros H. destruct e.
  - apply step_wallet in H as [-> | ->]; now left.
  - apply step_supply in H as [-> | ->]; left; [reflexivity|].
    apply (token_effect_frame (supply_read n s)).
  - apply step_uri in H as [-> | [_ ->]]; left; [reflexivity|].
    apply (token_effect_frame (set_tokenURI (Some u) s)).
  - step_cases H. destruct v as [|[] m]; try discriminate. injection H as <-.
    unfold mintToken_start. destruct rt_parse_ether; cbn; eauto.
  - step_cases H. repeat case_match_in H; try discriminate. injection H as <-. cbn; eauto 6.
  - step_cases H. repeat case_match_in H; try discriminate. injection H as <-. cbn; eauto 6.
  - step_cases H. repeat case_match_in H; try discriminate. injection H as <-. now left.
  - step_cases H. repeat case_match_in H; try discriminate. injection H as <-. now left.
  - step_cases H. repeat case_match_in H; try discriminate. injection H as <-. now left.
Qed.

End Preservation.

Lemma page_inv_reachable `{Runtime} s : reachable s -> page_inv s.
Proof.
  induction 1; [apply page_inv_init | eapply page_inv_step; eauto].
Qed.

(** C7: every reachable state satisfies [page_inv]: [isUserConnected]
    follows the wallet, [isMinting] implies that the modal is shown, the
    mint buttons are disabled exactly while the latest write call is
    suspended at [await mint(...)], and the suspended calls have distinct
    ids. *)
Theorem reachable_page_inv `{Runtime} s : reachable s -> page_inv s.
Proof. exact (page_inv_reachable s). Qed.

Lemma reachable_page_inv_witness : page_inv demo_confirmed.
Proof.
  apply (@reachable_page_inv browser).
  apply (Traces.run_init_reachable
           [WalletStatus true; ClickMint Tier0; MintResolved 0 demo_tx; WaitResolved 0]).
  vm_compute. reflexivity.
Defined.

(** C17: in every reachable state the page renders only the connect
    prompt exactly when the wallet is not connected; when it is, the render
    shows the tier cards (or throws). *)
Theorem connect_prompt_iff_disconnected `{Runtime} s :
  reachable s ->
  (render s = Some ConnectPrompt <-> isConnected s = false) /\
  (isConnected s = true -> render s = None \/ exists d m, render s = Some (TierCards d m)).
Proof.
  intros Hr. destruct (page_inv_reachable s Hr) as (Hc & _). rewrite <- Hc.
  split; [apply render_connect_prompt_iff|].
  intros Hu. unfold render. rewrite Hu. destruct (render_modal s); eauto.
Qed.

Lemma connect_prompt_iff_disconnected_witness :
  (render demo_connected = Some ConnectPrompt <-> isConnected demo_connected = false) /\
  (isConnected demo_connected = true ->
   render demo_connected = None \/ exists d m, render demo_connected = Some (TierCards d m)).
Proof.
  apply (@connect_prompt_iff_disconnected browser).
  apply (Traces.run_init_reachable [WalletStatus true]). reflexivity.
Defined.

(** ** Payments *)

Lemma tier_price t : Ether.parseEther (tier_value t) = inr (tier_wei t).
Proof. destruct t; vm_compute; reflexivity. Qed.

(** Only a mint click adds a payment, the converted price of its button. *)
Lemma step_submitted `{Runtime} s e s' :
  step s e = Some s' ->
  submitted s' = submitted s \/
  exists t w, e = ClickMint t /\ rt_parse_ether (tier_value t) = Some w /\
              submitted s' = submitted s ++ [w].
Proof.
  intros Hs. step_cases Hs.
  destruct e; repeat case_match_in Hs; try discriminate; injection Hs as <-;
    try (left; reflexivity);
    try (left; match goal with |- submitted (token_effect ?x) = _ =>
           now destruct (token_effect_frame x) as (_&_&_&_&_&->&_) end).
  unfold mintToken_start. destruct (rt_parse_ether (tier_value t)) as [w|] eqn:Ep.
  - right. now exists t, w.
  - left. reflexivity.
Qed.

(** C8: whatever the order of events, every payment the page has
    submitted is the price of one of the three tiers (0.01, 0.02 or 0.05
    ether in wei). *)
Theorem payments_are_tier_prices s :
  @reachable browser s -> Forall (fun w => exists t, w = tier_wei t) (submitted s).
Proof.
  induction 1 as [|s e s' Hr IH Hs]; [constructor|].
  destruct (step_submitted s e s' Hs) as [-> | (t & w & -> & Hp & ->)]; [exact IH|].
  apply Forall_app. split; [exact IH|]. constructor; [|constructor]. exists t.
  cbn [rt_parse_ether browser] in Hp. rewrite tier_price in Hp. congruence.
Qed.

Lemma payments_are_tier_prices_witness :
  Forall (fun w => exists t, w = tier_wei t) (submitted demo_minting).
Proof.
  apply payments_are_tier_prices.
  apply (Traces.run_init_reachable [WalletStatus true; ClickMint Tier0]).
  vm_compute. reflexivity.
Defined.

(** ** What makes the render throw

    [crash_inv]: a suspended [mintToken] call implies that a write call
    was made, and the success modal is shown only once one was. *)
Definition crash_inv (s : state) : Prop :=
  (ContractWrite.current (write s) = None -> tasks s = []) /\
  (modalShow (ui_st s) = true -> isMinting (ui_st s) = false ->
   ContractWrite.current (write s) <> None).

Lemma crash_inv_init : crash_inv init.
Proof. split; [reflexivity | discriminate]. Qed.

Lemma finish_nil id : finish id [] = [].
Proof. reflexivity. Qed.

Lemma resume_nil id p : resume id p [] = [].
Proof. reflexivity. Qed.

Lemma crash_inv_token_effect `{Runtime} s : crash_inv s -> crash_inv (token_effect s).
Proof.
  unfold crash_inv. destruct (token_effect_frame s) as (_ & Hm & Hi & Hw & _ & _ & Ht & _).
  now rewrite Hm, Hi, Hw, Ht.
Qed.

Lemma crash_inv_step `{Runtime} s e s' : crash_inv s -> step s e = Some s' -> crash_inv s'.
Proof.
  intros [Hc Hm] Hs. destruct e.
  - apply step_wallet in Hs as [-> | ->]; [split; assumption|]. split; assumption.
  - apply step_supply in Hs as [-> | ->]; [split; assumption|].
    apply crash_inv_token_effect. split; assumption.
  - apply step_uri in Hs as [-> | [_ ->]]; [split; assumption|].
    apply crash_inv_token_effect. split; assumption.
  - unfold step in Hs. destruct (render s) as [v|]; [|discriminate].
    destruct v as [|[] m]; try discriminate. injection Hs as <-.
    unfold mintToken_start. destruct rt_parse_ether; split; cbn; try discriminate; auto.
  - step_cases Hs. repeat case_match_in Hs; try discriminate. injection Hs as <-.
    unfold crash_inv, mintToken_minted. cbn. rewrite ContractWrite.succeed_current.
    split; auto. intros Hn. now rewrite (Hc Hn).
  - step_cases Hs. repeat case_match_in Hs; try discriminate. injection Hs as <-.
    unfold crash_inv, mintToken_mint_failed. cbn. rewrite ContractWrite.fail_current.
    split; auto. intros Hn. now rewrite (Hc Hn).
  - step_cases Hs. destruct (phase_of id (tasks s)) as [p|] eqn:Hp; [|discriminate].
    repeat case_match_in Hs; try discriminate. injection Hs as <-.
    unfold crash_inv, mintToken_confirmed. cbn. split.
    + intros Hn. now rewrite (Hc Hn).
    + intros _ _ Hn. rewrite (Hc Hn) in Hp. discriminate.
  - step_cases Hs. repeat case_match_in Hs; try discriminate. injection Hs as <-.
    unfold crash_inv, mintToken_wait_failed. cbn. split; auto.
    intros Hn. now rewrite (Hc Hn).
  - unfold step in Hs. destruct (render s) as [v|]; [|discriminate].
    destruct v as [|d [[|n i o p]|]]; try discriminate. injection Hs as <-.
    split; cbn; [exact Hc | discriminate].
Qed.

Lemma crash_inv_reachable `{Runtime} s : reachable s -> crash_inv s.
Proof. induction 1; [apply crash_inv_init | eapply crash_inv_step; eauto]. Qed.

Lemma get_prop_None v k : Json.get_prop v k = None -> v = Json.JNull.
Proof. destruct v; cbn; congruence. Qed.

(** C5: whatever the order of events, the render throws only when the
    success modal cannot show the metadata ([metadata_ok] fails: it is
    [null], or its [name] is an object React cannot render), or when a
    write call was made and the latest one has no result ([mintData] is
    [undefined]: still awaiting [mint(...)], or rejected). *)
Theorem render_crash_causes `{Runtime} s :
  reachable s -> render s = None ->
  metadata_ok (latestNFTMinted (ui_st s)) = false \/
  (ContractWrite.data (write s) = None /\ ContractWrite.current (write s) <> None).
Proof.
  intros Hr Hn. destruct (crash_inv_reachable s Hr) as [_ Hm].
  unfold render, render_modal in Hn. revert Hm Hn.
  destruct (isUserConnected (ui_st s)), (modalShow (ui_st s)), (isMinting (ui_st s));
    intros Hm Hn; try discriminate.
  unfold metadata_ok.
  destruct (Json.get_prop _ (js "name")) as [n|] eqn:E1; [|left; reflexivity].
  destruct (Json.get_prop _ (js "image")) eqn:E2;
    [|apply get_prop_None in E2; rewrite E2 in E1; discriminate].
  destruct (ContractWrite.data (write s)) eqn:E3.
  - left. destruct (child_ok n); [discriminate | reflexivity].
  - right. split; [reflexivity | now apply Hm].
Qed.

(** The state of C2: a second click during the first confirmation. *)
Definition demo_overlap : state :=
  mintToken_confirmed 0 (@mintToken_start browser (tier_value Tier1) demo_minted).

Lemma render_crash_causes_witness :
  metadata_ok (latestNFTMinted (ui_st demo_overlap)) = false \/
  (ContractWrite.data (write demo_overlap) = None /\
   ContractWrite.current (write demo_overlap) <> None).
Proof.
  apply (@render_crash_causes browser demo_overlap).
  - apply (Traces.run_init_reachable
             [WalletStatus true; ClickMint Tier0; MintResolved 0 demo_tx; ClickMint Tier1;
              WaitResolved 0]).
    vm_compute. reflexivity.
  - vm_compute. reflexivity.
Defined.

(** In every reachable state [useContractWrite]'s result is one of
    react-query's mutation statuses. *)
Lemma reachable_write_wf `{Runtime} s : reachable s -> ContractWrite.wf (write s) = true.
Proof.
  induction 1 as [|s e s' _ IH Hs]; [reflexivity|].
  destruct (step_write s e s' Hs) as [-> | [[id ->] | [[id [t ->]] | [id ->]]]];
    auto with nft.
Qed.

End PageInvariant.
