(* ===== verification/Refinement.v ===== *)
(** * The page against the state machine of its specification

    The specification gives the page one state machine:
    {disconnected} -> {connected, idle} -> {connected, minting} ->
    {connected, minted} -> back to {connected, idle} on modal close, the
    connection flag deciding which branch renders.  [phase] is that
    machine, [spec_step] its transitions (with the return to
    {disconnected} whenever the wallet disconnects), and [abs] reads the
    phase off the page's [useState] cells the way the render does
    (lines 97, 143, 145).

    [step_refines]: from every state, for any [Runtime] and any event, a
    step of the page either keeps the phase, takes a transition of
    [spec_step], or takes one of two transitions the specification does
    not have ([deviation]):
    - reconnecting the wallet while the modal was open shows the modal
      again, in "Minting..." or "Mint Successful", not the idle cards;
    - a tier button is enabled under the success modal (the overlay
      blocks the pointer, not the keyboard), and a click goes from
      {minted} straight to {minting}.
    Both happen from every state where they can: a reconnection restores
    the view the page had ([reconnect_restores_modal]), and a click under
    the success modal is accepted ([remint_from_success]).  [abs] is an
    abstraction of the render, not a translation of code. *)

From Stdlib Require Import ZArith NArith String Bool List Lia.
From S2P Require Import Prelude JsString Json Wagmi Runtime Page PageSafety.
Import ListNotations.

Module Refinement.

Import Page.

Inductive phase := Disconnected | Idle | Minting | Minted.

(** The transitions of the specification's state machine. *)
Inductive spec_step : phase -> phase -> Prop :=
| sp_connect : spec_step Disconnected Idle
| sp_disconnect p : p <> Disconnected -> spec_step p Disconnected
| sp_mint : spec_step Idle Minting
| sp_confirm : spec_step Minting Minted
| sp_close : spec_step Minted Idle.

(** The transitions the page takes that the specification does not list,
    with the event that takes them. *)
Inductive deviation : event -> phase -> phase -> Prop :=
| dev_reconnect p : p = Minting \/ p = Minted -> deviation (WalletStatus true) Disconnected p
| dev_remint t : deviation (ClickMint t) Minted Minting.

(** The phase the render shows: the connect prompt, the cards alone, or
    the cards under the "Minting..." or "Mint Successful" modal. *)
Definition abs_ui (u : ui) : phase :=
  if negb (isUserConnected u) then Disconnected
  else if modalShow u then (if isMinting u then Minting else Minted)
  else Idle.

Definition abs (s : state) : phase := abs_ui (ui_st s).

#[export] Hint Constructors spec_step deviation : nft.

(** ** How each handler moves the [useState] cells *)

Lemma render_tiercards_connected s d m :
  render s = Some (TierCards d m) -> isUserConnected (ui_st s) = true.
Proof.
  unfold render. destruct (isUserConnected (ui_st s)); [auto | discriminate].
Qed.

Lemma render_success_flags s d n i o p :
  render s = Some (TierCards d (Some (ModalSuccess n i o p))) ->
  isUserConnected (ui_st s) = true /\ modalShow (ui_st s) = true /\ isMinting (ui_st s) = false.
Proof.
  unfold render, render_modal.
  destruct (isUserConnected (ui_st s)), (modalShow (ui_st s)), (isMinting (ui_st s));
    cbn; try discriminate; repeat case_match_goal; try discriminate; auto.
Qed.

Lemma ui_mintToken_start `{Runtime} v s :
  ui_st (mintToken_start v s) = setModalShow true (setIsMinting true (ui_st s)).
Proof. unfold mintToken_start. now destruct (rt_parse_ether v). Qed.

Lemma ui_token_effect `{Runtime} s : abs (token_effect s) = abs s.
Proof.
  unfold abs, abs_ui. destruct (token_effect_frame s) as (Hc & Hm & Hi & _).
  now rewrite Hc, Hm, Hi.
Qed.

(** C6: every step of the page, whatever the runtime, the interleaving
    and the state it starts from, keeps the specification's phase, takes
    one of its transitions, or is one of the two deviations (reconnect
    with the modal open, a click from the success modal). *)
Theorem step_refines `{Runtime} s e s' :
  step s e = Some s' ->
  abs s' = abs s \/ spec_step (abs s) (abs s') \/ deviation e (abs s) (abs s').
Proof.
  intros Hs. destruct e.
  - apply step_wallet in Hs as [-> | ->]; [now left|].
    unfold abs, abs_ui; cbn.
    destruct b, (isUserConnected (ui_st s)), (modalShow (ui_st s)), (isMinting (ui_st s));
      cbn; auto; right;
      first [left; constructor; discriminate | right; constructor; auto].
  - apply step_supply in Hs as [-> | ->]; left; [reflexivity|].
    now rewrite ui_token_effect.
  - apply step_uri in Hs as [-> | [_ ->]]; left; [reflexivity|].
    now rewrite ui_token_effect.
  - unfold step in Hs. destruct (render s) as [v|] eqn:Hr; [|discriminate].
    destruct v as [|[] m]; try discriminate. injection Hs as <-.
    apply render_tiercards_connected in Hr.
    unfold abs, abs_ui. rewrite ui_mintToken_start. cbn. rewrite Hr. cbn.
    destruct (modalShow (ui_st s)), (isMinting (ui_st s)); auto with nft.
  - step_cases Hs. repeat case_match_in Hs; try discriminate. injection Hs as <-. now left.
  - step_cases Hs. repeat case_match_in Hs; try discriminate. injection Hs as <-. now left.
  - step_cases Hs. repeat case_match_in Hs; try discriminate. injection Hs as <-.
    unfold abs, abs_ui. cbn.
    destruct (isUserConnected (ui_st s)), (modalShow (ui_st s)), (isMinting (ui_st s));
      cbn; auto with nft.
  - step_cases Hs. repeat case_match_in Hs; try discriminate. injection Hs as <-. now left.
  - unfold step in Hs. destruct (render s) as [v|] eqn:Hr; [|discriminate].
    destruct v as [|d [[|n i o p]|]]; try discriminate. injection Hs as <-.
    apply render_success_flags in Hr as (Hc' & Hm' & Hi').
    unfold abs, abs_ui. cbn. rewrite Hc', Hm', Hi'. auto with nft.
Qed.

(** ** Runs *)

Definition demo_tx : ContractWrite.tx := ContractWrite.mk_tx (js "0x01").

Lemma step_refines_witness :
  abs demo_confirmed = abs demo_minted \/ spec_step (abs demo_minted) (abs demo_confirmed) \/
  deviation (WaitResolved 0) (abs demo_minted) (abs demo_confirmed).
Proof. exact (@step_refines browser demo_minted (WaitResolved 0) demo_confirmed eq_refl). Defined.

Lemma render_modal_shown s d m :
  render s = Some (TierCards d m) -> m <> None -> modalShow (ui_st s) = true.
Proof.
  unfold render, render_modal. destruct (modalShow (ui_st s)); [auto|].
  destruct (isUserConnected (ui_st s)); intros H; inv H; congruence.
Qed.

Lemma spec_step_from_disconnected p : spec_step Disconnected p -> p = Idle.
Proof. intros H. inversion H; congruence. Qed.

(** C26: from any state where the wallet is connected and the page
    renders its cards, a disconnection shows the connect prompt and a
    reconnection brings back the very view the page had, the modal
    included; with the modal open this goes from {disconnected} straight
    to {minting} or {minted}, which the specification's machine cannot
    (it goes to {connected, idle}). *)
Theorem reconnect_restores_modal `{Runtime} s d m :
  isConnected s = true -> render s = Some (TierCards d m) ->
  exists s1 s2,
    step s (WalletStatus false) = Some s1 /\ render s1 = Some ConnectPrompt /\
    abs s1 = Disconnected /\
    step s1 (WalletStatus true) = Some s2 /\ render s2 = Some (TierCards d m) /\
    abs s2 = abs s /\ (m <> None -> ~ spec_step (abs s1) (abs s2)).
Proof.
  intros Hic Hr. pose proof (render_tiercards_connected _ _ _ Hr) as Hc.
  set (s1 := connection_effect (set_isConnected false s)).
  set (s2 := connection_effect (set_isConnected true s1)).
  assert (Hr1 : render s1 = Some ConnectPrompt) by reflexivity.
  assert (Hu2 : ui_st s2 = ui_st s).
  { cbn. destruct (ui_st s) as [c l mo mi]. cbn in *. now subst. }
  assert (Hr2 : render s2 = render s) by (unfold render, render_modal; rewrite Hu2; reflexivity).
  assert (Ha2 : abs s2 = abs s) by (unfold abs; now rewrite Hu2).
  exists s1, s2. refine (conj _ (conj Hr1 (conj eq_refl (conj _ (conj _ (conj Ha2 _)))))).
  - unfold step. now rewrite Hr, Hic.
  - unfold step. now rewrite Hr1.
  - now rewrite Hr2.
  - intros Hm Hsp. rewrite Ha2 in Hsp. apply spec_step_from_disconnected in Hsp.
    pose proof (render_modal_shown _ _ _ Hr Hm) as Hms.
    revert Hsp. unfold abs, abs_ui. rewrite Hc, Hms. cbn. now destruct (isMinting (ui_st s)).
Qed.

(** C27: from any state showing the success modal (connected,
    [modalShow] set, [isMinting] clear, metadata the modal can show and a
    [mintData]), with the latest write settled, a click on a tier button
    is accepted: the buttons stay enabled under the modal, and the click
    goes from {minted} to {minting} without the modal being closed, which
    the specification's machine cannot. *)
Theorem remint_from_success `{Runtime} s t tx :
  isUserConnected (ui_st s) = true -> modalShow (ui_st s) = true -> isMinting (ui_st s) = false ->
  metadata_ok (latestNFTMinted (ui_st s)) = true -> ContractWrite.data (write s) = Some tx ->
  ContractWrite.isLoading (write s) = false ->
  abs s = Minted /\
  exists s', step s (ClickMint t) = Some s' /\ abs s' = Minting /\ ~ spec_step (abs s) (abs s').
Proof.
  intros Hc Hm Hi Hok Hd Hl.
  destruct (metadata_ok_props _ Hok) as (n & i & Hn & Hr & Himg).
  assert (Ha : abs s = Minted) by (unfold abs, abs_ui; now rewrite Hc, Hm, Hi).
  assert (Ha' : abs (mintToken_start (tier_value t) s) = Minting)
    by (unfold abs, abs_ui; rewrite ui_mintToken_start; cbn; now rewrite Hc).
  split; [exact Ha|]. exists (mintToken_start (tier_value t) s). split; [|split; [exact Ha'|]].
  - unfold step. rewrite (PageSafety.render_success s n i tx Hc Hm Hi Hn Hr Himg Hd), Hl. reflexivity.
  - rewrite Ha, Ha'. intros Hsp. inversion Hsp.
Qed.

Lemma reconnect_restores_modal_witness :
  exists s1 s2,
    @step browser demo_minting (WalletStatus false) = Some s1 /\ render s1 = Some ConnectPrompt /\
    abs s1 = Disconnected /\
    @step browser s1 (WalletStatus true) = Some s2 /\
    render s2 = Some (TierCards true (Some ModalMinting)) /\
    abs s2 = abs demo_minting /\ (Some ModalMinting <> None -> ~ spec_step (abs s1) (abs s2)).
Proof. exact (@reconnect_restores_modal browser demo_minting true (Some ModalMinting) eq_refl eq_refl). Defined.

Lemma remint_from_success_witness :
  abs demo_confirmed = Minted /\
  exists s', @step browser demo_confirmed (ClickMint Tier1) = Some s' /\ abs s' = Minting /\
             ~ spec_step (abs demo_confirmed) (abs s').
Proof.
  exact (@remint_from_success browser demo_confirmed Tier1 Page.demo_tx
           eq_refl eq_refl eq_refl eq_refl eq_refl eq_refl).
Defined.

End Refinement.
