(* ===== verification/TokenURI.v ===== *)
(** * Decoding the token URI: line 61 end to end

    The contract returns [tokenURI] as a data URI
    [data:application/json;base64,<payload>] whose payload is the base64
    encoding of the JSON text [{"name":...,"image":...}].  This file
    proves that the page's decoder ([Page.decode_token_uri]: [indexOf],
    [substring], [window.atob], [JSON.parse]) recovers the two strings, for
    every name and image made of plain bytes (no control character, quote
    or backslash), and that the effect stores that object in
    [latestNFTMinted].  More generally, for every runtime whose [atob]
    inverts base64 ([RuntimeLaws]), the decoder passes [JSON.parse]
    exactly the encoded bytes ([decode_token_uri_payload]).
    Since [atob] yields one code unit per byte and nothing decodes UTF-8,
    a name or image written as UTF-8 is shown as written exactly when it
    is ASCII ([utf8_metadata_shown_iff_ascii]).  Last, the metadata lags
    the supply it belongs to: from any state showing the success modal, a
    new supply links the new token while the previous one's metadata
    stays ([stale_metadata_with_new_link]). *)

From Stdlib Require Import ZArith NArith String Bool List Lia.
From S2P Require Import Prelude JsString Base64 Base64Ref Json JsonFuel Wagmi Runtime Page PageSafety.
Import ListNotations.
Open Scope Z_scope.

Module TokenURI.

Import Json Page.

(** The JSON text of the metadata object, as [JSON.stringify] prints
    [{name, image}] for plain strings. *)
Definition key_name : jstring := [110; 97; 109; 101].
Definition key_image : jstring := [105; 109; 97; 103; 101].

Definition metadata_text (name image : jstring) : jstring :=
  c_lbrace :: c_quote :: key_name ++ c_quote :: c_colon :: c_quote :: name ++
  c_quote :: c_comma :: c_quote :: key_image ++ c_quote :: c_colon :: c_quote :: image ++
  [c_quote; c_rbrace].

(** The value [JSON.parse] gives for it. *)
Definition metadata_value (name image : jstring) : jvalue :=
  JObject [(js "name", JString name); (js "image", JString image)].

Definition data_prefix : jstring := js "data:application/json;base64,".

Definition token_uri_of (name image : jstring) : jstring :=
  data_prefix ++ Base64.b64_encode (metadata_text name image).

(** A name or image the contract can put between quotes unescaped, made
    of bytes. *)
Definition plain_bytes (s : jstring) : Prop :=
  forallb plain_char s = true /\ Forall is_byte s.

(** ** Non-ASCII metadata

    A Solidity [string] is UTF-8 bytes, and the contract base64-encodes
    those bytes.  [utf8_of_code_unit] is the UTF-8 encoding of a code
    unit of the Basic Multilingual Plane outside the surrogates (one, two
    or three bytes). *)
Definition utf8_of_code_unit (c : Z) : list Z :=
  if c <? 128 then [c]
  else if c <? 2048 then [192 + c / 64; 128 + c mod 64]
  else [224 + c / 4096; 128 + (c / 64) mod 64; 128 + c mod 64].

Definition utf8_encode (s : jstring) : jstring := flat_map utf8_of_code_unit s.

(** A character of a name or image the contract can write between quotes
    unescaped: a non-surrogate BMP character other than a control
    character, a quote or a backslash. *)
Definition plain_text_char (c : Z) : Prop :=
  32 <= c < 65536 /\ ~ (55296 <= c < 57344) /\ c <> 34 /\ c <> 92.

Lemma key_name_js : key_name = js "name".
Proof. reflexivity. Qed.

Lemma key_image_js : key_image = js "image".
Proof. reflexivity. Qed.

Lemma parse_metadata f X Y :
  forallb plain_char X = true -> forallb plain_char Y = true ->
  parse_value (S (S (S (S (S f))))) (metadata_text X Y) =
  Some (JObject [(key_name, JString X); (key_image, JString Y)], []).
Proof.
  intros HX HY. unfold metadata_text. cbn [parse_value].
  cbn - [parse_members parse_value key_name key_image].
  rewrite parse_members_key by reflexivity.
  cbn - [parse_members parse_value key_name key_image].
  rewrite parse_value_string by exact HX.
  cbn - [parse_members parse_value key_name key_image].
  rewrite parse_members_key by reflexivity.
  cbn - [parse_members parse_value key_name key_image].
  rewrite parse_value_string by exact HY.
  reflexivity.
Qed.

Lemma json_parse_metadata X Y :
  forallb plain_char X = true -> forallb plain_char Y = true ->
  json_parse (metadata_text X Y) = Some (metadata_value X Y).
Proof.
  intros HX HY. unfold json_parse.
  assert (Hlen : exists f, S (2 * length (metadata_text X Y)) = S (S (S (S (S f))))).
  { exists (2 * length (metadata_text X Y) - 4)%nat. unfold metadata_text.
    cbn [length]. rewrite !length_app. cbn [length]. lia. }
  destruct Hlen as [f ->]. rewrite parse_metadata by assumption.
  reflexivity.
Qed.

Lemma metadata_text_bytes X Y :
  Forall is_byte X -> Forall is_byte Y -> Forall is_byte (metadata_text X Y).
Proof.
  intros HX HY.
  unfold metadata_text, key_name, key_image, c_lbrace, c_quote, c_colon, c_comma, c_rbrace.
  repeat (first [ assumption | apply Forall_nil | apply Forall_cons
                | apply Forall_app; split ]).
  all: unfold is_byte; lia.
Qed.

Lemma data_prefix_split :
  data_prefix = js "data:application/json;base64" ++ [44].
Proof. reflexivity. Qed.

Lemma data_prefix_no_comma : ~ In 44 (js "data:application/json;base64").
Proof. cbn. intuition discriminate. Qed.

(** C19: whatever the contract encodes behind a comma-free prefix, the
    page's decoder hands [JSON.parse] exactly those bytes: [atob] inverts
    the base64 encoding and [indexOf]/[substring] cut at the first comma. *)
Theorem decode_token_uri_payload {R : Runtime} {L : RuntimeLaws R} p bytes :
  ~ In 44 p -> Forall is_byte bytes ->
  decode_token_uri (p ++ 44 :: Base64.b64_encode bytes) = rt_json_parse bytes.
Proof.
  intros Hp Hb. unfold decode_token_uri.
  rewrite JsString.indexOf_split by exact Hp.
  rewrite JsString.substring_after_split.
  now rewrite rt_atob_encode by exact Hb.
Qed.

Lemma decode_token_uri_payload_witness :
  @decode_token_uri browser (js "data:" ++ 44 :: Base64.b64_encode (js "null")) =
  @rt_json_parse browser (js "null").
Proof.
  apply (@decode_token_uri_payload browser browser_laws); [cbn; intuition discriminate | apply js_bytes].
Defined.

Lemma decode_metadata X Y :
  plain_bytes X -> plain_bytes Y ->
  @decode_token_uri browser (token_uri_of X Y) = Some (metadata_value X Y).
Proof.
  intros [HX HXb] [HY HYb]. unfold decode_token_uri, token_uri_of.
  rewrite data_prefix_split, <- app_assoc. cbn [app].
  rewrite JsString.indexOf_split by exact data_prefix_no_comma.
  rewrite JsString.substring_after_split.
  cbn [rt_atob rt_json_parse browser].
  rewrite Base64.decode_after_encode by (apply metadata_text_bytes; assumption).
  now apply json_parse_metadata.
Qed.

(** ** UTF-8 metadata *)

Lemma utf8_unit_plain c :
  plain_text_char c -> plain_bytes (utf8_of_code_unit c).
Proof.
  unfold plain_text_char, plain_bytes, utf8_of_code_unit, plain_char, is_byte, c_quote, c_backslash.
  intros (Hr & Hs & Hq & Hb).
  pose proof (Z.div_mod c 64 ltac:(lia)). pose proof (Z.mod_pos_bound c 64 ltac:(lia)).
  pose proof (Z.div_mod c 4096 ltac:(lia)). pose proof (Z.mod_pos_bound c 4096 ltac:(lia)).
  pose proof (Z.div_mod (c / 64) 64 ltac:(lia)).
  pose proof (Z.mod_pos_bound (c / 64) 64 ltac:(lia)).
  destruct (Z.ltb_spec c 128); [|destruct (Z.ltb_spec c 2048)]; cbn [forallb];
    split; repeat constructor; zbool_cases; try reflexivity; lia.
Qed.

Lemma plain_bytes_app a b : plain_bytes a -> plain_bytes b -> plain_bytes (a ++ b).
Proof.
  intros [Ha Ha'] [Hb Hb']. split; [rewrite forallb_app, Ha, Hb; reflexivity|].
  now apply Forall_app.
Qed.

Lemma utf8_encode_plain X : Forall plain_text_char X -> plain_bytes (utf8_encode X).
Proof.
  induction 1 as [|c X Hc _ IH]; [split; [reflexivity | constructor]|].
  apply plain_bytes_app; [apply utf8_unit_plain|]; assumption.
Qed.

Lemma utf8_encode_length X : (length X <= length (utf8_encode X))%nat.
Proof.
  induction X as [|c X IH]; [cbn; lia|].
  unfold utf8_encode in *. cbn [flat_map]. rewrite length_app. cbn [length].
  unfold utf8_of_code_unit at 1. destruct (c <? 128), (c <? 2048); cbn [length]; lia.
Qed.

(** The UTF-8 bytes of a string are the string itself exactly when it is
    ASCII. *)
Lemma utf8_encode_id X : utf8_encode X = X <-> Forall (fun c => c < 128) X.
Proof.
  induction X as [|c X IH]; [split; [constructor | reflexivity]|].
  cbn [utf8_encode flat_map]. fold (utf8_encode X). unfold utf8_of_code_unit.
  destruct (Z.ltb_spec c 128).
  - cbn. rewrite Forall_cons_iff. split.
    + intros H'. injection H' as H'. split; [lia | now apply IH].
    + intros [_ H']. now rewrite (proj2 IH H').
  - split; [|intros H'; inversion H'; lia].
    intros H'. apply (f_equal (@length Z)) in H'. pose proof (utf8_encode_length X).
    destruct (c <? 2048); cbn in H'; lia.
Qed.

(** C11: the page decodes the contract's token URI into the metadata
    object: [JSON.parse(atob(uri.substring(uri.indexOf(',') + 1)))] is
    [{name: X, image: Y}], and reading such a new URI for the current
    [totalSupply] stores that object in [latestNFTMinted] and changes no
    other [useState] cell. *)
Theorem decode_metadata_uri s v n X Y :
  plain_bytes X -> plain_bytes Y -> render s = Some v -> tokenData s = Some n ->
  tokenURI s <> Some (token_uri_of X Y) ->
  @decode_token_uri browser (token_uri_of X Y) = Some (metadata_value X Y) /\
  exists s', @step browser s (TokenURIRead n (token_uri_of X Y)) = Some s' /\
             ui_st s' = setLatestNFTMinted (metadata_value X Y) (ui_st s).
Proof.
  intros HX HY Hr Hn Hne. pose proof (decode_metadata X Y HX HY) as Hd. split; [exact Hd|].
  unfold step. rewrite Hr. eexists. split; [reflexivity|].
  rewrite (proj2 (ContractRead.delivers_spec _ _) Hn). cbn [andb].
  destruct (same_str _ _) eqn:E; [apply same_str_eq in E; congruence|]. cbn [negb].
  rewrite (token_effect_decoded (set_tokenURI (Some (token_uri_of X Y)) s) (token_uri_of X Y)
             (metadata_value X Y)); [reflexivity | reflexivity | | exact Hd].
  unfold token_uri_of, data_prefix. cbn. discriminate.
Qed.

Lemma decode_metadata_uri_witness :
  @decode_token_uri browser (token_uri_of (js "Tier 0") (js "ipfs://img")) =
    Some (metadata_value (js "Tier 0") (js "ipfs://img")) /\
  exists s', @step browser demo_supplied
                (TokenURIRead 1 (token_uri_of (js "Tier 0") (js "ipfs://img"))) = Some s' /\
             ui_st s' = setLatestNFTMinted (metadata_value (js "Tier 0") (js "ipfs://img"))
                          (ui_st demo_supplied).
Proof.
  apply (decode_metadata_uri demo_supplied (TierCards false None) 1);
    [split; first [reflexivity | apply js_bytes] | split; first [reflexivity | apply js_bytes]
    | reflexivity | reflexivity | discriminate].
Defined.

(** C22: when the contract writes a name and an image as UTF-8 bytes,
    the page ([atob], which yields one code unit per byte, then
    [JSON.parse]) shows exactly that name and image if and only if both
    are ASCII: any other character is shown as its UTF-8 bytes read as
    Latin-1 characters. *)
Theorem utf8_metadata_shown_iff_ascii X Y :
  Forall plain_text_char X -> Forall plain_text_char Y ->
  (@decode_token_uri browser (token_uri_of (utf8_encode X) (utf8_encode Y)) =
     Some (metadata_value X Y) <->
   Forall (fun c => c < 128) X /\ Forall (fun c => c < 128) Y).
Proof.
  intros HX HY.
  rewrite decode_metadata by (apply utf8_encode_plain; assumption).
  rewrite <- !utf8_encode_id. unfold metadata_value. split.
  - intros H'. injection H' as H1 H2. auto.
  - intros [-> ->]. reflexivity.
Qed.

Lemma utf8_metadata_shown_iff_ascii_witness :
  @decode_token_uri browser (token_uri_of (utf8_encode [233]) (utf8_encode (js "x"))) <>
  Some (metadata_value [233] (js "x")).
Proof.
  intros H'.
  apply (utf8_metadata_shown_iff_ascii [233] (js "x")) in H' as [H1 _];
    [| repeat constructor; unfold plain_text_char; lia
     | repeat constructor; unfold plain_text_char; cbn; lia].
  inversion H1. lia.
Defined.

(** C20: a token URI whose payload (after the first comma) holds a
    character that is not in the base64 alphabet, not ASCII whitespace and
    not '=' makes [atob] throw; the page accepts the read and keeps its
    [useState] cells, the previous metadata included. *)
Theorem invalid_base64_uri_ignored s v n u c :
  render s = Some v ->
  In c (JsString.substring u (JsString.indexOf u [44] + 1)) ->
  Base64.is_ascii_whitespace c = false -> c <> Base64.eq_sign -> Base64.in_alphabet c = false ->
  exists s', @step browser s (TokenURIRead n u) = Some s' /\ ui_st s' = ui_st s.
Proof.
  intros Hr Hin Hws Heq Hal. apply (step_uri_decode_failed s n u v Hr).
  unfold decode_token_uri. cbn [rt_atob browser].
  now rewrite (Base64.atob_invalid_char _ c).
Qed.

Lemma invalid_base64_uri_ignored_witness :
  exists s', @step browser demo_supplied (TokenURIRead 1 (js "data:,ab!c")) = Some s' /\
             ui_st s' = ui_st demo_supplied.
Proof.
  apply (invalid_base64_uri_ignored demo_supplied (TierCards false None) 1 _ 33);
    [reflexivity | vm_compute; tauto | reflexivity | discriminate | reflexivity].
Defined.

Lemma same_N_some k d : same_N (Some k) d = true -> d = Some k.
Proof. destruct d as [x|]; cbn; [|discriminate]. destruct (N.eqb_spec k x); congruence. Qed.

(** C25: the success modal can pair the OpenSea link of one token with
    the metadata of another: from any state showing the success modal, a
    new [totalSupply] result (the re-read after a mint) is accepted, moves
    the link to the new token at once and leaves every [useState] cell as
    it was, [latestNFTMinted] included: the modal shows the previous
    token's name and image under the new token's link until the
    [tokenURI] read for the new supply lands (and for good if it does not
    decode). *)
Theorem stale_metadata_with_new_link `{Runtime} s d n i o p k :
  render s = Some (TierCards d (Some (ModalSuccess n i o p))) -> tokenData s <> Some k ->
  exists s', step s (TotalSupplyRead k) = Some s' /\ tokenData s' = Some k /\ ui_st s' = ui_st s /\
    render s' = Some (TierCards d (Some (ModalSuccess n i (opensea_url (Some k)) p))).
Proof.
  intros Hr Hk. exists (supply_read k s). refine (conj _ (conj eq_refl (conj eq_refl _))).
  - unfold step. rewrite Hr.
    destruct (same_N (Some k) (tokenData s)) eqn:E; [apply same_N_some in E; congruence|].
    reflexivity.
  - rewrite (PageSafety.render_frame s (supply_read k s) eq_refl eq_refl), Hr. reflexivity.
Qed.

Lemma stale_metadata_with_new_link_witness :
  exists s', @step browser demo_confirmed (TotalSupplyRead 1) = Some s' /\ tokenData s' = Some 1%N /\
    ui_st s' = ui_st demo_confirmed /\
    render s' = Some (TierCards false (Some (ModalSuccess None None (opensea_url (Some 1%N))
                                                          (polygonscan_url (js "0xabc"))))).
Proof.
  exact (@stale_metadata_with_new_link browser demo_confirmed false None None
           (opensea_url None) (polygonscan_url (js "0xabc")) 1 ltac:(vm_compute; reflexivity)
           ltac:(discriminate)).
Defined.

End TokenURI.
