(* ===== verification/Styles.v ===== *)
(** * The inline style objects and what they decide: can a pointer reach a Mint button

    [index.js] lines 183-262 declare nine style objects; the JSX puts
    [NFTFlex] on the row of cards (line 99), [NFTCard] on each card (line
    100), [NFTMint] on each Mint button (line 108) and [modal] on the
    overlay of the modal (line 144).  Each object is a [style], its
    properties in source order, with [prop] the object literal's lookup.

    The only behaviour in them is the overlay's: [modal] is
    [position: fixed] with the four offsets [0] and [zIndex: '1'].  By
    CSS 2.1 such a box fills the viewport ([covers_viewport]) and paints,
    and so takes pointer events, above the in-flow, non-positioned boxes
    of the cards ([paints_above]), so it takes every pointer click aimed
    at a Mint button ([modal_blocks_mint_buttons]); it does not make the
    cards inert, and the page accepts a Mint activation under the modal
    when the buttons are enabled ([Refinement.remint_from_success]). *)

From Stdlib Require Import ZArith String Ascii Bool List Lia.
From S2P Require Import Prelude JsString Json Wagmi Runtime Page.
Import ListNotations.

Module Styles.

Import Page.
Open Scope string_scope.

(** An inline style object: its properties in source order. *)
Definition style := list (string * string).

Definition header : style :=
  [("display", "flex"); ("alignItems", "center"); ("justifyContent", "space-between")].

Definition NFTFlex : style :=
  [("display", "flex"); ("alignItems", "center"); ("justifyContent", "space-evenly");
   ("gap", "50px")].

Definition NFTCard : style :=
  [("display", "flex"); ("flexDirection", "column"); ("border", "2px solid white");
   ("borderRadius", "10px"); ("padding", "20px"); ("alignItems", "center");
   ("gap", "10px"); ("fontWeight", "bold")].

Definition NFTMint : style :=
  [("fontWeight", "700"); ("padding", "5px 20px"); ("border", "2px solid white");
   ("color", "white"); ("backgroundColor", "black"); ("borderRadius", "5px");
   ("cursor", "pointer")].

Definition modal : style :=
  [("position", "fixed"); ("left", "0"); ("top", "0"); ("right", "0"); ("bottom", "0");
   ("backgroundColor", "rgba(0, 0, 0, 0.8)"); ("display", "flex");
   ("alignItems", "center"); ("justifyContent", "center"); ("textAlign", "center");
   ("zIndex", "1")].

Definition modalContent : style :=
  [("backgroundColor", "#fff"); ("padding", "10px 30px"); ("borderRadius", "16px");
   ("color", "#000")].

Definition modalBody : style :=
  [("padding", "20px"); ("borderTop", "1px solid #eee"); ("borderBottom", "1px solid #eee")].

Definition modalFooter : style :=
  [("display", "flex"); ("flexDirection", "column"); ("gap", "10px"); ("padding", "20px");
   ("justifyContent", "space-evenly")].

Definition modalButton : style :=
  [("padding", "10px 20px"); ("backgroundColor", "#fff"); ("color", "#666");
   ("border", "0"); ("borderRadius", "10px"); ("fontSize", "18px"); ("fontWeight", "700");
   ("boxShadow", "0 0.2em 0.4em 0 rgba(0, 0, 0, 0.2), 0 0.3em 1em 0 rgba(0, 0, 0, 0.19)");
   ("cursor", "pointer")].

(** Property lookup on an object literal: a later key overrides an
    earlier one. *)
Fixpoint prop (st : style) (k : string) : option string :=
  match st with
  | [] => None
  | (k', v) :: r =>
      match prop r k with
      | Some w => Some w
      | None => if String.eqb k k' then Some v else None
      end
  end.

(** ** The CSS the overlay relies on *)

Definition digit (c : ascii) : option Z :=
  let n := nat_of_ascii c in
  if (48 <=? n)%nat && (n <=? 57)%nat then Some (Z.of_nat (n - 48)) else None.

Fixpoint digits_acc (acc : Z) (s : string) : option Z :=
  match s with
  | EmptyString => Some acc
  | String c r => match digit c with Some d => digits_acc (acc * 10 + d) r | None => None end
  end.

(** A CSS [<integer>]: an optional minus sign and decimal digits. *)
Definition css_integer (s : string) : option Z :=
  match s with
  | EmptyString => None
  | String "-" EmptyString => None
  | String "-" r => option_map Z.opp (digits_acc 0 r)
  | _ => digits_acc 0 s
  end.

(** [z-index]: absent or invalid is [auto], which paints at level 0 of
    the root stacking context. *)
Definition z_level (st : style) : Z :=
  match prop st "zIndex" with
  | Some z => match css_integer z with Some n => n | None => 0 end
  | None => 0
  end.

Definition positioned (st : style) : bool :=
  match prop st "position" with Some p => negb (String.eqb p "static") | None => false end.

Definition is_zero_length (o : option string) : bool :=
  match o with Some v => String.eqb v "0" || String.eqb v "0px" | None => false end.

(** CSS 2.1 sections 10.3.7 and 10.6.4: a fixed box whose four offsets
    are 0 has the viewport as its margin box. *)
Definition covers_viewport (st : style) : bool :=
  match prop st "position" with Some p => String.eqb p "fixed" | None => false end &&
  forallb (fun k => is_zero_length (prop st k)) ["left"; "top"; "right"; "bottom"].

(** CSS 2.1 appendix E: positioned boxes of z-index [auto], 0 or more
    paint after the in-flow non-positioned blocks, and hit testing takes
    the topmost box; a negative z-index paints below them. *)
Definition paints_above (over : style) (chain : list style) : bool :=
  positioned over && Z.leb 0 (z_level over) && forallb (fun st => negb (positioned st)) chain.

Definition blocks_pointer (over : style) (chain : list style) : bool :=
  covers_viewport over && paints_above over chain.

(** The inline styles from a Mint button up to the page: the button
    (line 108), its card (line 100) and the row of cards (line 99). *)
Definition mint_button_chain : list style := [NFTMint; NFTCard; NFTFlex].

(** ** What the overlay does to the Mint buttons *)

Lemma modal_blocks_mint_buttons : blocks_pointer modal mint_button_chain = true.
Proof. reflexivity. Qed.

End Styles.
