(* ===== verification/Account.v ===== *)
(** * The wallet account behind [useAccount] and [ConnectButton]

    Line 13 reads [isConnected] from wagmi's [useAccount]; the account it
    reports is changed by RainbowKit's [ConnectButton] (line 95) and by
    the wallet: wagmi's statuses are connecting, reconnecting (the
    automatic reconnection on load), connected and disconnected, and
    [isConnected] is [status === 'connected'].  [account_step] is how the
    actions the button and the wallet produce move the status;
    [account_run] feeds the page, after each action, the [isConnected]
    its next render reads ([wallet_event]).

    [account_sync]: whatever the actions, the page's [isConnected] and
    its [isUserConnected] cell follow the account's status.  The statuses
    and their transitions are modelled from wagmi's documentation, not
    from code of the repository. *)

From Stdlib Require Import ZArith NArith String Bool List Lia.
From S2P Require Import Prelude JsString Json Wagmi Runtime Page.
Import ListNotations.

Module Account.

Import Page.

Inductive status := Connecting | Reconnecting | Connected | Disconnected.

(** What [ConnectButton] and the wallet do to the account. *)
Inductive action :=
| Reconnect          (** on load, a wallet connected before is reconnected *)
| ConnectRequest     (** a wallet is chosen in the connect modal *)
| ConnectSucceeded   (** the wallet approved the connection *)
| ConnectFailed      (** the wallet refused it *)
| AccountChanged     (** the wallet switched to another of its accounts *)
| Disconnect.        (** Disconnect in the account modal *)

Definition account_step (st : status) (a : action) : status :=
  match a, st with
  | Reconnect, _ => Reconnecting
  | ConnectRequest, _ => Connecting
  | ConnectSucceeded, (Connecting | Reconnecting) => Connected
  | ConnectFailed, (Connecting | Reconnecting) => Disconnected
  | Disconnect, _ => Disconnected
  | _, _ => st
  end.

(** Line 13: [const { isConnected } = useAccount()]. *)
Definition isConnected (st : status) : bool :=
  match st with Connected => true | _ => false end.

(** The render after a change of the account store reads the new
    [isConnected]. *)
Definition wallet_event (st : status) : event := WalletStatus (isConnected st).

Fixpoint account_run `{Runtime} (s : state) (st : status) (acts : list action)
  : option (state * status) :=
  match acts with
  | [] => Some (s, st)
  | a :: r =>
      let st' := account_step st a in
      match step s (wallet_event st') with
      | Some s' => account_run s' st' r
      | None => None
      end
  end.

Section Sync.
Context `{RT : Runtime}.

(** A wallet status update leaves the page's [isConnected] and its
    [isUserConnected] cell equal to the new status. *)
Lemma step_wallet_sync s b s' :
  isUserConnected (ui_st s) = Page.isConnected s -> step s (WalletStatus b) = Some s' ->
  Page.isConnected s' = b /\ isUserConnected (ui_st s') = b.
Proof.
  intros Hs H. unfold step in H. destruct (render s); [|discriminate]. injection H as <-.
  destruct (Bool.eqb_spec b (Page.isConnected s)) as [->|_]; [auto|]. cbn. auto.
Qed.

Lemma account_run_sync acts : forall s st s' st',
  Page.isConnected s = isConnected st -> isUserConnected (ui_st s) = Page.isConnected s ->
  account_run s st acts = Some (s', st') ->
  Page.isConnected s' = isConnected st' /\ isUserConnected (ui_st s') = isConnected st'.
Proof.
  induction acts as [|a r IH]; intros s st s' st' Hc Hu H; cbn in H.
  - injection H as <- <-. rewrite <- Hc. auto.
  - destruct (step s (wallet_event (account_step st a))) as [s1|] eqn:E; [|discriminate].
    apply step_wallet_sync in E as [E1 E2]; [|exact Hu].
    apply (IH s1 (account_step st a)); [exact E1 | congruence | exact H].
Qed.

(** From the first render, whatever the connection actions, the page's
    [isConnected] and its [isUserConnected] cell follow the account. *)
Lemma account_sync acts s st :
  account_run init Disconnected acts = Some (s, st) ->
  Page.isConnected s = isConnected st /\ isUserConnected (ui_st s) = isConnected st.
Proof. apply account_run_sync; reflexivity. Qed.

End Sync.

End Account.
